(** * The Split kernel of tensorflow/core/kernels/split_op.cc

    A shallow embedding of [SplitOpBase], [SplitOpCPU] and [SplitOpGPU]:
    fixed-width integers are [Z] with the wrap-around written out, a
    [TensorShape] is the list of its 64-bit dimension sizes, tensors are
    views (buffer, offset, shape) into a store of element buffers, and the
    [OpKernelContext] is threaded through the code as an explicit state. *)

From stdpp Require Import base numbers list gmap.
From Stdlib Require Import ZArith Lia.

Local Open Scope Z_scope.

(** ** Fixed-width integers *)

(** Value of a mathematical integer once stored in an [int32]: narrowing
    conversions and [int32] products wrap around in two's complement, as
    on the build targets. *)
Definition to_int32 (z : Z) : Z := (z + 2 ^ 31) mod 2 ^ 32 - 2 ^ 31.

(** Same for [int64]. *)
Definition to_int64 (z : Z) : Z := (z + 2 ^ 63) mod 2 ^ 64 - 2 ^ 63.

Definition fits_int32 (z : Z) : Prop := - 2 ^ 31 <= z < 2 ^ 31.
Definition fits_int64 (z : Z) : Prop := - 2 ^ 63 <= z < 2 ^ 63.

(** [fits_int32] as a test. *)
Definition in_int32 (z : Z) : bool := (- 2 ^ 31 <=? z) && (z <? 2 ^ 31).

(** ** C-style counting loops

    [for_range lo hi body acc] is
    [for (int i = lo; i < hi; ++i) acc = body i acc]. *)
Fixpoint for_loop {A : Type} (n : nat) (i : Z) (body : Z -> A -> A) (acc : A) : A :=
  match n with
  | O => acc
  | S n' => for_loop n' (i + 1) body (body i acc)
  end.

Definition for_range {A : Type} (lo hi : Z) (body : Z -> A -> A) (acc : A) : A :=
  for_loop (Z.to_nat (hi - lo)) lo body acc.

(** ** TensorShape *)

Abbreviation TensorShape := (list Z) (only parsing).

Definition dims (s : TensorShape) : Z := Z.of_nat (length s).

Definition dim_size (s : TensorShape) (d : Z) : Z := nth (Z.to_nat d) s 0.

(** Modelled from the spec: [TensorShape::set_dim] (tensor_shape.h is not
    part of the sources).  A shape is an "ordered sequence of non-negative
    dimension sizes", and "a derived shape (e.g., output shape) is a copy
    with one dimension overwritten".  [set_dim] is the derived shape;
    [set_dim_valid] is the check the shape class makes on its arguments
    (an axis of the shape, a non-negative size): the process is terminated
    when it fails. *)
Definition set_dim (s : TensorShape) (d : Z) (size : Z) : TensorShape :=
  <[Z.to_nat d := size]> s.

Definition set_dim_valid (s : TensorShape) (d : Z) (size : Z) : bool :=
  (0 <=? d) && (d <? dims s) && (0 <=? size).

Definition num_elements (s : TensorShape) : Z := foldr Z.mul 1 s.

(** A shape as the framework builds it: every size is a non-negative
    [int64]. *)
Definition shape_wf (s : TensorShape) : Prop :=
  Forall (fun d => 0 <= d < 2 ^ 63) s.

(** ** SplitOpBase::SetDims

    The accumulators are [int32]; each [dim_size] is an [int64], so the
    product is formed in 64 bits and narrowed on assignment. *)
Definition SetDims (input_shape : TensorShape) (split_dim : Z) : Z * Z * Z :=
  let prefix_dim_size :=
    for_range 0 split_dim
      (fun i prefix_dim_size =>
         to_int32 (to_int64 (prefix_dim_size * dim_size input_shape i))) 1 in
  let split_dim_size := to_int32 (dim_size input_shape split_dim) in
  let suffix_dim_size :=
    for_range (split_dim + 1) (dims input_shape)
      (fun i suffix_dim_size =>
         to_int32 (to_int64 (suffix_dim_size * dim_size input_shape i))) 1 in
  (prefix_dim_size, split_dim_size, suffix_dim_size).

(** The three quantities the collapse is meant to compute, as mathematical
    integers. *)
Definition prefix_product (s : TensorShape) (split_dim : Z) : Z :=
  num_elements (take (Z.to_nat split_dim) s).

Definition suffix_product (s : TensorShape) (split_dim : Z) : Z :=
  num_elements (drop (S (Z.to_nat split_dim)) s).

(** ** Status *)

Inductive Status : Type :=
  | OK
  | InvalidArgument
  | ResourceExhausted
  | Internal.

Definition ok (s : Status) : bool :=
  match s with OK => true | _ => false end.

(** ** Tensors, views and pointers

    A [Tensor] is a handle on a buffer of the element store: the buffer,
    the element offset of its first element, and its shape (row-major).
    Two handles with the same [buf] share storage. *)
Record Tensor : Type := mkTensor {
  shape : TensorShape;
  buf : nat;
  off : Z
}.

(** [T*]: a buffer and an element offset into it. *)
Definition Ptr : Type := nat * Z.

(** [flat<T>().data()] *)
Definition data (t : Tensor) : Ptr := (buf t, off t).

(** The rank-3 [TTypes<T, 3>::Tensor] returned by [shaped<T, 3>]. *)
Record View3 : Type := mkView3 {
  v_buf : nat;
  v_off : Z;
  v_dims : Z * Z * Z
}.

(** Modelled from the spec: [Tensor::shaped<T, 3>] (tensor.h is not part of
    the sources), "a 3D view" of the same storage with the given extents.
    The extents of a view satisfy "prefix_size x split_size x suffix_size =
    total element count": [shaped_valid] is the check the tensor class makes
    on the extents it is given (their product, formed in 64 bits, is the
    element count of the tensor), and the process is terminated when it
    fails. *)
Definition shaped (t : Tensor) (new_sizes : Z * Z * Z) : View3 :=
  {| v_buf := buf t; v_off := off t; v_dims := new_sizes |}.

Definition shaped_valid (t : Tensor) (new_sizes : Z * Z * Z) : bool :=
  let '(n0, n1, n2) := new_sizes in
  to_int64 (to_int64 (n0 * n1) * n2) =? num_elements (shape t).

(** Modelled from the spec: [Tensor::Slice] (tensor.h is not part of the
    sources), "a contiguous sub-range slice of the input's first dimension
    (non-owning view sharing input storage, offset by [start] rows)". *)
Definition Slice (t : Tensor) (start limit : Z) : Tensor :=
  {| shape := set_dim (shape t) 0 (limit - start);
     buf := buf t;
     off := off t + start * num_elements (tail (shape t)) |}.

(** One invocation of the strided-copy primitive [functor::Split]. *)
Record SplitCall : Type := mkSplitCall {
  sc_output : View3;
  sc_input : View3;
  sc_slice_indices : Z * Z * Z;
  sc_slice_sizes : Z * Z * Z
}.

(** Operations enqueued on the GPU compute stream, in issue order. *)
Inductive StreamOp : Type :=
  | ThenMemcpy (gpu_dst : nat) (host_src : nat) (size : Z)
  | ThenExecute_Unref (tensor_ref : nat)
  | SplitOpGPULaunch (input : Ptr)
      (num_split prefix_dim_size split_dim_size suffix_dim_size : Z)
      (output_ptrs_vec : nat).

(** Pointer-array temporaries and the stream of the GPU device.
    [temps] maps a temporary to its contents (slot -> pointer; a slot never
    written is absent), [refs] counts the references held on host-side
    temporaries (0 or absent: released). *)
Record DeviceState : Type := mkDeviceState {
  temps : gmap nat (gmap nat Ptr);
  refs : gmap nat nat;
  next_temp : nat;
  stream : list StreamOp;
  stream_ok : bool
}.

Definition sizeof_ptr : Z := 8.

Section SplitOp.

Context {T : Type}.

(** [IsInnerDimsSizeAligned<T>] (ops_util.h) depends on the element type
    and on the target's alignment; it is a parameter of the kernel. *)
Variable IsInnerDimsSizeAligned : TensorShape -> bool.

(** The allocator is an external collaborator: [allocate_status n s] is the
    status it answers to a request for a buffer of shape [s] when [n]
    element buffers are live; [allocate_temp_status n bytes] likewise for
    the pointer-array temporaries. *)
Variable allocate_status : nat -> TensorShape -> Status.
Variable allocate_temp_status : nat -> Z -> Status.

(** The element store: buffer -> element offset -> element. *)
Definition Memory : Type := nat -> Z -> T.

Record OpKernelContext : Type := mkContext {
  input0 : Z;                    (* input(0): the scalar split_dim, an int32 *)
  input1 : Tensor;               (* input(1): the tensor to split *)
  status : Status;
  outputs : gmap nat Tensor;
  memory : Memory;
  allocated : nat;               (* buffers [0, allocated) are live *)
  split_calls : list SplitCall;  (* invocations of functor::Split so far *)
  device : DeviceState
}.

Definition with_status (c : OpKernelContext) (s : Status) : OpKernelContext :=
  mkContext (input0 c) (input1 c) s (outputs c) (memory c) (allocated c)
    (split_calls c) (device c).

Definition with_device (c : OpKernelContext) (d : DeviceState) : OpKernelContext :=
  mkContext (input0 c) (input1 c) (status c) (outputs c) (memory c) (allocated c)
    (split_calls c) d.

(** [OP_REQUIRES] / [OP_REQUIRES_OK] record the failure in the context;
    the first error sticks. *)
Definition CtxFailure (c : OpKernelContext) (s : Status) : OpKernelContext :=
  if ok (status c) then with_status c s else c.

Definition set_output (c : OpKernelContext) (index : Z) (t : Tensor) : OpKernelContext :=
  mkContext (input0 c) (input1 c) (status c) (<[Z.to_nat index := t]> (outputs c))
    (memory c) (allocated c) (split_calls c) (device c).

(** [allocate_output]: on success a fresh buffer becomes output [index];
    its contents are whatever the store holds there (uninitialised). *)
Definition allocate_output (c : OpKernelContext) (index : Z) (s : TensorShape)
  : Status * (OpKernelContext * Tensor) :=
  let result := {| shape := s; buf := allocated c; off := 0 |} in
  match allocate_status (allocated c) s with
  | OK =>
      (OK,
       (mkContext (input0 c) (input1 c) (status c)
          (<[Z.to_nat index := result]> (outputs c))
          (memory c) (S (allocated c)) (split_calls c) (device c),
        result))
  | err => (err, (c, result))
  end.

(** [const int64 delta = input_shape.dim_size(0) / num_split] of the
    dim-0 fast path (line 84). *)
Definition slice_delta (input_shape : TensorShape) (num_split : Z) : Z :=
  to_int64 (Z.quot (dim_size input_shape 0) num_split).

(** *** SplitOpBase::ComputeEasyCases

    Returns the context and the [done] flag. *)
Definition ComputeEasyCases (num_outputs : Z) (context : OpKernelContext)
  : OpKernelContext * bool :=
  let split_dim := input0 context in
  let num_split := num_outputs in
  let input := input1 context in
  let input_shape := shape input in
  if negb ((0 <=? split_dim) && (split_dim <? dims input_shape)) then
    (CtxFailure context InvalidArgument, false)
  else if negb (0 <? num_split) then
    (CtxFailure context InvalidArgument, false)
  else if negb (Z.rem (dim_size input_shape split_dim) num_split =? 0) then
    (CtxFailure context InvalidArgument, false)
  else if num_split =? 1 then
    (* Special case 1: num_split == 1. *)
    (set_output context 0 input, true)
  else if (split_dim =? 0) && IsInnerDimsSizeAligned input_shape then
    (* Special case 2: split along the 1st dimension. *)
    let delta := slice_delta input_shape num_split in
    (for_range 0 num_split
       (fun i c =>
          set_output c i
            (Slice input (to_int64 (i * delta)) (to_int64 ((i + 1) * delta))))
       context,
     true)
  else (context, false).

(** *** functor::Split<CPUDevice, T>

    Modelled from the spec: the strided-copy primitive (split_lib.h is not
    part of the sources) "performs the actual elementwise copy from a 3D
    strided view of input to a 3D strided view of output": element
    [(a, b, c)] of the output view, for [(a, b, c)] within [slice_sizes],
    receives element [(a, b, c) + slice_indices] of the input view. *)
Definition functor_Split (m : Memory) (output input : View3)
    (slice_indices slice_sizes : Z * Z * Z) : Memory :=
  let '(_, o1, o2) := v_dims output in
  let '(_, d1, d2) := v_dims input in
  let '(i0, i1, i2) := slice_indices in
  let '(s0, s1, s2) := slice_sizes in
  fun b k =>
    let r := k - v_off output in
    let a0 := r / (o1 * o2) in
    let a1 := (r / o2) mod o1 in
    let a2 := r mod o2 in
    if bool_decide (b = v_buf output) && (0 <=? r) && (0 <? o1) && (0 <? o2)
       && (a0 <? s0) && (a1 <? s1) && (a2 <? s2)
    then m (v_buf input) (v_off input + ((a0 + i0) * d1 + (a1 + i1)) * d2 + (a2 + i2))
    else m b k.

Definition call_Split (c : OpKernelContext) (output input : View3)
    (slice_indices slice_sizes : Z * Z * Z) : OpKernelContext :=
  mkContext (input0 c) (input1 c) (status c) (outputs c)
    (functor_Split (memory c) output input slice_indices slice_sizes)
    (allocated c)
    (split_calls c ++ [mkSplitCall output input slice_indices slice_sizes])
    (device c).

(** *** SplitOpCPU::Compute

    [SplitOpCPU_Compute] is the body of the method as it runs when the
    checks of [shaped] and [set_dim] pass; [SplitOpCPU_run], further down,
    is the invocation with these checks. *)

(** One iteration of the loop of lines 144-164: the body up to the update
    of [indices], with the status of [OP_REQUIRES_OK].  The guard of line
    148 multiplies three [int32]. *)
Definition SplitOpCPU_iteration (i : Z) (indices : Z * Z * Z)
    (input_reshaped : View3) (output_shape : TensorShape)
    (prefix_dim_size split_dim_output_size suffix_dim_size : Z)
    (context : OpKernelContext) : Status * OpKernelContext :=
  let sizes := (prefix_dim_size, split_dim_output_size, suffix_dim_size) in
  match allocate_output context i output_shape with
  | (OK, (context, result)) =>
      (OK,
       if 0 <? to_int32 (to_int32 (prefix_dim_size * split_dim_output_size)
                         * suffix_dim_size)
       then
         let slice_indices := indices in
         let slice_sizes := sizes in
         let result_shaped := shaped result sizes in
         call_Split context result_shaped input_reshaped slice_indices slice_sizes
       else context)
  | (err, (context, _)) => (err, context)
  end.

(** The loop [for (int i = 0; i < num_split; ++i)], with [n] iterations
    left; [indices] is the running [Eigen::DSizes], advanced along axis 1
    after each iteration.  A failed allocation returns from [Compute]. *)
Fixpoint SplitOpCPU_loop (n : nat) (i : Z) (indices : Z * Z * Z)
    (input_reshaped : View3) (output_shape : TensorShape)
    (prefix_dim_size split_dim_output_size suffix_dim_size : Z)
    (context : OpKernelContext) : OpKernelContext :=
  match n with
  | O => context
  | S n' =>
      match SplitOpCPU_iteration i indices input_reshaped output_shape
              prefix_dim_size split_dim_output_size suffix_dim_size context with
      | (OK, context) =>
          let '(ix0, ix1, ix2) := indices in
          SplitOpCPU_loop n' (i + 1) (ix0, to_int64 (ix1 + split_dim_output_size), ix2)
            input_reshaped output_shape
            prefix_dim_size split_dim_output_size suffix_dim_size context
      | (err, context) => CtxFailure context err
      end
  end.

Definition SplitOpCPU_Compute (num_outputs : Z) (context : OpKernelContext)
  : OpKernelContext :=
  let '(context, done) := ComputeEasyCases num_outputs context in
  if negb (ok (status context)) || done then context
  else
    let split_dim := input0 context in
    let num_split := num_outputs in
    let input := input1 context in
    let input_shape := shape input in
    let '(prefix_dim_size, split_dim_size, suffix_dim_size) :=
      SetDims input_shape split_dim in
    let input_reshaped :=
      shaped input (prefix_dim_size, split_dim_size, suffix_dim_size) in
    let split_dim_output_size := to_int32 (Z.quot split_dim_size num_split) in
    let output_shape := set_dim input_shape split_dim split_dim_output_size in
    SplitOpCPU_loop (Z.to_nat num_split) 0 (0, 0, 0) input_reshaped output_shape
      prefix_dim_size split_dim_output_size suffix_dim_size context.

(** *** SplitOpGPU::Compute

    As for the CPU executor, [SplitOpGPU_Compute] is the body of the method
    and [SplitOpGPU_run] the invocation with the check of [set_dim]. *)

(** [allocate_temp] of a pointer array of [bytes] bytes.  A host-resident
    temporary ([attr.set_on_host(true)]) is reference counted, the local
    [Tensor] holding the first reference; device temporaries are reclaimed
    by the device runtime and are not counted here. *)
Definition allocate_temp (c : OpKernelContext) (bytes : Z) (on_host : bool)
  : Status * (OpKernelContext * nat) :=
  let d := device c in
  let t := next_temp d in
  match allocate_temp_status t bytes with
  | OK =>
      (OK,
       (with_device c
          (mkDeviceState (<[t := ∅]> (temps d))
             (if on_host then <[t := 1%nat]> (refs d) else refs d)
             (S t) (stream d) (stream_ok d)),
        t))
  | err => (err, (c, t))
  end.

(** [arr[i] = p] on the pointer array held by temporary [t]. *)
Definition store_ptr (c : OpKernelContext) (t : nat) (i : Z) (p : Ptr) : OpKernelContext :=
  let d := device c in
  with_device c
    (mkDeviceState
       (<[t := <[Z.to_nat i := p]> (default ∅ (temps d !! t))]> (temps d))
       (refs d) (next_temp d) (stream d) (stream_ok d)).

(** [TensorReference tensor_ref(t)]: one more reference on [t]. *)
Definition TensorReference (c : OpKernelContext) (t : nat) : OpKernelContext :=
  let d := device c in
  with_device c
    (mkDeviceState (temps d) (alter S t (refs d)) (next_temp d) (stream d) (stream_ok d)).

(** [Unref], also what the destructor of a local [Tensor] does. *)
Definition Unref (c : OpKernelContext) (t : nat) : OpKernelContext :=
  let d := device c in
  with_device c
    (mkDeviceState (temps d) (alter Nat.pred t (refs d)) (next_temp d) (stream d)
       (stream_ok d)).

Definition enqueue (c : OpKernelContext) (op : StreamOp) : OpKernelContext :=
  let d := device c in
  with_device c
    (mkDeviceState (temps d) (refs d) (next_temp d) (stream d ++ [op]) (stream_ok d)).

(** The loop of lines 220-225; the flag tells whether [Compute] goes on
    ([false]: an allocation failed and [Compute] returns). *)
Fixpoint SplitOpGPU_loop (n : nat) (i : Z) (output_shape : TensorShape)
    (output_ptrs_on_host : nat) (context : OpKernelContext)
  : OpKernelContext * bool :=
  match n with
  | O => (context, true)
  | S n' =>
      match allocate_output context i output_shape with
      | (OK, (context, result)) =>
          let context := store_ptr context output_ptrs_on_host i (data result) in
          SplitOpGPU_loop n' (i + 1) output_shape output_ptrs_on_host context
      | (err, (context, _)) => (CtxFailure context err, false)
      end
  end.

(** Lines 215-243, once [output_ptrs_on_host] is allocated.  The guard of
    line 226 tests the same [int32] product against 0; the launch passes
    [num_split] in the third position of [Run]. *)
Definition SplitOpGPU_body (num_split : Z) (input : Tensor)
    (prefix_dim_size split_dim_size suffix_dim_size split_dim_output_size : Z)
    (output_shape : TensorShape) (output_ptrs_total_bytes : Z)
    (output_ptrs_on_host : nat) (context : OpKernelContext) : OpKernelContext :=
  match allocate_temp context output_ptrs_total_bytes false with
  | (OK, (context, output_ptrs_on_gpu)) =>
      match SplitOpGPU_loop (Z.to_nat num_split) 0 output_shape
              output_ptrs_on_host context with
      | (context, false) => context
      | (context, true) =>
          if to_int32 (to_int32 (prefix_dim_size * split_dim_output_size)
                       * suffix_dim_size) =? 0
          then context
          else
            let context := TensorReference context output_ptrs_on_host in
            let context :=
              enqueue context
                (ThenMemcpy output_ptrs_on_gpu output_ptrs_on_host
                   output_ptrs_total_bytes) in
            let context := enqueue context (ThenExecute_Unref output_ptrs_on_host) in
            let context :=
              enqueue context
                (SplitOpGPULaunch (data input) num_split prefix_dim_size
                   split_dim_size suffix_dim_size output_ptrs_on_gpu) in
            if stream_ok (device context) then context
            else CtxFailure context Internal
      end
  | (err, (context, _)) => CtxFailure context err
  end.

Definition SplitOpGPU_Compute (num_outputs : Z) (context : OpKernelContext)
  : OpKernelContext :=
  let '(context, done) := ComputeEasyCases num_outputs context in
  if negb (ok (status context)) || done then context
  else
    let split_dim := input0 context in
    let num_split := num_outputs in
    let input := input1 context in
    let input_shape := shape input in
    let '(prefix_dim_size, split_dim_size, suffix_dim_size) :=
      SetDims input_shape split_dim in
    let split_dim_output_size := to_int32 (Z.quot split_dim_size num_split) in
    let output_shape := set_dim input_shape split_dim split_dim_output_size in
    let output_ptrs_total_bytes := to_int64 (sizeof_ptr * num_split) in
    match allocate_temp context output_ptrs_total_bytes true with
    | (OK, (context, output_ptrs_on_host)) =>
        let context :=
          SplitOpGPU_body num_split input prefix_dim_size split_dim_size
            suffix_dim_size split_dim_output_size output_shape
            output_ptrs_total_bytes output_ptrs_on_host context in
        (* the local [output_ptrs_on_host] goes out of scope *)
        Unref context output_ptrs_on_host
    | (err, (context, _)) => CtxFailure context err
    end.

(** *** The device side

    Modelled from the spec: the GPU kernel behind [SplitOpGPULaunch<T>::Run]
    (split_lib_gpu is not part of the sources) "computes each output's data
    by indexing into the correct slice of input and writing through the
    corresponding output pointer"; it receives the input pointer,
    [num_split], the three collapsed sizes and the device pointer array.
    The sizes are declared [int32] (lines 172-173): the model describes the
    kernel on views whose element count prefix * split * suffix is an
    [int32], where no index can wrap.  Beyond that range the spec does not
    say what the kernel writes; the model then leaves the store as it is,
    and nothing below is stated about that case. *)
Definition SplitOpGPULaunch_Run (m : Memory) (input : Ptr)
    (num_split prefix_dim_size split_dim_size suffix_dim_size : Z)
    (output_ptrs_vec : gmap nat Ptr) : Memory :=
  let piece_size := split_dim_size / num_split in
  if negb (in_int32 prefix_dim_size && in_int32 split_dim_size
           && in_int32 suffix_dim_size
           && in_int32 (prefix_dim_size * split_dim_size * suffix_dim_size))
  then m
  else
  for_range 0 num_split
    (fun i m' =>
       match output_ptrs_vec !! Z.to_nat i with
       | Some output_ptr =>
           fun b k =>
             let r := k - output_ptr.2 in
             let a0 := r / (piece_size * suffix_dim_size) in
             let a1 := (r / suffix_dim_size) mod piece_size in
             let a2 := r mod suffix_dim_size in
             if bool_decide (b = output_ptr.1) && (0 <=? r)
                && (r <? prefix_dim_size * piece_size * suffix_dim_size)
             then m input.1
                    (input.2
                     + (a0 * split_dim_size + (i * piece_size + a1)) * suffix_dim_size
                     + a2)
             else m' b k
       | None => m'
       end)
    m.

(** Modelled from the spec: the stream is "an ordered queue of asynchronous
    device operations; operations enqueued on the same stream execute in
    issue order", and a callback registered through the event manager runs
    once the operations enqueued before it have completed.  [exec_op] runs
    one operation; it is [None] when a copy reads a released host buffer.
    A launch "runs to completion or the stream reports an error": when the
    stream reports one ([stream->ok()] is false after the launch, line 242)
    the kernel has not run and the store is as it was. *)
Definition exec_op (c : OpKernelContext) (op : StreamOp) : option OpKernelContext :=
  let d := device c in
  match op with
  | ThenMemcpy gpu_dst host_src size =>
      match refs d !! host_src with
      | Some (S _) =>
          let src := default ∅ (temps d !! host_src) in
          let copied := filter (fun kv => Z.of_nat kv.1 < size / sizeof_ptr) src in
          Some (with_device c
                  (mkDeviceState (<[gpu_dst := copied]> (temps d)) (refs d)
                     (next_temp d) (stream d) (stream_ok d)))
      | _ => None
      end
  | ThenExecute_Unref t => Some (Unref c t)
  | SplitOpGPULaunch input num_split prefix_dim_size split_dim_size
      suffix_dim_size output_ptrs_vec =>
      if stream_ok d then
        Some (mkContext (input0 c) (input1 c) (status c) (outputs c)
                (SplitOpGPULaunch_Run (memory c) input num_split prefix_dim_size
                   split_dim_size suffix_dim_size
                   (default ∅ (temps d !! output_ptrs_vec)))
                (allocated c) (split_calls c) (device c))
      else Some c
  end.

Fixpoint exec_ops (ops : list StreamOp) (c : OpKernelContext) : option OpKernelContext :=
  match ops with
  | [] => Some c
  | op :: ops' =>
      match exec_op c op with
      | Some c' => exec_ops ops' c'
      | None => None
      end
  end.

(** The state once the device has drained the stream. *)
Definition run_stream (c : OpKernelContext) : option OpKernelContext :=
  exec_ops (stream (device c)) c.

(** *** Checks that terminate the process

    [Tensor::shaped] and [TensorShape::set_dim] check their arguments and
    terminate the process when a check fails: an invocation of [Compute]
    either returns a context or does not return at all. *)
Inductive Outcome : Type :=
  | Returned (context : OpKernelContext)
  | Terminated.

(** The checks met by [SplitOpCPU::Compute], in the order of the source:
    the view of the input (lines 133-134), the output shape (line 138)
    and, when the first output has been allocated and the guard of line
    148 holds, the view of the result (lines 156-157).  The later
    iterations repeat this last check on the same extents and the same
    shape. *)
Definition SplitOpCPU_checks (num_outputs : Z) (context : OpKernelContext) : bool :=
  let '(context, done) := ComputeEasyCases num_outputs context in
  if negb (ok (status context)) || done then true
  else
    let split_dim := input0 context in
    let num_split := num_outputs in
    let input := input1 context in
    let input_shape := shape input in
    let '(prefix_dim_size, split_dim_size, suffix_dim_size) :=
      SetDims input_shape split_dim in
    let split_dim_output_size := to_int32 (Z.quot split_dim_size num_split) in
    let output_shape := set_dim input_shape split_dim split_dim_output_size in
    let sizes := (prefix_dim_size, split_dim_output_size, suffix_dim_size) in
    shaped_valid input (prefix_dim_size, split_dim_size, suffix_dim_size)
    && set_dim_valid input_shape split_dim split_dim_output_size
    && (if ok (allocate_status (allocated context) output_shape)
           && (0 <? to_int32 (to_int32 (prefix_dim_size * split_dim_output_size)
                              * suffix_dim_size))
        then shaped_valid {| shape := output_shape; buf := allocated context; off := 0 |}
               sizes
        else true).

(** [SplitOpGPU::Compute] builds no view: its only check is the one of the
    output shape (line 203). *)
Definition SplitOpGPU_checks (num_outputs : Z) (context : OpKernelContext) : bool :=
  let '(context, done) := ComputeEasyCases num_outputs context in
  if negb (ok (status context)) || done then true
  else
    let split_dim := input0 context in
    let num_split := num_outputs in
    let input_shape := shape (input1 context) in
    let '(_, split_dim_size, _) := SetDims input_shape split_dim in
    let split_dim_output_size := to_int32 (Z.quot split_dim_size num_split) in
    set_dim_valid input_shape split_dim split_dim_output_size.

(** An invocation of each executor: the context [Compute] returns, unless
    one of its checks fails. *)
Definition SplitOpCPU_run (num_outputs : Z) (context : OpKernelContext) : Outcome :=
  if SplitOpCPU_checks num_outputs context
  then Returned (SplitOpCPU_Compute num_outputs context)
  else Terminated.

Definition SplitOpGPU_run (num_outputs : Z) (context : OpKernelContext) : Outcome :=
  if SplitOpGPU_checks num_outputs context
  then Returned (SplitOpGPU_Compute num_outputs context)
  else Terminated.

(** ** Reading tensors by coordinates

    Row-major layout: the flat offset of a multi-index, and the element of
    a tensor at a multi-index. *)
Fixpoint flat_index (s : TensorShape) (idx : list Z) : Z :=
  match s, idx with
  | _ :: s', i :: idx' => i * num_elements s' + flat_index s' idx'
  | _, _ => 0
  end.

Definition valid_index (s : TensorShape) (idx : list Z) : Prop :=
  Forall2 (fun d i => 0 <= i < d) s idx.

Definition tensor_at (m : Memory) (t : Tensor) (idx : list Z) : T :=
  m (buf t) (off t + flat_index (shape t) idx).

(** The elements of a tensor in storage order. *)
Definition flat_data (m : Memory) (t : Tensor) : list T :=
  (fun k => m (buf t) (off t + k)) <$> seqZ 0 (num_elements (shape t)).

(** The multi-index [idx] moved by [k] along [axis]. *)
Definition shift_index (axis : nat) (k : Z) (idx : list Z) : list Z :=
  alter (Z.add k) axis idx.

(** The outputs [0 .. n-1] of a context, in order. *)
Definition output_list (c : OpKernelContext) (n : nat) : list Tensor :=
  omap (fun i => outputs c !! i) (seq 0 n).

(** Concatenation along [axis], as the round-trip property of the spec
    reads it: the shape of the pieces with their sizes along [axis] added
    up, and the element at [idx] found in the piece that covers the
    [axis]-coordinate of [idx]. *)
Definition concat_shape (axis : nat) (shapes : list TensorShape) : TensorShape :=
  match shapes with
  | [] => []
  | s :: _ => <[axis := foldr Z.add 0 ((fun s' => nth axis s' 0) <$> shapes)]> s
  end.

Fixpoint concat_at (m : Memory) (axis : nat) (pieces : list Tensor) (idx : list Z)
  : option T :=
  match pieces with
  | [] => None
  | t :: pieces' =>
      let n := nth axis (shape t) 0 in
      let j := nth axis idx 0 in
      if j <? n then Some (tensor_at m t idx)
      else concat_at m axis pieces' (<[axis := j - n]> idx)
  end.

End SplitOp.

(** ** Concrete instances used to run the kernel *)

Definition never_aligned (_ : TensorShape) : bool := false.
Definition always_aligned (_ : TensorShape) : bool := true.
Definition allocate_always (_ : nat) (_ : TensorShape) : Status := OK.
Definition allocate_temp_always (_ : nat) (_ : Z) : Status := OK.



Definition idle_device : DeviceState := mkDeviceState ∅ ∅ 0 [] true.

(** Buffer 0 holds the input, element [k] being [100 + k]; every other
    buffer holds [-1]. *)
Definition iota_memory : nat -> Z -> Z :=
  fun b k => if (b =? 0)%nat then 100 + k else -1.

(** A fresh invocation on an input of the given shape stored in buffer 0. *)
Definition fresh_context (input_shape : TensorShape) (split_dim : Z)
  : @OpKernelContext Z :=
  mkContext split_dim (mkTensor input_shape 0%nat 0) OK ∅ iota_memory 1%nat []
    idle_device.

(** * Properties *)

(** ** Fixed-width arithmetic *)

Lemma to_int32_id z : fits_int32 z -> to_int32 z = z.
Proof.
  unfold fits_int32, to_int32. intros Hz.
  rewrite Z.mod_small; lia.
Qed.

Lemma in_int32_fits z : fits_int32 z -> in_int32 z = true.
Proof. unfold fits_int32, in_int32. intros H. apply andb_true_iff. lia. Qed.

Lemma to_int64_id z : fits_int64 z -> to_int64 z = z.
Proof.
  unfold fits_int64, to_int64. intros Hz.
  rewrite Z.mod_small; lia.
Qed.

Lemma to_int32_fits z : fits_int32 (to_int32 z).
Proof.
  unfold fits_int32, to_int32.
  pose proof (Z.mod_pos_bound (z + 2 ^ 31) (2 ^ 32)). lia.
Qed.

(** [to_int32] only looks at the residue modulo 2^32. *)
Lemma to_int32_shift z q : to_int32 (z + q * 2 ^ 32) = to_int32 z.
Proof.
  unfold to_int32.
  replace (z + q * 2 ^ 32 + 2 ^ 31) with (z + 2 ^ 31 + q * 2 ^ 32) by lia.
  now rewrite Z_mod_plus_full.
Qed.

Lemma to_int32_residue z : to_int32 z mod 2 ^ 32 = z mod 2 ^ 32.
Proof.
  unfold to_int32.
  rewrite (Z.mod_eq (z + 2 ^ 31) (2 ^ 32)) by lia.
  replace (z + 2 ^ 31 - 2 ^ 32 * ((z + 2 ^ 31) / 2 ^ 32) - 2 ^ 31)
    with (z + (- ((z + 2 ^ 31) / 2 ^ 32)) * 2 ^ 32) by lia.
  now rewrite Z_mod_plus_full.
Qed.

Lemma to_int32_to_int64 z : to_int32 (to_int64 z) = to_int32 z.
Proof.
  unfold to_int64.
  rewrite (Z.mod_eq (z + 2 ^ 63) (2 ^ 64)) by lia.
  replace (z + 2 ^ 63 - 2 ^ 64 * ((z + 2 ^ 63) / 2 ^ 64) - 2 ^ 63)
    with (z + (- ((z + 2 ^ 63) / 2 ^ 64) * 2 ^ 32) * 2 ^ 32) by lia.
  apply to_int32_shift.
Qed.

Lemma to_int32_mul_l a b : to_int32 (to_int32 a * b) = to_int32 (a * b).
Proof.
  unfold to_int32 at 2.
  rewrite (Z.mod_eq (a + 2 ^ 31) (2 ^ 32)) by lia.
  replace ((a + 2 ^ 31 - 2 ^ 32 * ((a + 2 ^ 31) / 2 ^ 32) - 2 ^ 31) * b)
    with (a * b + (- ((a + 2 ^ 31) / 2 ^ 32) * b) * 2 ^ 32) by lia.
  apply to_int32_shift.
Qed.

(** ** Shapes *)

Lemma num_elements_app s1 s2 :
  num_elements (s1 ++ s2) = num_elements s1 * num_elements s2.
Proof.
  induction s1 as [|d s1 IH]; simpl.
  - destruct (num_elements s2); reflexivity.
  - rewrite IH. lia.
Qed.

Lemma num_elements_nonneg s : shape_wf s -> 0 <= num_elements s.
Proof.
  induction 1 as [|d s Hd _ IH]; simpl; [lia|].
  apply Z.mul_nonneg_nonneg; lia.
Qed.

Lemma dim_size_lookup s d x :
  0 <= d -> s !! Z.to_nat d = Some x -> dim_size s d = x.
Proof.
  intros _ Hx. unfold dim_size. now apply nth_lookup_Some with (d := 0) in Hx.
Qed.

Lemma drop_nth_cons (s : list Z) k :
  (k < length s)%nat -> drop k s = nth k s 0 :: drop (S k) s.
Proof.
  revert k. induction s as [|d s IH]; intros [|k] Hk; simpl in *; try lia.
  - reflexivity.
  - apply IH. lia.
Qed.

(** ** SetDims *)

(** The accumulation loop of [SetDims], started at index [k] with [n]
    dimensions to fold in. *)
Lemma SetDims_loop s n k acc :
  (k + n <= length s)%nat ->
  for_loop n (Z.of_nat k)
    (fun i p => to_int32 (to_int64 (p * dim_size s i))) (to_int32 acc)
  = to_int32 (acc * num_elements (take n (drop k s))).
Proof.
  revert k acc. induction n as [|n IH]; intros k acc Hk; simpl.
  - f_equal. lia.
  - rewrite to_int32_to_int64, to_int32_mul_l.
    replace (Z.of_nat k + 1) with (Z.of_nat (S k)) by lia.
    rewrite IH by lia.
    rewrite (drop_nth_cons s k) by lia. simpl.
    unfold dim_size. rewrite Nat2Z.id. f_equal. lia.
Qed.

Lemma SetDims_wrapped s d :
  0 <= d < dims s ->
  SetDims s d =
    (to_int32 (prefix_product s d), to_int32 (dim_size s d),
     to_int32 (suffix_product s d)).
Proof.
  unfold dims. intros Hd.
  unfold SetDims, for_range, prefix_product, suffix_product, dims.
  pose proof (SetDims_loop s (Z.to_nat (d - 0)) 0 1) as Hpre.
  pose proof (SetDims_loop s (Z.to_nat (Z.of_nat (length s) - (d + 1)))
                (S (Z.to_nat d)) 1) as Hsuf.
  replace (Z.of_nat (S (Z.to_nat d))) with (d + 1) in Hsuf by lia.
  change (Z.of_nat 0) with 0 in Hpre. change (to_int32 1) with 1 in Hpre, Hsuf.
  rewrite Hpre, Hsuf by lia.
  rewrite drop_0, Z.sub_0_r, !Z.mul_1_l.
  rewrite (take_ge (drop _ _)) by (rewrite length_drop; lia).
  reflexivity.
Qed.

Lemma dim_size_bounds s d : shape_wf s -> 0 <= dim_size s d < 2 ^ 63.
Proof.
  intros Hs. unfold dim_size. rewrite nth_lookup.
  destruct (s !! Z.to_nat d) as [x|] eqn:Hx; cbn [default from_option]; [|lia].
  exact (Forall_lookup_1 _ _ _ _ Hs Hx).
Qed.

Lemma slice_delta_exact s num_split :
  shape_wf s -> 0 < num_split ->
  slice_delta s num_split = dim_size s 0 / num_split.
Proof.
  intros Hs Hn. unfold slice_delta.
  pose proof (dim_size_bounds s 0 Hs) as Hd.
  rewrite Z.quot_div_nonneg by lia.
  apply to_int64_id. unfold fits_int64.
  pose proof (Z.div_pos (dim_size s 0) num_split).
  pose proof (Z.div_le_upper_bound (dim_size s 0) num_split (dim_size s 0)).
  nia.
Qed.

(** C6, as amended: for every shape and every split_dim in [0, rank) whose
    prefix product, split-axis size and suffix product each fit in a signed
    32-bit integer, the dimension-collapsing function returns the triple
    (product of the sizes strictly before split_dim, size at split_dim,
    product of the sizes strictly after split_dim); the prefix is 1 when
    split_dim is the leading axis and the suffix is 1 when it is the last
    one.  [SetDims] is a total function: it has no failure branch. *)
Theorem SetDims_products s d :
  0 <= d < dims s ->
  fits_int32 (prefix_product s d) ->
  fits_int32 (dim_size s d) ->
  fits_int32 (suffix_product s d) ->
  SetDims s d = (prefix_product s d, dim_size s d, suffix_product s d)
  /\ (d = 0 -> (SetDims s d).1.1 = 1)
  /\ (d = dims s - 1 -> (SetDims s d).2 = 1).
Proof.
  intros Hd Hp Hs Hx.
  rewrite SetDims_wrapped by assumption.
  rewrite !to_int32_id by assumption.
  split; [reflexivity|]. simpl. split.
  - intros ->. reflexivity.
  - intros ->. unfold suffix_product, dims.
    rewrite drop_ge by lia. reflexivity.
Qed.

Lemma SetDims_products_witness :
  SetDims [2; 3; 4; 5] 2 = (6, 4, 5)
  /\ (2 = 0 -> (SetDims [2; 3; 4; 5] 2).1.1 = 1)
  /\ (2 = dims [2; 3; 4; 5] - 1 -> (SetDims [2; 3; 4; 5] 2).2 = 1).
Proof.
  apply (SetDims_products [2; 3; 4; 5] 2); vm_compute; intuition congruence.
Defined.

(** C6 as stated fails: on the shape (65536, 65536, 2) split along its last
    axis, the product of the leading sizes is 2^32 and the returned prefix
    size is 0. *)
Lemma SetDims_prefix_overflow :
  shape_wf [65536; 65536; 2]
  /\ 0 <= 2 < dims [65536; 65536; 2]
  /\ prefix_product [65536; 65536; 2] 2 = 2 ^ 32
  /\ SetDims [65536; 65536; 2] 2 = (0, 2, 1)
  /\ SetDims [65536; 65536; 2] 2 <>
       (prefix_product [65536; 65536; 2] 2, dim_size [65536; 65536; 2] 2,
        suffix_product [65536; 65536; 2] 2).
Proof.
  split; [|split; [|split; [|split]]].
  - repeat constructor; lia.
  - vm_compute. intuition congruence.
  - reflexivity.
  - reflexivity.
  - vm_compute. congruence.
Qed.

(** C10: the collapsed sizes are accumulated in 32-bit signed arithmetic:
    for every shape and split_dim in [0, rank) the returned triple is the
    prefix product, the split-axis size and the suffix product, each reduced
    modulo 2^32 into the int32 range, so a prefix or suffix product that
    does not fit in int32 is not returned as the mathematical product;
    whereas the row offset [delta] of the dim-0 fast path is the exact
    64-bit quotient dim_size(0) / num_split. *)
Theorem SetDims_int32_wraparound s d num_split :
  shape_wf s -> 0 <= d < dims s -> 0 < num_split ->
  SetDims s d =
    (to_int32 (prefix_product s d), to_int32 (dim_size s d),
     to_int32 (suffix_product s d))
  /\ (SetDims s d).1.1 mod 2 ^ 32 = prefix_product s d mod 2 ^ 32
  /\ (SetDims s d).2 mod 2 ^ 32 = suffix_product s d mod 2 ^ 32
  /\ (~ fits_int32 (prefix_product s d) -> (SetDims s d).1.1 <> prefix_product s d)
  /\ (~ fits_int32 (suffix_product s d) -> (SetDims s d).2 <> suffix_product s d)
  /\ slice_delta s num_split = dim_size s 0 / num_split.
Proof.
  intros Hs Hd Hn.
  rewrite SetDims_wrapped by assumption. simpl.
  repeat split.
  - apply to_int32_residue.
  - apply to_int32_residue.
  - intros Hfit Heq. apply Hfit. rewrite <- Heq. apply to_int32_fits.
  - intros Hfit Heq. apply Hfit. rewrite <- Heq. apply to_int32_fits.
  - now apply slice_delta_exact.
Qed.

Lemma SetDims_int32_wraparound_witness :
  SetDims [8589934592; 65536; 65536; 2] 3 = (0, 2, 1)
  /\ slice_delta [8589934592; 65536; 65536; 2] 2 = 4294967296.
Proof.
  destruct (SetDims_int32_wraparound [8589934592; 65536; 65536; 2] 3 2)
    as (Hw & _ & _ & _ & _ & Hdelta).
  - repeat constructor; lia.
  - vm_compute. intuition congruence.
  - lia.
  - split; [exact Hw | exact Hdelta].
Defined.

(** ** Row-major indexing *)

Lemma num_elements_split (s : list Z) d :
  (d < length s)%nat ->
  num_elements s
  = num_elements (take d s) * nth d s 0 * num_elements (drop (S d) s).
Proof.
  intros Hd. rewrite <- (take_drop d s) at 1.
  rewrite num_elements_app, (drop_nth_cons s d) by assumption.
  unfold num_elements. cbn. ring.
Qed.

(** The flat offset of a multi-index, seen through the three-axis collapse
    around axis [d]. *)
Lemma flat_index_collapse (s : list Z) : forall idx d,
  length idx = length s -> (d < length s)%nat ->
  flat_index s idx
  = (flat_index (take d s) (take d idx) * nth d s 0 + nth d idx 0)
    * num_elements (drop (S d) s)
    + flat_index (drop (S d) s) (drop (S d) idx).
Proof.
  induction s as [|d0 s IH]; intros idx d Hlen Hd; [cbn in Hd; lia|].
  destruct idx as [|i0 idx]; [discriminate|].
  destruct d as [|d].
  - cbn. rewrite !drop_0. unfold num_elements. ring.
  - cbn in Hlen, Hd. cbn [flat_index take drop nth].
    rewrite (IH idx d) by lia.
    rewrite (num_elements_split s d) at 1 by lia.
    ring.
Qed.

Lemma flat_index_bounds (s idx : list Z) :
  valid_index s idx -> 0 <= flat_index s idx < num_elements s.
Proof.
  induction 1 as [|d i s idx Hi _ IH]; cbn; [lia|].
  unfold num_elements in *. nia.
Qed.

Lemma valid_index_nth (s idx : list Z) d :
  valid_index s idx -> (d < length s)%nat -> 0 <= nth d idx 0 < nth d s 0.
Proof.
  intros Hv. revert d. induction Hv as [|x i s idx Hi _ IH]; intros d Hd.
  - cbn in Hd. lia.
  - destruct d as [|d]; cbn; [exact Hi|]. apply IH. cbn in Hd. lia.
Qed.

Lemma lookup_nth (l : list Z) i : (i < length l)%nat -> l !! i = Some (nth i l 0).
Proof.
  intros Hi. destruct (lookup_lt_is_Some_2 l i Hi) as [x Hx].
  rewrite Hx. f_equal. symmetry. now apply nth_lookup_Some.
Qed.

Lemma nth_insert_eq (s : list Z) d v :
  (d < length s)%nat -> nth d (<[d := v]> s) 0 = v.
Proof.
  intros Hd. rewrite nth_lookup, list_lookup_insert_eq by assumption. reflexivity.
Qed.

Lemma nth_alter_eq (f : Z -> Z) (l : list Z) d :
  (d < length l)%nat -> nth d (alter f d l) 0 = f (nth d l 0).
Proof.
  revert d. induction l as [|x l IH]; intros [|d] Hd; cbn in *;
    first [lia | reflexivity | apply IH; lia].
Qed.

Lemma take_alter_same (f : Z -> Z) (l : list Z) d : take d (alter f d l) = take d l.
Proof.
  revert d. induction l as [|x l IH]; intros [|d]; cbn; try reflexivity.
  now rewrite IH.
Qed.

Lemma drop_alter_after (f : Z -> Z) (l : list Z) d :
  drop (S d) (alter f d l) = drop (S d) l.
Proof.
  revert d. induction l as [|x l IH]; intros [|d]; cbn; try reflexivity.
  apply IH.
Qed.

Lemma take_insert_same (l : list Z) d v : take d (<[d := v]> l) = take d l.
Proof.
  revert d. induction l as [|x l IH]; intros [|d]; cbn; try reflexivity.
  now rewrite IH.
Qed.

Lemma drop_insert_after (l : list Z) d v : drop (S d) (<[d := v]> l) = drop (S d) l.
Proof.
  revert d. induction l as [|x l IH]; intros [|d]; cbn; try reflexivity.
  apply IH.
Qed.

(** Decoding a flat offset of a three-axis view. *)
Lemma decode3 a0 a1 a2 o1 o2 :
  0 <= a0 -> 0 <= a1 < o1 -> 0 <= a2 < o2 ->
  let r := (a0 * o1 + a1) * o2 + a2 in
  0 <= r /\ r / (o1 * o2) = a0 /\ (r / o2) mod o1 = a1 /\ r mod o2 = a2.
Proof.
  intros H0 H1 H2 r.
  assert (Hq : r / o2 = a0 * o1 + a1).
  { symmetry. apply (Z.div_unique r o2 _ a2); [lia|subst r; ring]. }
  assert (Hm : r mod o2 = a2).
  { symmetry. apply (Z.mod_unique r o2 (a0 * o1 + a1) a2); [lia|subst r; ring]. }
  repeat split.
  - clear Hq Hm. subst r.
    apply Z.add_nonneg_nonneg; [apply Z.mul_nonneg_nonneg|]; nia.
  - rewrite (Z.mul_comm o1 o2), <- Z.div_div by lia.
    rewrite Hq. symmetry. apply (Z.div_unique _ o1 _ a1); [lia|ring].
  - rewrite Hq. symmetry. apply (Z.mod_unique _ o1 a0 a1); [lia|ring].
  - exact Hm.
Qed.

(** A valid multi-index of the shape with axis [d] resized to [per], seen
    through the collapse around [d], and the same index moved by [k] along
    [d] in the original shape. *)
Lemma collapse_output_index (s idx : list Z) d per :
  (d < length s)%nat ->
  valid_index (<[d := per]> s) idx ->
  let A := flat_index (take d s) (take d idx) in
  let b := nth d idx 0 in
  let C := flat_index (drop (S d) s) (drop (S d) idx) in
  flat_index (<[d := per]> s) idx = (A * per + b) * num_elements (drop (S d) s) + C
  /\ 0 <= A < num_elements (take d s)
  /\ 0 <= b < per
  /\ 0 <= C < num_elements (drop (S d) s)
  /\ forall k,
       flat_index s (shift_index d k idx)
       = (A * nth d s 0 + (k + b)) * num_elements (drop (S d) s) + C.
Proof.
  intros Hd Hv A b C.
  assert (Hlen : length idx = length s).
  { apply Forall2_length in Hv. rewrite length_insert in Hv. lia. }
  split; [|split; [|split; [|split]]].
  - rewrite (flat_index_collapse _ idx d)
      by (rewrite ?length_insert; first [assumption | lia]).
    now rewrite take_insert_same, drop_insert_after, nth_insert_eq.
  - pose proof (flat_index_bounds _ _ (Forall2_take _ _ _ d Hv)) as H.
    now rewrite take_insert_same in H.
  - pose proof (valid_index_nth _ _ d Hv) as H.
    rewrite length_insert, nth_insert_eq in H by assumption. now apply H.
  - pose proof (flat_index_bounds _ _ (Forall2_drop _ _ _ (S d) Hv)) as H.
    now rewrite drop_insert_after in H.
  - intros k. unfold shift_index.
    rewrite (flat_index_collapse s _ d) by (rewrite ?length_alter; assumption).
    rewrite take_alter_same, drop_alter_after, nth_alter_eq by lia.
    reflexivity.
Qed.

Lemma num_elements_resized (s : list Z) d v :
  (d < length s)%nat ->
  num_elements (<[d := v]> s)
  = num_elements (take d s) * v * num_elements (drop (S d) s).
Proof.
  intros Hd. rewrite (num_elements_split (<[d := v]> s) d)
    by (now rewrite length_insert).
  now rewrite take_insert_same, drop_insert_after, nth_insert_eq.
Qed.

(** ** The kernel *)

Section Kernel.

Context {T : Type}.
Variable IsInnerDimsSizeAligned : TensorShape -> bool.
Variable allocate_status : nat -> TensorShape -> Status.
Variable allocate_temp_status : nat -> Z -> Status.

Local Abbreviation Ctx := (@OpKernelContext T).
Local Abbreviation EasyCases := (@ComputeEasyCases T IsInnerDimsSizeAligned).
Local Abbreviation CPU := (@SplitOpCPU_Compute T IsInnerDimsSizeAligned allocate_status).
Local Abbreviation GPU :=
  (@SplitOpGPU_Compute T IsInnerDimsSizeAligned allocate_status allocate_temp_status).

(** *** Validation *)

Lemma CtxFailure_fresh (c : Ctx) s : status c = OK -> CtxFailure c s = with_status c s.
Proof. unfold CtxFailure. now intros ->. Qed.

Lemma with_status_same (c : Ctx) s : status c = s -> with_status c s = c.
Proof. destruct c. cbn. now intros ->. Qed.

Lemma EasyCases_invalid num_outputs (c : Ctx) :
  status c = OK ->
  ~ (0 <= input0 c < dims (shape (input1 c)))
  \/ num_outputs <= 0
  \/ Z.rem (dim_size (shape (input1 c)) (input0 c)) num_outputs <> 0 ->
  EasyCases num_outputs c = (with_status c InvalidArgument, false).
Proof.
  intros Hok Hbad. unfold ComputeEasyCases.
  destruct ((0 <=? input0 c) && (input0 c <? dims (shape (input1 c)))) eqn:Hdim;
    cbn [negb]; [|now rewrite CtxFailure_fresh].
  destruct (0 <? num_outputs) eqn:Hnum; cbn [negb]; [|now rewrite CtxFailure_fresh].
  destruct (Z.rem (dim_size (shape (input1 c)) (input0 c)) num_outputs =? 0) eqn:Hrem;
    cbn [negb]; [|now rewrite CtxFailure_fresh].
  exfalso. apply andb_true_iff in Hdim as [H1 H2].
  destruct Hbad as [Hbad|[Hbad|Hbad]]; lia.
Qed.

(** C3: if split_dim is outside [0, rank), or num_split <= 0, or the
    split-axis size is not a multiple of num_split, a fresh invocation fails
    with InvalidArgument; the checks come first in [ComputeEasyCases], and
    both executors return right after them: the context differs from the
    initial one by its status only, so no output is set and no buffer is
    allocated. *)
Theorem invalid_arguments_rejected num_outputs (c : Ctx) :
  status c = OK ->
  ~ (0 <= input0 c < dims (shape (input1 c)))
  \/ num_outputs <= 0
  \/ Z.rem (dim_size (shape (input1 c)) (input0 c)) num_outputs <> 0 ->
  EasyCases num_outputs c = (with_status c InvalidArgument, false)
  /\ CPU num_outputs c = with_status c InvalidArgument
  /\ GPU num_outputs c = with_status c InvalidArgument
  /\ forall c', c' = CPU num_outputs c \/ c' = GPU num_outputs c ->
       status c' = InvalidArgument
       /\ outputs c' = outputs c
       /\ allocated c' = allocated c
       /\ memory c' = memory c
       /\ split_calls c' = split_calls c
       /\ device c' = device c.
Proof.
  intros Hok Hbad.
  pose proof (EasyCases_invalid num_outputs c Hok Hbad) as Heasy.
  assert (Hcpu : CPU num_outputs c = with_status c InvalidArgument).
  { unfold SplitOpCPU_Compute. rewrite Heasy. reflexivity. }
  assert (Hgpu : GPU num_outputs c = with_status c InvalidArgument).
  { unfold SplitOpGPU_Compute. rewrite Heasy. reflexivity. }
  repeat split; try assumption;
    destruct H as [-> | ->]; rewrite ?Hcpu, ?Hgpu; reflexivity.
Qed.

Lemma EasyCases_valid num_outputs (c : Ctx) :
  0 <= input0 c < dims (shape (input1 c)) ->
  0 < num_outputs ->
  Z.rem (dim_size (shape (input1 c)) (input0 c)) num_outputs = 0 ->
  EasyCases num_outputs c =
    if num_outputs =? 1 then (set_output c 0 (input1 c), true)
    else if (input0 c =? 0) && IsInnerDimsSizeAligned (shape (input1 c)) then
      (for_range 0 num_outputs
         (fun i c' =>
            set_output c' i
              (Slice (input1 c)
                 (to_int64 (i * slice_delta (shape (input1 c)) num_outputs))
                 (to_int64 ((i + 1) * slice_delta (shape (input1 c)) num_outputs))))
         c,
       true)
    else (c, false).
Proof.
  intros Hd Hn Hrem. unfold ComputeEasyCases.
  replace ((0 <=? input0 c) && (input0 c <? dims (shape (input1 c)))) with true
    by (symmetry; apply andb_true_iff; split; lia).
  replace (0 <? num_outputs) with true by (symmetry; lia).
  rewrite Hrem. reflexivity.
Qed.

Lemma Compute_identity (c : Ctx) :
  status c = OK ->
  0 <= input0 c < dims (shape (input1 c)) ->
  EasyCases 1 c = (set_output c 0 (input1 c), true)
  /\ CPU 1 c = set_output c 0 (input1 c)
  /\ GPU 1 c = set_output c 0 (input1 c).
Proof.
  intros Hok Hd.
  assert (Heasy : EasyCases 1 c = (set_output c 0 (input1 c), true)).
  { rewrite EasyCases_valid; [reflexivity|assumption|lia|apply Z.rem_1_r]. }
  split; [exact Heasy|].
  unfold SplitOpCPU_Compute, SplitOpGPU_Compute. rewrite Heasy. cbn.
  now rewrite Hok.
Qed.

(** C4: on a fresh invocation that passes validation with num_split = 1,
    both executors do exactly [set_output(0, input)] and return: the single
    output is the input handle itself (same buffer, same offset, same
    shape), no buffer is allocated, the store is untouched, the copy
    primitive is not called and nothing is enqueued. *)
Theorem identity_case (c : Ctx) :
  status c = OK ->
  0 <= input0 c < dims (shape (input1 c)) ->
  EasyCases 1 c = (set_output c 0 (input1 c), true)
  /\ CPU 1 c = set_output c 0 (input1 c)
  /\ GPU 1 c = set_output c 0 (input1 c)
  /\ forall c', c' = CPU 1 c \/ c' = GPU 1 c ->
       status c' = OK
       /\ outputs c' !! 0%nat = Some (input1 c)
       /\ (outputs c = ∅ -> outputs c' = {[ 0%nat := input1 c ]})
       /\ allocated c' = allocated c
       /\ memory c' = memory c
       /\ split_calls c' = split_calls c
       /\ device c' = device c.
Proof.
  intros Hok Hd.
  destruct (Compute_identity c Hok Hd) as (Heasy & Hcpu & Hgpu).
  split; [assumption|]. split; [assumption|]. split; [assumption|].
  intros c' Hc'.
  assert (c' = set_output c 0 (input1 c)) as -> by (destruct Hc' as [-> | ->]; assumption).
  cbn. repeat split; try assumption.
  - apply lookup_insert_eq.
  - intros ->. reflexivity.
Qed.

(** *** The dim-0 fast path *)

Lemma set_output_loop n : forall i (c : Ctx) (f : Z -> Tensor),
  0 <= i ->
  let c' := for_loop n i (fun j c0 => set_output c0 j (f j)) c in
  input0 c' = input0 c /\ input1 c' = input1 c /\ status c' = status c
  /\ memory c' = memory c /\ allocated c' = allocated c
  /\ split_calls c' = split_calls c /\ device c' = device c
  /\ (forall j, i <= j < i + Z.of_nat n -> outputs c' !! Z.to_nat j = Some (f j))
  /\ (forall k, (k < Z.to_nat i \/ Z.to_nat i + n <= k)%nat ->
        outputs c' !! k = outputs c !! k).
Proof.
  induction n as [|n IH]; intros i c f Hi; cbn [for_loop].
  - repeat split; try reflexivity. intros j Hj. lia.
  - specialize (IH (i + 1) (set_output c i (f i)) f ltac:(lia)).
    cbn zeta in IH.
    destruct IH as (H0 & H1 & H2 & H3 & H4 & H5 & H6 & Hin & Hout).
    repeat split; try assumption.
    + intros j Hj. destruct (decide (j = i)) as [->|Hne].
      * rewrite Hout by lia. cbn. apply lookup_insert_eq.
      * apply Hin. lia.
    + intros k Hk. rewrite Hout by lia. cbn.
      apply lookup_insert_ne. lia.
Qed.

Lemma tensor_at_Slice (m : @Memory T) (t : Tensor) start limit idx :
  (0 < length (shape t))%nat ->
  length idx = length (shape t) ->
  tensor_at m (Slice t start limit) idx = tensor_at m t (shift_index 0 start idx).
Proof.
  intros Hrank Hlen. unfold tensor_at, Slice, set_dim, shift_index.
  cbn [shape buf off]. change (Z.to_nat 0) with 0%nat.
  destruct (shape t) as [|d0 s]; [cbn in Hrank; lia|].
  destruct idx as [|i0 idx]; [discriminate|].
  cbn. f_equal. unfold num_elements. ring.
Qed.

Lemma dim0_slice_summary num_outputs (c : Ctx) :
  status c = OK ->
  shape_wf (shape (input1 c)) ->
  input0 c = 0 ->
  0 < dims (shape (input1 c)) ->
  1 < num_outputs ->
  Z.rem (dim_size (shape (input1 c)) 0) num_outputs = 0 ->
  IsInnerDimsSizeAligned (shape (input1 c)) = true ->
  let delta := dim_size (shape (input1 c)) 0 / num_outputs in
  let c' := CPU num_outputs c in
  GPU num_outputs c = c'
  /\ status c' = OK
  /\ memory c' = memory c
  /\ allocated c' = allocated c
  /\ split_calls c' = split_calls c
  /\ device c' = device c
  /\ forall i, 0 <= i < num_outputs ->
       exists t,
         outputs c' !! Z.to_nat i = Some t
         /\ t = Slice (input1 c) (i * delta) ((i + 1) * delta)
         /\ buf t = buf (input1 c)
         /\ off t = off (input1 c)
                    + i * delta * num_elements (tail (shape (input1 c)))
         /\ shape t = set_dim (shape (input1 c)) 0 delta
         /\ forall idx, valid_index (shape t) idx ->
              tensor_at (memory c') t idx
              = tensor_at (memory c) (input1 c) (shift_index 0 (i * delta) idx).
Proof.
  intros Hok Hwf Hd0 Hrank Hnum Hrem Haligned delta c'.
  assert (Hdelta : slice_delta (shape (input1 c)) num_outputs = delta).
  { apply slice_delta_exact; [assumption|lia]. }
  pose proof (dim_size_bounds _ 0 Hwf) as Hdim0.
  assert (Hmul : dim_size (shape (input1 c)) 0 = num_outputs * delta).
  { rewrite Z.rem_mod_nonneg in Hrem by lia.
    subst delta. apply Z.div_exact; lia. }
  assert (Hdelta0 : 0 <= delta) by (subst delta; apply Z.div_pos; lia).
  set (f := fun i : Z =>
              Slice (input1 c)
                (to_int64 (i * slice_delta (shape (input1 c)) num_outputs))
                (to_int64 ((i + 1) * slice_delta (shape (input1 c)) num_outputs))).
  assert (Heasy : EasyCases num_outputs c =
                  (for_range 0 num_outputs (fun i c0 => set_output c0 i (f i)) c, true)).
  { rewrite EasyCases_valid by (rewrite ?Hd0; first [assumption|lia]).
    replace (num_outputs =? 1) with false by (symmetry; lia).
    rewrite Hd0, Haligned. reflexivity. }
  pose proof (set_output_loop (Z.to_nat (num_outputs - 0)) 0 c f ltac:(lia)) as Hloop.
  cbn zeta in Hloop. fold (for_range 0 num_outputs (fun i c0 => set_output c0 i (f i)) c) in Hloop.
  destruct Hloop as (H0 & H1 & H2 & H3 & H4 & H5 & H6 & Hin & _).
  assert (Hcpu : c' = for_range 0 num_outputs (fun i c0 => set_output c0 i (f i)) c).
  { subst c'. unfold SplitOpCPU_Compute. rewrite Heasy. cbn [fst snd].
    now rewrite orb_true_r. }
  assert (Hgpu : GPU num_outputs c = c').
  { rewrite Hcpu. unfold SplitOpGPU_Compute. rewrite Heasy.
    now rewrite orb_true_r. }
  rewrite Hcpu.
  split; [now rewrite <- Hcpu|]. split; [congruence|].
  do 4 (split; [assumption|]).
  intros i Hi. exists (f i).
  assert (Hfi : f i = Slice (input1 c) (i * delta) ((i + 1) * delta)).
  { unfold f. rewrite Hdelta.
    rewrite !to_int64_id by (unfold fits_int64; nia). reflexivity. }
  split; [apply Hin; lia|]. split; [exact Hfi|].
  rewrite Hfi. cbn. split; [reflexivity|]. split; [lia|].
  split; [f_equal; lia|].
  intros idx Hidx. rewrite H3.
  replace ((i + 1) * delta - i * delta) with delta in Hidx by lia.
  change (tensor_at (memory c) (Slice (input1 c) (i * delta) ((i + 1) * delta)) idx
          = tensor_at (memory c) (input1 c) (shift_index 0 (i * delta) idx)).
  apply tensor_at_Slice.
  - unfold dims in Hrank. lia.
  - apply Forall2_length in Hidx. unfold set_dim in Hidx.
    rewrite length_insert in Hidx. congruence.
Qed.

(** *** The strided-copy primitive *)

Lemma functor_Split_other (m : @Memory T) out inp ix sz b k :
  b <> v_buf out -> functor_Split m out inp ix sz b k = m b k.
Proof.
  intros Hb. unfold functor_Split.
  destruct (v_dims out) as [[? o1] o2], (v_dims inp) as [[? d1] d2],
    ix as [[i0 i1] i2], sz as [[s0 s1] s2].
  rewrite (bool_decide_eq_false_2 _ Hb). reflexivity.
Qed.

Lemma functor_Split_read (m : @Memory T) out inp i0 i1 i2 s0 s1 s2 d0 d1 d2 a0 a1 a2 :
  v_dims out = (s0, s1, s2) -> v_dims inp = (d0, d1, d2) ->
  0 <= a0 < s0 -> 0 <= a1 < s1 -> 0 <= a2 < s2 ->
  functor_Split m out inp (i0, i1, i2) (s0, s1, s2)
    (v_buf out) (v_off out + ((a0 * s1 + a1) * s2 + a2))
  = m (v_buf inp) (v_off inp + ((a0 + i0) * d1 + (a1 + i1)) * d2 + (a2 + i2)).
Proof.
  intros Ho Hi H0 H1 H2. unfold functor_Split. rewrite Ho, Hi.
  destruct (decode3 a0 a1 a2 s1 s2 ltac:(lia) H1 H2) as (Hr & Hd0 & Hd1 & Hd2).
  replace (v_off out + ((a0 * s1 + a1) * s2 + a2) - v_off out)
    with ((a0 * s1 + a1) * s2 + a2) by lia.
  rewrite Hd0, Hd1, Hd2.
  rewrite bool_decide_eq_true_2 by reflexivity.
  replace (0 <=? (a0 * s1 + a1) * s2 + a2) with true by (symmetry; lia).
  replace (0 <? s1) with true by (symmetry; lia).
  replace (0 <? s2) with true by (symmetry; lia).
  replace (a0 <? s0) with true by (symmetry; lia).
  replace (a1 <? s1) with true by (symmetry; lia).
  replace (a2 <? s2) with true by (symmetry; lia).
  reflexivity.
Qed.

(** *** The CPU loop, when the allocator serves every request *)

Section CPULoop.

Hypothesis allocate_succeeds : forall n s, allocate_status n s = OK.

Variable view : View3.
Variable oshape : TensorShape.
Variables p per s : Z.
Variables d0 d1 d2 : Z.
Hypothesis view_dims : v_dims view = (d0, d1, d2).
Hypothesis per_nonneg : 0 <= per.

Let guard : Z := to_int32 (to_int32 (p * per) * s).

Let result_of (c : Ctx) : Tensor := mkTensor oshape (allocated c) 0.

Let allocated_step (i : Z) (c : Ctx) : Ctx :=
  mkContext (input0 c) (input1 c) (status c)
    (<[Z.to_nat i := result_of c]> (outputs c))
    (memory c) (S (allocated c)) (split_calls c) (device c).

Let iteration_step (i ix1 : Z) (c : Ctx) : Ctx :=
  if 0 <? guard
  then call_Split (allocated_step i c) (shaped (result_of c) (p, per, s)) view
         (0, ix1, 0) (p, per, s)
  else allocated_step i c.

Lemma CPU_loop_step n i ix1 (c : Ctx) :
  fits_int64 (ix1 + per) ->
  SplitOpCPU_loop allocate_status (S n) i (0, ix1, 0) view oshape p per s c
  = SplitOpCPU_loop allocate_status n (i + 1) (0, ix1 + per, 0) view oshape p per s
      (iteration_step i ix1 c).
Proof.
  intros Hfit. cbn [SplitOpCPU_loop]. unfold SplitOpCPU_iteration, allocate_output.
  rewrite allocate_succeeds, (to_int64_id _ Hfit). reflexivity.
Qed.

Lemma CPU_loop_frame n : forall i ix1 (c : Ctx),
  0 <= i -> 0 <= ix1 -> ix1 + Z.of_nat n * per < 2 ^ 63 ->
  let c' := SplitOpCPU_loop allocate_status n i (0, ix1, 0) view oshape p per s c in
  input0 c' = input0 c /\ input1 c' = input1 c /\ status c' = status c
  /\ device c' = device c
  /\ allocated c' = (allocated c + n)%nat
  /\ (forall j, (j < n)%nat ->
        outputs c' !! (Z.to_nat i + j)%nat = Some (mkTensor oshape (allocated c + j) 0))
  /\ (forall k, (k < Z.to_nat i \/ Z.to_nat i + n <= k)%nat ->
        outputs c' !! k = outputs c !! k)
  /\ split_calls c'
     = split_calls c
       ++ (if 0 <? guard
           then (fun j : nat =>
                   mkSplitCall (mkView3 (allocated c + j) 0 (p, per, s)) view
                     (0, ix1 + Z.of_nat j * per, 0) (p, per, s)) <$> seq 0 n
           else []).
Proof.
  induction n as [|n IH]; intros i ix1 c Hi Hix Hbound.
  - cbn. repeat split; try reflexivity.
    + lia.
    + intros j Hj. lia.
    + destruct (0 <? guard); now rewrite app_nil_r.
  - cbn zeta. rewrite CPU_loop_step by (unfold fits_int64; nia).
    specialize (IH (i + 1) (ix1 + per) (iteration_step i ix1 c)
                  ltac:(lia) ltac:(lia) ltac:(nia)).
    cbn zeta in IH.
    destruct IH as (H0 & H1 & H2 & H3 & H4 & Hin & Hout & Hcalls).
    assert (Hframe : input0 (iteration_step i ix1 c) = input0 c
                     /\ input1 (iteration_step i ix1 c) = input1 c
                     /\ status (iteration_step i ix1 c) = status c
                     /\ device (iteration_step i ix1 c) = device c
                     /\ allocated (iteration_step i ix1 c) = S (allocated c)
                     /\ outputs (iteration_step i ix1 c)
                        = <[Z.to_nat i := result_of c]> (outputs c)).
    { unfold iteration_step. destruct (0 <? guard); cbn; repeat split. }
    destruct Hframe as (F0 & F1 & F2 & F3 & F4 & F5).
    split; [congruence|]. split; [congruence|]. split; [congruence|].
    split; [congruence|]. split; [lia|].
    split; [|split].
    + intros j Hj. destruct j as [|j].
      * rewrite Nat.add_0_r, Hout, F5 by lia.
        rewrite lookup_insert_eq. unfold result_of. do 2 f_equal. lia.
      * replace (Z.to_nat i + S j)%nat with (Z.to_nat (i + 1) + j)%nat by lia.
        rewrite Hin by lia. do 2 f_equal. lia.
    + intros k Hk. rewrite Hout, F5 by lia. apply lookup_insert_ne. lia.
    + rewrite Hcalls. unfold iteration_step.
      destruct (0 <? guard); cbn [split_calls call_Split allocated_step allocated].
      * rewrite <- app_assoc. f_equal. cbn [seq fmap list_fmap app].
        f_equal.
        -- unfold shaped, result_of. cbn.
           rewrite Nat.add_0_r, Z.add_0_r. reflexivity.
        -- rewrite <- (fmap_S_seq 0 n), <- list_fmap_compose.
           apply list_fmap_ext. intros _ j _. cbn.
           replace (allocated c + S j)%nat with (S (allocated c + j)) by lia.
           replace (ix1 + Z.of_nat (S j) * per)
             with (ix1 + per + Z.of_nat j * per) by lia.
           reflexivity.
      * now rewrite !app_nil_r.
Qed.

Lemma CPU_loop_memory n : forall i ix1 (c : Ctx),
  0 <= i -> 0 <= ix1 -> ix1 + Z.of_nat n * per < 2 ^ 63 ->
  (v_buf view < allocated c)%nat ->
  let c' := SplitOpCPU_loop allocate_status n i (0, ix1, 0) view oshape p per s c in
  (forall b k, (b < allocated c)%nat -> memory c' b k = memory c b k)
  /\ (0 < guard ->
      forall (j : nat) a0 a1 a2,
        (j < n)%nat -> 0 <= a0 < p -> 0 <= a1 < per -> 0 <= a2 < s ->
        memory c' (allocated c + j)%nat ((a0 * per + a1) * s + a2)
        = memory c (v_buf view)
            (v_off view + (a0 * d1 + (a1 + (ix1 + Z.of_nat j * per))) * d2 + a2))
  /\ (guard <= 0 -> memory c' = memory c).
Proof.
  induction n as [|n IH]; intros i ix1 c Hi Hix Hbound Hview.
  - cbn. repeat split; try reflexivity. intros _ j a0 a1 a2 Hj. lia.
  - cbn zeta. rewrite CPU_loop_step by (unfold fits_int64; nia).
    assert (Halloc1 : allocated (iteration_step i ix1 c) = S (allocated c)).
    { unfold iteration_step. destruct (0 <? guard); reflexivity. }
    specialize (IH (i + 1) (ix1 + per) (iteration_step i ix1 c)
                  ltac:(lia) ltac:(lia) ltac:(nia) ltac:(lia)).
    cbn zeta in IH. rewrite Halloc1 in IH.
    destruct IH as (Hold & Hnew & Hskip).
    assert (Hother : forall b k, b <> allocated c ->
              memory (iteration_step i ix1 c) b k = memory c b k).
    { intros b k Hb. unfold iteration_step.
      destruct (0 <? guard); [|reflexivity].
      cbn [memory call_Split allocated_step]. now apply functor_Split_other. }
    split; [|split].
    + intros b k Hb. rewrite Hold by lia. apply Hother. lia.
    + intros Hguard j a0 a1 a2 Hj H0 H1 H2. destruct j as [|j].
      * rewrite Nat.add_0_r, Hold by lia.
        unfold iteration_step. replace (0 <? guard) with true by (symmetry; lia).
        cbn [memory call_Split allocated_step].
        pose proof (functor_Split_read (memory c) (shaped (result_of c) (p, per, s))
                      view 0 ix1 0 p per s d0 d1 d2 a0 a1 a2
                      eq_refl view_dims H0 H1 H2) as Hread.
        cbn [shaped result_of v_buf v_off buf off] in Hread.
        rewrite Z.add_0_l in Hread. rewrite Hread. f_equal. cbn. ring.
      * replace (allocated c + S j)%nat with (S (allocated c) + j)%nat by lia.
        rewrite (Hnew Hguard j a0 a1 a2) by lia.
        rewrite Hother by lia. f_equal.
        replace (Z.of_nat (S j)) with (1 + Z.of_nat j) by lia. ring.
    + intros Hguard. rewrite (Hskip Hguard). unfold iteration_step.
      replace (0 <? guard) with false by (symmetry; lia). reflexivity.
Qed.

End CPULoop.

(** *** The general path *)

Lemma shape_wf_take (s : list Z) n : shape_wf s -> shape_wf (take n s).
Proof. apply Forall_take. Qed.

Lemma shape_wf_drop (s : list Z) n : shape_wf s -> shape_wf (drop n s).
Proof. apply Forall_drop. Qed.

Lemma guard_product a b x :
  to_int32 (to_int32 (to_int32 a * b) * to_int32 x) = to_int32 (a * b * x).
Proof.
  rewrite (to_int32_mul_l a b), (to_int32_mul_l (a * b)).
  rewrite (Z.mul_comm (a * b) (to_int32 x)), to_int32_mul_l.
  f_equal. ring.
Qed.

Section GeneralPath.

Variable num_outputs : Z.
Variable c : Ctx.

Hypothesis fresh_status : status c = OK.
Hypothesis input_shape_wf : shape_wf (shape (input1 c)).
Hypothesis split_dim_in_range : 0 <= input0 c < dims (shape (input1 c)).
Hypothesis several_outputs : 1 < num_outputs.
Hypothesis divides :
  Z.rem (dim_size (shape (input1 c)) (input0 c)) num_outputs = 0.
Hypothesis no_fast_path :
  (input0 c =? 0) && IsInnerDimsSizeAligned (shape (input1 c)) = false.
Hypothesis split_size_fits : fits_int32 (dim_size (shape (input1 c)) (input0 c)).

Let P : Z := prefix_product (shape (input1 c)) (input0 c).
Let S' : Z := dim_size (shape (input1 c)) (input0 c).
Let X : Z := suffix_product (shape (input1 c)) (input0 c).
Let per : Z := S' / num_outputs.

Lemma EasyCases_general : EasyCases num_outputs c = (c, false).
Proof.
  rewrite EasyCases_valid by first [assumption | lia].
  replace (num_outputs =? 1) with false by (symmetry; lia).
  now rewrite no_fast_path.
Qed.

Lemma split_size_nonneg : 0 <= S'.
Proof. apply (dim_size_bounds _ _ input_shape_wf). Qed.

Lemma per_exact : to_int32 (Z.quot (to_int32 S') num_outputs) = per.
Proof.
  pose proof split_size_nonneg as HS.
  rewrite (to_int32_id S') by exact split_size_fits.
  rewrite Z.quot_div_nonneg by lia. fold per.
  apply to_int32_id. unfold fits_int32 in *.
  assert (0 <= per) by (apply Z.div_pos; lia).
  assert (per <= S') by (apply Z.div_le_upper_bound; nia).
  lia.
Qed.

Lemma per_nonneg' : 0 <= per.
Proof. pose proof split_size_nonneg. apply Z.div_pos; lia. Qed.

Lemma per_times_num : S' = num_outputs * per.
Proof.
  pose proof split_size_nonneg as HS.
  pose proof divides as Hrem. fold S' in Hrem.
  rewrite Z.rem_mod_nonneg in Hrem by lia.
  apply Z.div_exact; lia.
Qed.

Lemma CPU_general_entry :
  CPU num_outputs c
  = SplitOpCPU_loop allocate_status (Z.to_nat num_outputs) 0 (0, 0, 0)
      (shaped (input1 c) (to_int32 P, S', to_int32 X))
      (set_dim (shape (input1 c)) (input0 c) per)
      (to_int32 P) per (to_int32 X) c.
Proof.
  unfold SplitOpCPU_Compute. rewrite EasyCases_general, fresh_status.
  cbn [ok negb orb].
  rewrite SetDims_wrapped by assumption. fold P S' X.
  rewrite per_exact. rewrite (to_int32_id S') by exact split_size_fits.
  reflexivity.
Qed.

End GeneralPath.

Section GeneralPathCPU.

Hypothesis allocate_succeeds : forall n s, allocate_status n s = OK.

Variable num_outputs : Z.
Variable c : Ctx.

Hypothesis fresh_status : status c = OK.
Hypothesis input_shape_wf : shape_wf (shape (input1 c)).
Hypothesis input_live : (buf (input1 c) < allocated c)%nat.
Hypothesis split_dim_in_range : 0 <= input0 c < dims (shape (input1 c)).
Hypothesis several_outputs : 1 < num_outputs.
Hypothesis divides :
  Z.rem (dim_size (shape (input1 c)) (input0 c)) num_outputs = 0.
Hypothesis no_fast_path :
  (input0 c =? 0) && IsInnerDimsSizeAligned (shape (input1 c)) = false.

Let d : nat := Z.to_nat (input0 c).
Let P : Z := prefix_product (shape (input1 c)) (input0 c).
Let S' : Z := dim_size (shape (input1 c)) (input0 c).
Let X : Z := suffix_product (shape (input1 c)) (input0 c).
Let per : Z := S' / num_outputs.
Let oshape : list Z := set_dim (shape (input1 c)) (input0 c) per.

Hypothesis prefix_fits : fits_int32 P.
Hypothesis split_size_fits : fits_int32 S'.
Hypothesis suffix_fits : fits_int32 X.
Hypothesis piece_fits : fits_int32 (P * per * X).

Lemma CPU_general_summary :
  let c' := CPU num_outputs c in
  status c' = OK
  /\ input0 c' = input0 c /\ input1 c' = input1 c /\ device c' = device c
  /\ allocated c' = (allocated c + Z.to_nat num_outputs)%nat
  /\ (forall j, (j < Z.to_nat num_outputs)%nat ->
        outputs c' !! j = Some (mkTensor oshape (allocated c + j) 0))
  /\ (forall k, (Z.to_nat num_outputs <= k)%nat -> outputs c' !! k = outputs c !! k)
  /\ split_calls c'
     = split_calls c
       ++ (if 0 <? P * per * X
           then (fun j : nat =>
                   mkSplitCall (mkView3 (allocated c + j) 0 (P, per, X))
                     (shaped (input1 c) (P, S', X))
                     (0, Z.of_nat j * per, 0) (P, per, X))
                <$> seq 0 (Z.to_nat num_outputs)
           else [])
  /\ (forall b k, (b < allocated c)%nat -> memory c' b k = memory c b k)
  /\ (forall (j : nat) idx,
        (j < Z.to_nat num_outputs)%nat -> valid_index oshape idx ->
        memory c' (allocated c + j)%nat (flat_index oshape idx)
        = tensor_at (memory c) (input1 c) (shift_index d (Z.of_nat j * per) idx)).
Proof.
  intros c'.
  pose proof (per_nonneg' num_outputs c input_shape_wf several_outputs) as Hper.
  pose proof (per_times_num num_outputs c input_shape_wf several_outputs divides) as Hmul.
  fold S' per in Hper, Hmul.
  assert (Hentry : c' = SplitOpCPU_loop allocate_status (Z.to_nat num_outputs) 0 (0, 0, 0)
                          (shaped (input1 c) (P, S', X)) oshape P per X c).
  { subst c'. rewrite CPU_general_entry by assumption.
    fold P X S' per oshape. now rewrite !to_int32_id by assumption. }
  assert (Hguard : to_int32 (to_int32 (P * per) * X) = P * per * X).
  { rewrite to_int32_mul_l. now apply to_int32_id. }
  assert (Hbound : 0 + Z.of_nat (Z.to_nat num_outputs) * per < 2 ^ 63).
  { unfold fits_int32 in split_size_fits. nia. }
  pose proof (CPU_loop_frame allocate_succeeds (shaped (input1 c) (P, S', X)) oshape
                P per X Hper (Z.to_nat num_outputs) 0 0 c
                ltac:(lia) ltac:(lia) Hbound) as Hframe.
  pose proof (CPU_loop_memory allocate_succeeds (shaped (input1 c) (P, S', X)) oshape
                P per X P S' X eq_refl Hper (Z.to_nat num_outputs) 0 0 c
                ltac:(lia) ltac:(lia) Hbound input_live) as Hmem.
  cbn zeta in Hframe, Hmem. rewrite <- Hentry, Hguard in Hframe, Hmem.
  destruct Hframe as (F0 & F1 & F2 & F3 & F4 & Fin & Fout & Fcalls).
  destruct Hmem as (Mold & Mnew & _).
  split; [congruence|]. do 4 (split; [assumption|]).
  split; [exact Fin|]. split; [intros k Hk; apply Fout; lia|].
  split; [exact Fcalls|]. split; [exact Mold|].
  intros j idx Hj Hv.
  assert (Hd : (d < length (shape (input1 c)))%nat) by (unfold dims in *; lia).
  destruct (collapse_output_index (shape (input1 c)) idx d per Hd Hv)
    as (Hflat & HA & Hb & HC & Hshift).
  change (num_elements (take d (shape (input1 c)))) with P in *.
  change (num_elements (drop (S d) (shape (input1 c)))) with X in *.
  assert (Hpos : 0 < P * per * X).
  { apply Z.mul_pos_pos; [apply Z.mul_pos_pos|]; lia. }
  unfold oshape, set_dim. fold d. rewrite Hflat.
  rewrite (Mnew Hpos j _ _ _ Hj HA Hb HC).
  unfold tensor_at. rewrite Hshift. cbn [shaped v_buf v_off].
  f_equal. unfold S', dim_size. fold d. ring.
Qed.

End GeneralPathCPU.

(** C1, as amended: on a fresh invocation with valid arguments that takes
    the general path, provided the allocator serves every request and the
    prefix product, the split-axis size, the suffix product and the element
    count of one output each fit in a signed 32-bit integer, output i (for
    every i in [0, num_split)) is a freshly allocated tensor with the
    input's shape except dimension split_dim set to
    per_split = split_dim_size / num_split, and its element at every
    multi-index is the input element at the same multi-index moved by
    i * per_split along split_dim; when the outputs are not empty the copy
    primitive is invoked once per output, in order, reading the
    (prefix_size, split_dim_size, suffix_size) view of the input at start
    offset (0, i * per_split, 0) with extents
    (prefix_size, per_split, suffix_size). *)
Theorem general_path_outputs num_outputs (c : Ctx) :
  (forall n s, allocate_status n s = OK) ->
  status c = OK ->
  shape_wf (shape (input1 c)) ->
  (buf (input1 c) < allocated c)%nat ->
  0 <= input0 c < dims (shape (input1 c)) ->
  0 < num_outputs ->
  Z.rem (dim_size (shape (input1 c)) (input0 c)) num_outputs = 0 ->
  num_outputs <> 1 ->
  (input0 c =? 0) && IsInnerDimsSizeAligned (shape (input1 c)) = false ->
  let prefix_size := prefix_product (shape (input1 c)) (input0 c) in
  let split_dim_size := dim_size (shape (input1 c)) (input0 c) in
  let suffix_size := suffix_product (shape (input1 c)) (input0 c) in
  let per_split := split_dim_size / num_outputs in
  fits_int32 prefix_size ->
  fits_int32 split_dim_size ->
  fits_int32 suffix_size ->
  fits_int32 (prefix_size * per_split * suffix_size) ->
  let c' := CPU num_outputs c in
  status c' = OK
  /\ (forall i, 0 <= i < num_outputs ->
        exists t,
          outputs c' !! Z.to_nat i = Some t
          /\ shape t = set_dim (shape (input1 c)) (input0 c) per_split
          /\ (allocated c <= buf t)%nat
          /\ forall idx, valid_index (shape t) idx ->
               tensor_at (memory c') t idx
               = tensor_at (memory c) (input1 c)
                   (shift_index (Z.to_nat (input0 c)) (i * per_split) idx))
  /\ split_calls c'
     = split_calls c
       ++ (if 0 <? prefix_size * per_split * suffix_size
           then (fun i : nat =>
                   mkSplitCall
                     (mkView3 (allocated c + i) 0 (prefix_size, per_split, suffix_size))
                     (shaped (input1 c) (prefix_size, split_dim_size, suffix_size))
                     (0, Z.of_nat i * per_split, 0)
                     (prefix_size, per_split, suffix_size))
                <$> seq 0 (Z.to_nat num_outputs)
           else []).
Proof.
  intros Halloc Hok Hwf Hlive Hd Hnum Hrem Hne Hgen P S' X per HP HS HX Hpiece c'.
  destruct (CPU_general_summary Halloc num_outputs c Hok Hwf Hlive Hd
              ltac:(lia) Hrem Hgen HP HS HX Hpiece)
    as (Hst & _ & _ & _ & _ & Hin & _ & Hcalls & _ & Helem).
  fold c' in Hst, Hin, Hcalls, Helem.
  split; [exact Hst|]. split; [|exact Hcalls].
  intros i Hi. eexists. split; [apply Hin; lia|].
  cbn [shape buf]. split; [reflexivity|]. split; [lia|].
  intros idx Hv. unfold tensor_at at 1. cbn [shape buf off].
  rewrite Z.add_0_l, (Helem (Z.to_nat i) idx) by (first [assumption | lia]).
  now rewrite Z2Nat.id by lia.
Qed.

(** *** Concatenation of the outputs *)

Lemma output_list_fmap (c : Ctx) n (f : nat -> Tensor) :
  (forall j, (j < n)%nat -> outputs c !! j = Some (f j)) ->
  output_list c n = f <$> seq 0 n.
Proof.
  intros Hf. unfold output_list.
  assert (H : forall l : list nat, Forall (fun j => (j < n)%nat) l ->
            omap (fun i => outputs c !! i) l = f <$> l).
  { induction 1 as [|j l Hj _ IH]; cbn; [reflexivity|].
    now rewrite (Hf j Hj), IH. }
  apply H, Forall_forall. intros j Hj%list_elem_of_In%in_seq. lia.
Qed.

Lemma concat_at_pieces (m : @Memory T) axis per : forall pieces idx,
  Forall (fun t => nth axis (shape t) 0 = per) pieces ->
  (axis < length idx)%nat ->
  0 <= nth axis idx 0 < per * Z.of_nat (length pieces) ->
  concat_at m axis pieces idx
  = (fun t => tensor_at m t (<[axis := nth axis idx 0 mod per]> idx))
    <$> pieces !! Z.to_nat (nth axis idx 0 / per).
Proof.
  induction pieces as [|t pieces IH]; intros idx Hper Haxis Hq.
  - cbn in Hq. lia.
  - apply Forall_cons in Hper as [Ht Hper].
    assert (Hpos : 0 < per) by (cbn [length] in Hq; nia).
    cbn [concat_at]. rewrite Ht.
    destruct (nth axis idx 0 <? per) eqn:Hlt.
    + rewrite Z.div_small, Z.mod_small by lia. cbn.
      rewrite list_insert_id; [reflexivity|]. now apply lookup_nth.
    + assert (Hge : per <= nth axis idx 0) by lia.
      rewrite IH; [|assumption|now rewrite length_insert|].
      * rewrite nth_insert_eq by assumption.
        replace (nth axis idx 0 - per) with (nth axis idx 0 + (-1) * per) by lia.
        rewrite Z_mod_plus_full, Z_div_plus_full by lia.
        rewrite list_insert_insert_eq.
        replace (Z.to_nat (nth axis idx 0 / per))
          with (S (Z.to_nat (nth axis idx 0 / per + -1))).
        { reflexivity. }
        assert (1 <= nth axis idx 0 / per) by (apply Z.div_le_lower_bound; lia).
        lia.
      * rewrite nth_insert_eq by assumption. cbn [length] in Hq. lia.
Qed.

Lemma shift_index_insert (idx : list Z) d k v :
  shift_index d k (<[d := v]> idx) = <[d := k + v]> idx.
Proof.
  unfold shift_index. revert d. induction idx as [|x idx IH]; intros [|d]; cbn;
    try reflexivity.
  now rewrite IH.
Qed.

Lemma sum_replicate_sizes (d : nat) (per : Z) (pieces : list Tensor) :
  Forall (fun t => nth d (shape t) 0 = per) pieces ->
  foldr Z.add 0 ((fun s' : list Z => nth d s' 0) <$> (shape <$> pieces))
  = Z.of_nat (length pieces) * per.
Proof.
  induction 1 as [|t pieces Ht _ IH]; cbn [fmap list_fmap foldr length].
  - lia.
  - rewrite IH, Ht. lia.
Qed.

(** The pieces [f 0 .. f (n-1)], each of the input's shape with axis [d]
    resized to [per] and holding the input's elements [j * per] further
    along [d], concatenate back to the input. *)
Lemma round_trip_of_pieces (m' m : @Memory T) (input : Tensor) (d : nat) (per : Z)
    (n : nat) (f : nat -> Tensor) :
  (d < length (shape input))%nat ->
  (0 < n)%nat ->
  nth d (shape input) 0 = Z.of_nat n * per ->
  (forall j, (j < n)%nat ->
     shape (f j) = <[d := per]> (shape input)
     /\ forall idx, valid_index (shape (f j)) idx ->
          tensor_at m' (f j) idx
          = tensor_at m input (shift_index d (Z.of_nat j * per) idx)) ->
  let pieces := f <$> seq 0 n in
  concat_shape d (shape <$> pieces) = shape input
  /\ forall idx, valid_index (shape input) idx ->
       concat_at m' d pieces idx = Some (tensor_at m input idx).
Proof.
  intros Hd Hn Hdim Hf pieces.
  assert (Hsizes : Forall (fun t => nth d (shape t) 0 = per) pieces).
  { apply Forall_fmap, Forall_forall. intros j Hj%list_elem_of_In%in_seq. cbn.
    destruct (Hf j ltac:(lia)) as [-> _]. now apply nth_insert_eq. }
  assert (Hlen : length pieces = n).
  { unfold pieces. now rewrite length_fmap, length_seq. }
  split.
  - unfold concat_shape.
    rewrite (sum_replicate_sizes d per pieces Hsizes), Hlen.
    unfold pieces. destruct n as [|n]; [lia|]. cbn [seq fmap list_fmap].
    destruct (Hf 0%nat ltac:(lia)) as [-> _].
    rewrite list_insert_insert_eq. apply list_insert_id.
    rewrite <- Hdim. now apply lookup_nth.
  - intros idx Hv.
    assert (Hlenidx : length idx = length (shape input)).
    { symmetry. exact (Forall2_length _ _ _ Hv). }
    pose proof (valid_index_nth _ _ d Hv Hd) as Hq. rewrite Hdim in Hq.
    assert (Hper : 0 < per) by nia.
    rewrite (concat_at_pieces m' d per) by (rewrite ?Hlen; first [assumption | lia]).
    set (q := nth d idx 0) in *.
    assert (Hj : 0 <= q / per < Z.of_nat n).
    { split; [apply Z.div_pos; lia|apply Z.div_lt_upper_bound; lia]. }
    unfold pieces. rewrite list_lookup_fmap, lookup_seq_lt by lia.
    cbn. f_equal.
    destruct (Hf (Z.to_nat (q / per)) ltac:(lia)) as [Hshape Helem].
    rewrite Helem.
    + rewrite shift_index_insert, Z2Nat.id by lia.
      rewrite (Z.mul_comm (q / per) per), <- Z.div_mod by lia.
      rewrite list_insert_id; [reflexivity|]. apply lookup_nth. lia.
    + rewrite Hshape. unfold valid_index.
      apply Forall2_insert; [exact Hv|].
      apply Z.mod_pos_bound. lia.
Qed.

Lemma shift_index_0 (idx : list Z) d : shift_index d 0 idx = idx.
Proof. unfold shift_index. apply list_alter_id. intros x. lia. Qed.

(** C5: on a fresh invocation that passes validation with num_split > 1,
    split_dim = 0 and aligned inner dimensions, output i (for every i in
    [0, num_split)) is [input.Slice(i*delta, (i+1)*delta)] with
    delta = dim_size(0) / num_split: a handle on the input's buffer,
    offset by i*delta rows, of shape (delta, rest of the input shape), whose
    elements are the input's rows [i*delta, (i+1)*delta); the store is not
    written, nothing is allocated, the copy primitive is not called, and
    both executors return there. *)
Theorem dim0_slice_case num_outputs (c : Ctx) :
  status c = OK ->
  shape_wf (shape (input1 c)) ->
  input0 c = 0 ->
  0 < dims (shape (input1 c)) ->
  1 < num_outputs ->
  Z.rem (dim_size (shape (input1 c)) 0) num_outputs = 0 ->
  IsInnerDimsSizeAligned (shape (input1 c)) = true ->
  let delta := dim_size (shape (input1 c)) 0 / num_outputs in
  let c' := CPU num_outputs c in
  GPU num_outputs c = c'
  /\ status c' = OK
  /\ memory c' = memory c
  /\ allocated c' = allocated c
  /\ split_calls c' = split_calls c
  /\ device c' = device c
  /\ forall i, 0 <= i < num_outputs ->
       exists t,
         outputs c' !! Z.to_nat i = Some t
         /\ t = Slice (input1 c) (i * delta) ((i + 1) * delta)
         /\ buf t = buf (input1 c)
         /\ off t = off (input1 c)
                    + i * delta * num_elements (tail (shape (input1 c)))
         /\ shape t = set_dim (shape (input1 c)) 0 delta
         /\ forall idx, valid_index (shape t) idx ->
              tensor_at (memory c') t idx
              = tensor_at (memory c) (input1 c) (shift_index 0 (i * delta) idx).
Proof. exact (dim0_slice_summary num_outputs c). Qed.

(** C2, as amended: on a fresh invocation with valid arguments, on the
    identity path, on the dim-0 slice path, and on the general path provided
    there the allocator serves every request and the prefix product, the
    split-axis size, the suffix product and the element count of one output
    each fit in a signed 32-bit integer, all num_split outputs are set and
    their concatenation in order along split_dim has the input's shape and,
    at every multi-index, the input's element. *)
Theorem split_round_trip num_outputs (c : Ctx) :
  status c = OK ->
  shape_wf (shape (input1 c)) ->
  (buf (input1 c) < allocated c)%nat ->
  0 <= input0 c < dims (shape (input1 c)) ->
  0 < num_outputs ->
  Z.rem (dim_size (shape (input1 c)) (input0 c)) num_outputs = 0 ->
  (num_outputs <> 1 ->
   (input0 c =? 0) && IsInnerDimsSizeAligned (shape (input1 c)) = false ->
   (forall n s, allocate_status n s = OK)
   /\ fits_int32 (prefix_product (shape (input1 c)) (input0 c))
   /\ fits_int32 (dim_size (shape (input1 c)) (input0 c))
   /\ fits_int32 (suffix_product (shape (input1 c)) (input0 c))
   /\ fits_int32 (prefix_product (shape (input1 c)) (input0 c)
                  * (dim_size (shape (input1 c)) (input0 c) / num_outputs)
                  * suffix_product (shape (input1 c)) (input0 c))) ->
  let c' := CPU num_outputs c in
  let pieces := output_list c' (Z.to_nat num_outputs) in
  status c' = OK
  /\ length pieces = Z.to_nat num_outputs
  /\ concat_shape (Z.to_nat (input0 c)) (shape <$> pieces) = shape (input1 c)
  /\ forall idx, valid_index (shape (input1 c)) idx ->
       concat_at (memory c') (Z.to_nat (input0 c)) pieces idx
       = Some (tensor_at (memory c) (input1 c) idx).
Proof.
  intros Hok Hwf Hlive Hd Hnum Hrem Hgeneral c' pieces.
  set (d := Z.to_nat (input0 c)).
  set (per := dim_size (shape (input1 c)) (input0 c) / num_outputs).
  assert (Hdlt : (d < length (shape (input1 c)))%nat) by (unfold dims in Hd; lia).
  pose proof (dim_size_bounds _ (input0 c) Hwf) as Hdim.
  assert (Hmul : nth d (shape (input1 c)) 0 = Z.of_nat (Z.to_nat num_outputs) * per).
  { rewrite Z.rem_mod_nonneg in Hrem by lia.
    rewrite Z2Nat.id by lia.
    change (nth d (shape (input1 c)) 0) with (dim_size (shape (input1 c)) (input0 c)).
    apply Z.div_exact; lia. }
  (* every path yields pieces [f 0 .. f (n-1)] of the round-trip lemma *)
  enough (Hpieces : status c' = OK /\ exists f : nat -> Tensor,
            (forall j, (j < Z.to_nat num_outputs)%nat -> outputs c' !! j = Some (f j))
            /\ forall j, (j < Z.to_nat num_outputs)%nat ->
                 shape (f j) = <[d := per]> (shape (input1 c))
                 /\ forall idx, valid_index (shape (f j)) idx ->
                      tensor_at (memory c') (f j) idx
                      = tensor_at (memory c) (input1 c)
                          (shift_index d (Z.of_nat j * per) idx)).
  { destruct Hpieces as (Hst & f & Hout & Hf).
    split; [exact Hst|].
    unfold pieces. rewrite (output_list_fmap c' _ f Hout).
    split; [now rewrite length_fmap, length_seq|].
    apply (round_trip_of_pieces (memory c') (memory c) (input1 c) d per
             (Z.to_nat num_outputs) f Hdlt ltac:(lia) Hmul Hf). }
  destruct (decide (num_outputs = 1)) as [->|Hne].
  - (* identity *)
    destruct (Compute_identity c Hok Hd) as (_ & Hcpu & _). fold c' in Hcpu.
    rewrite Hcpu. split; [exact Hok|].
    exists (fun _ => input1 c). split.
    + intros j Hj. replace j with 0%nat by lia. apply lookup_insert_eq.
    + intros j Hj. replace j with 0%nat by lia.
      assert (Hper : per = nth d (shape (input1 c)) 0).
      { unfold per. now rewrite Z.div_1_r. }
      split.
      * symmetry. apply list_insert_id. rewrite Hper. now apply lookup_nth.
      * intros idx _. cbn [memory set_output]. now rewrite Z.mul_0_l, shift_index_0.
  - destruct ((input0 c =? 0) && IsInnerDimsSizeAligned (shape (input1 c))) eqn:Hfast.
    + (* dim-0 slices *)
      apply andb_true_iff in Hfast as [Hzero%Z.eqb_eq Haligned].
      rewrite Hzero in Hrem, Hd.
      destruct (dim0_slice_summary num_outputs c Hok Hwf Hzero ltac:(lia) ltac:(lia)
                  Hrem Haligned) as (_ & Hst & _ & _ & _ & _ & Hslices).
      fold c' in Hst, Hslices.
      split; [exact Hst|].
      assert (Hd0 : d = 0%nat) by (unfold d; rewrite Hzero; reflexivity).
      assert (Hper : per = dim_size (shape (input1 c)) 0 / num_outputs)
        by (unfold per; now rewrite Hzero).
      exists (fun j => Slice (input1 c) (Z.of_nat j * per) ((Z.of_nat j + 1) * per)).
      split.
      * intros j Hj. destruct (Hslices (Z.of_nat j) ltac:(lia)) as (t & Ht & -> & _).
        rewrite Nat2Z.id in Ht. now rewrite Hper.
      * intros j Hj.
        destruct (Hslices (Z.of_nat j) ltac:(lia)) as (t & _ & -> & _ & _ & Hsh & Hel).
        rewrite <- Hper in Hsh, Hel. rewrite Hd0. split; [exact Hsh|exact Hel].
    + (* general path *)
      destruct (Hgeneral Hne eq_refl) as (Halloc & HP & HS & HX & Hpiece).
      destruct (CPU_general_summary Halloc num_outputs c Hok Hwf Hlive Hd
                  ltac:(lia) Hrem Hfast HP HS HX Hpiece)
        as (Hst & _ & _ & _ & _ & Hin & _ & _ & _ & Helem).
      fold c' d per in Hst, Hin, Helem.
      split; [exact Hst|].
      exists (fun j => mkTensor (set_dim (shape (input1 c)) (input0 c) per)
                         (allocated c + j) 0).
      split; [exact Hin|].
      intros j Hj. cbn [shape]. split; [reflexivity|].
      intros idx Hv. unfold tensor_at at 1. cbn [shape buf off].
      rewrite Z.add_0_l. now apply Helem.
Qed.

(** *** The GPU executor: what happens to the device state *)

Lemma device_CtxFailure (c : Ctx) st : device (CtxFailure c st) = device c.
Proof. unfold CtxFailure. now destruct (ok (status c)). Qed.

Lemma EasyCases_device num_outputs (c : Ctx) :
  device (EasyCases num_outputs c).1 = device c.
Proof.
  unfold ComputeEasyCases.
  repeat match goal with
         | |- context [if ?b then _ else _] => destruct b
         end; cbn [fst]; rewrite ?device_CtxFailure; try reflexivity.
  unfold for_range.
  match goal with
  | |- device (for_loop ?n 0 (fun i c0 => set_output c0 i (@?f i)) c) = _ =>
      destruct (set_output_loop n 0 c f ltac:(lia)) as (_ & _ & _ & _ & _ & _ & H & _)
  end.
  exact H.
Qed.

(** The output loop of the GPU executor only writes pointer slots of the
    staging array: references, stream and the other temporaries stay. *)
Lemma GPU_loop_device n oshape host : forall i (c : Ctx),
  let r := SplitOpGPU_loop allocate_status n i oshape host c in
  refs (device r.1) = refs (device c)
  /\ stream (device r.1) = stream (device c)
  /\ stream_ok (device r.1) = stream_ok (device c)
  /\ next_temp (device r.1) = next_temp (device c).
Proof.
  induction n as [|n IH]; intros i c; cbn [SplitOpGPU_loop].
  - cbn. repeat split.
  - unfold allocate_output. destruct (allocate_status (allocated c) oshape);
      cbn [fst]; rewrite ?device_CtxFailure; try (repeat split; reflexivity).
    match goal with
    | |- context [SplitOpGPU_loop _ n (i + 1) oshape host ?c1] =>
        specialize (IH (i + 1) c1); cbn zeta in IH
    end.
    exact IH.
Qed.

Lemma allocate_temp_cases (c : Ctx) bytes on_host :
  (exists err, err <> OK
     /\ allocate_temp allocate_temp_status c bytes on_host
        = (err, (c, next_temp (device c))))
  \/ allocate_temp allocate_temp_status c bytes on_host
     = (OK,
        (with_device c
           (mkDeviceState (<[next_temp (device c) := ∅]> (temps (device c)))
              (if on_host then <[next_temp (device c) := 1%nat]> (refs (device c))
               else refs (device c))
              (S (next_temp (device c))) (stream (device c)) (stream_ok (device c))),
         next_temp (device c))).
Proof.
  unfold allocate_temp.
  destruct (allocate_temp_status (next_temp (device c)) bytes);
    [right; reflexivity|left; eexists; split; [|reflexivity]; discriminate ..].
Qed.

(** Lines 215-243 leave the stream as it was, or enqueue the copy, the
    callback and the launch after having taken a second reference on the
    staging array. *)
Lemma GPU_body_device num_split input p sd sx per oshape bytes host (c : Ctx) :
  let b := SplitOpGPU_body allocate_status allocate_temp_status num_split input
             p sd sx per oshape bytes host c in
  (stream (device b) = stream (device c) /\ refs (device b) = refs (device c))
  \/ exists gpu,
       stream (device b)
       = stream (device c)
         ++ [ThenMemcpy gpu host bytes; ThenExecute_Unref host;
             SplitOpGPULaunch (data input) num_split p sd sx gpu]
       /\ refs (device b) = alter S host (refs (device c)).
Proof.
  unfold SplitOpGPU_body.
  destruct (allocate_temp_cases c bytes false) as [(err & Herr & ->) | ->].
  { left. destruct err; try congruence; now rewrite device_CtxFailure. }
  match goal with
  | |- context [SplitOpGPU_loop _ ?n 0 oshape host ?cx] =>
      pose proof (GPU_loop_device n oshape host 0 cx) as Hloop;
      destruct (SplitOpGPU_loop allocate_status n 0 oshape host cx) as [c4 fl]
  end.
  cbn zeta in Hloop. cbn [fst device with_device refs stream] in Hloop.
  destruct Hloop as (Hrefs4 & Hstream4 & _ & _).
  cbn zeta. destruct fl; [|left; split; assumption].
  destruct (_ =? 0); [left; split; assumption|].
  right. eexists.
  match goal with
  | |- context [if ?b then ?x else ?y] =>
      assert (Hd : device (if b then x else y) = device x)
        by (destruct b; rewrite ?device_CtxFailure; reflexivity)
  end.
  rewrite !Hd. cbn [enqueue TensorReference device with_device stream refs].
  rewrite Hstream4, Hrefs4, <- !app_assoc. split; reflexivity.
Qed.

(** [Compute] does not change what the stream reports. *)
Lemma GPU_stream_ok num_outputs (c : Ctx) :
  stream_ok (device (GPU num_outputs c)) = stream_ok (device c).
Proof.
  unfold SplitOpGPU_Compute.
  pose proof (EasyCases_device num_outputs c) as Hdev.
  destruct (EasyCases num_outputs c) as [c1 done]. cbn [fst] in Hdev.
  destruct (negb (ok (status c1)) || done); [congruence|].
  destruct (SetDims (shape (input1 c1)) (input0 c1)) as [[p sd] sx].
  destruct (allocate_temp_cases c1 (to_int64 (sizeof_ptr * num_outputs)) true)
    as [(err & Herr & ->) | ->].
  { destruct err; try congruence; rewrite device_CtxFailure; congruence. }
  cbn [Unref device with_device stream_ok].
  unfold SplitOpGPU_body.
  match goal with
  | |- context [allocate_temp _ ?cx ?by' false] =>
      destruct (allocate_temp_cases cx by' false) as [(err & Herr & ->) | ->]
  end.
  { destruct err; try congruence; rewrite device_CtxFailure; cbn; congruence. }
  match goal with
  | |- context [SplitOpGPU_loop _ ?n 0 ?os ?host ?cx] =>
      pose proof (GPU_loop_device n os host 0 cx) as Hloop;
      destruct (SplitOpGPU_loop allocate_status n 0 os host cx) as [c4 fl]
  end.
  cbn zeta in Hloop. cbn [fst device with_device stream_ok] in Hloop.
  destruct Hloop as (_ & _ & Hsok & _).
  destruct fl; [|congruence].
  destruct (_ =? 0); [congruence|].
  match goal with
  | |- context [if ?b then ?x else ?y] =>
      assert (Hd : device (if b then x else y) = device x)
        by (destruct b; rewrite ?device_CtxFailure; reflexivity)
  end.
  rewrite Hd. cbn [enqueue TensorReference device with_device stream_ok]. congruence.
Qed.

(** C9: on a fresh invocation of the GPU executor, either nothing is
    enqueued on the stream, or the stream holds, in this order, the copy of
    the host staging array to the device, the callback that drops the
    reference taken on the staging array, and the kernel launch; in that
    case the staging array still has one reference when [Compute] returns
    (the one taken by [tensor_ref] before the copy was enqueued), the copy
    therefore finds it alive when the stream executes it, and the array is
    released exactly when the callback, which the stream runs after the
    copy, executes. *)
Theorem staging_buffer_outlives_copy num_outputs (c : Ctx) :
  stream (device c) = [] ->
  let g := GPU num_outputs c in
  stream (device g) = []
  \/ exists host gpu size launch,
       stream (device g)
       = [ThenMemcpy gpu host size; ThenExecute_Unref host; launch]
       /\ (forall t, launch <> ThenExecute_Unref t)
       /\ refs (device g) !! host = Some 1%nat
       /\ exists g1 g2,
            exec_op g (ThenMemcpy gpu host size) = Some g1
            /\ refs (device g1) !! host = Some 1%nat
            /\ exec_op g1 (ThenExecute_Unref host) = Some g2
            /\ refs (device g2) !! host = Some 0%nat.
Proof.
  intros Hstream g. subst g. unfold SplitOpGPU_Compute.
  pose proof (EasyCases_device num_outputs c) as Hdev.
  destruct (EasyCases num_outputs c) as [c1 done]. cbn [fst] in Hdev.
  destruct (negb (ok (status c1)) || done); [left; congruence|].
  destruct (SetDims (shape (input1 c1)) (input0 c1)) as [[p sd] sx].
  destruct (allocate_temp_cases c1 (to_int64 (sizeof_ptr * num_outputs)) true)
    as [(err & Herr & ->) | ->].
  { left. destruct err; try congruence; rewrite device_CtxFailure; congruence. }
  set (host := next_temp (device c1)).
  match goal with
  | |- context [SplitOpGPU_body _ _ ?n ?i _ _ _ ?pr ?os ?by' host ?cx] =>
      pose proof (GPU_body_device n i p sd sx pr os by' host cx) as Hbody;
      cbn zeta in Hbody;
      set (b := SplitOpGPU_body allocate_status allocate_temp_status n i p sd sx
                  pr os by' host cx) in *
  end.
  cbn [device with_device stream refs] in Hbody.
  destruct Hbody as [(Hs & Hr) | (gpu & Hs & Hr)].
  { left. cbn. congruence. }
  right. eexists host, gpu, _, _.
  rewrite Hdev, Hstream in Hs. cbn [app] in Hs.
  assert (Hone : refs (device (Unref b host)) !! host = Some 1%nat).
  { cbn. rewrite Hr, !lookup_alter_eq, lookup_insert_eq. reflexivity. }
  split; [exact Hs|]. split; [discriminate|]. split; [exact Hone|].
  unfold exec_op at 1. rewrite Hone.
  eexists _, _. split; [reflexivity|].
  split; [exact Hone|]. split; [reflexivity|].
  cbn [exec_op Unref device with_device refs].
  cbn [Unref device with_device refs] in Hone.
  now rewrite lookup_alter_eq, Hone.
Qed.

(** *** The GPU executor, when the allocator serves every request *)

Section GPULoop.

Hypothesis allocate_succeeds : forall n s, allocate_status n s = OK.

Variable oshape : TensorShape.
Variable host : nat.

Let slots (c : Ctx) : gmap nat Ptr := default ∅ (temps (device c) !! host).

Let iteration_step (i : Z) (c : Ctx) : Ctx :=
  store_ptr
    (mkContext (input0 c) (input1 c) (status c)
       (<[Z.to_nat i := mkTensor oshape (allocated c) 0]> (outputs c))
       (memory c) (S (allocated c)) (split_calls c) (device c))
    host i (allocated c, 0).

Lemma GPU_loop_step n i (c : Ctx) :
  SplitOpGPU_loop allocate_status (S n) i oshape host c
  = SplitOpGPU_loop allocate_status n (i + 1) oshape host (iteration_step i c).
Proof.
  cbn [SplitOpGPU_loop]. unfold allocate_output.
  now rewrite allocate_succeeds.
Qed.

Lemma GPU_loop_spec n : forall i (c : Ctx),
  0 <= i ->
  let r := SplitOpGPU_loop allocate_status n i oshape host c in
  r.2 = true
  /\ input0 r.1 = input0 c /\ input1 r.1 = input1 c /\ status r.1 = status c
  /\ memory r.1 = memory c /\ split_calls r.1 = split_calls c
  /\ allocated r.1 = (allocated c + n)%nat
  /\ (forall j, (j < n)%nat ->
        outputs r.1 !! (Z.to_nat i + j)%nat = Some (mkTensor oshape (allocated c + j) 0))
  /\ (forall k, (k < Z.to_nat i \/ Z.to_nat i + n <= k)%nat ->
        outputs r.1 !! k = outputs c !! k)
  /\ (forall j, (j < n)%nat ->
        slots r.1 !! (Z.to_nat i + j)%nat = Some ((allocated c + j)%nat, 0))
  /\ (forall k, (k < Z.to_nat i \/ Z.to_nat i + n <= k)%nat ->
        slots r.1 !! k = slots c !! k)
  /\ (forall t, t <> host -> temps (device r.1) !! t = temps (device c) !! t).
Proof.
  induction n as [|n IH]; intros i c Hi.
  - cbn. repeat split; try reflexivity; try lia; intros j Hj; lia.
  - cbn zeta. rewrite GPU_loop_step.
    specialize (IH (i + 1) (iteration_step i c) ltac:(lia)). cbn zeta in IH.
    destruct IH as (Hfl & H0 & H1 & H2 & H3 & H4 & H5 & Hin & Hout & Hsin & Hsout & Ht).
    assert (Hslots1 : slots (iteration_step i c)
                      = <[Z.to_nat i := (allocated c, 0)]> (slots c)).
    { unfold slots, iteration_step, store_ptr. cbn [device with_device temps].
      now rewrite lookup_insert_eq. }
    split; [exact Hfl|]. do 5 (split; [assumption|]).
    split; [rewrite H5; cbn; lia|].
    split; [|split; [|split; [|split]]].
    + intros j Hj. destruct j as [|j].
      * rewrite Nat.add_0_r, Hout by lia. cbn.
        rewrite lookup_insert_eq, Nat.add_0_r. reflexivity.
      * replace (Z.to_nat i + S j)%nat with (Z.to_nat (i + 1) + j)%nat by lia.
        rewrite Hin by lia. cbn. do 2 f_equal. lia.
    + intros k Hk. rewrite Hout by lia. cbn. apply lookup_insert_ne. lia.
    + intros j Hj. destruct j as [|j].
      * rewrite Nat.add_0_r, Hsout, Hslots1 by lia.
        rewrite lookup_insert_eq, Nat.add_0_r. reflexivity.
      * replace (Z.to_nat i + S j)%nat with (Z.to_nat (i + 1) + j)%nat by lia.
        rewrite Hsin by lia. cbn. do 2 f_equal. lia.
    + intros k Hk. rewrite Hsout, Hslots1 by lia. apply lookup_insert_ne. lia.
    + intros t Hne. rewrite Ht by assumption.
      unfold iteration_step, store_ptr. cbn [device with_device temps].
      now apply lookup_insert_ne.
Qed.

End GPULoop.

(** *** The device kernel *)

Lemma kernel_loop (m : @Memory T) (input : Ptr) num p sd sx
    (ptrs : gmap nat Ptr) (base : nat) n : forall i (m' : @Memory T),
  0 <= i ->
  (forall j, (Z.to_nat i <= j < Z.to_nat i + n)%nat -> ptrs !! j = Some ((base + j)%nat, 0)) ->
  let piece := sd / num in
  let body := fun (i : Z) (m' : @Memory T) =>
    match ptrs !! Z.to_nat i with
    | Some output_ptr =>
        fun b k =>
          let r := k - output_ptr.2 in
          let a0 := r / (piece * sx) in
          let a1 := (r / sx) mod piece in
          let a2 := r mod sx in
          if bool_decide (b = output_ptr.1) && (0 <=? r) && (r <? p * piece * sx)
          then m input.1 (input.2 + (a0 * sd + (i * piece + a1)) * sx + a2)
          else m' b k
    | None => m'
    end in
  let f := for_loop n i body m' in
  (forall b k, (b < base + Z.to_nat i \/ base + Z.to_nat i + n <= b)%nat ->
     f b k = m' b k)
  /\ (forall (j : nat) a0 a1 a2,
        (Z.to_nat i <= j < Z.to_nat i + n)%nat ->
        0 <= a0 < p -> 0 <= a1 < piece -> 0 <= a2 < sx ->
        f (base + j)%nat ((a0 * piece + a1) * sx + a2)
        = m input.1 (input.2 + (a0 * sd + (Z.of_nat j * piece + a1)) * sx + a2)).
Proof.
  induction n as [|n IH]; intros i m' Hi Hptrs piece body f.
  - cbn in f. subst f. split; [reflexivity|]. intros j a0 a1 a2 Hj. lia.
  - subst f. cbn [for_loop].
    specialize (IH (i + 1) (body i m') ltac:(lia)).
    destruct IH as (Hold & Hnew).
    { intros j Hj. apply Hptrs. lia. }
    fold piece in Hold, Hnew. fold body in Hold, Hnew.
    assert (Hbody : forall b k, b <> (base + Z.to_nat i)%nat -> body i m' b k = m' b k).
    { intros b k Hb. unfold body. rewrite (Hptrs (Z.to_nat i)) by lia.
      cbn [fst snd]. now rewrite (bool_decide_eq_false_2 _ Hb). }
    split.
    + intros b k Hb. rewrite Hold by lia. apply Hbody. lia.
    + intros j a0 a1 a2 Hj H0 H1 H2.
      destruct (decide (j = Z.to_nat i)) as [->|Hne].
      * rewrite Hold by lia. unfold body. rewrite (Hptrs (Z.to_nat i)) by lia.
        cbn [fst snd]. rewrite Z.sub_0_r.
        destruct (decode3 a0 a1 a2 piece sx ltac:(lia) H1 H2) as (Hr & Hd0 & Hd1 & Hd2).
        rewrite Hd0, Hd1, Hd2.
        rewrite bool_decide_eq_true_2 by reflexivity.
        replace (0 <=? (a0 * piece + a1) * sx + a2) with true by (symmetry; lia).
        assert (Hrow : a0 * piece + a1 + 1 <= p * piece) by nia.
        assert (Hlt : (a0 * piece + a1) * sx + a2 < p * piece * sx).
        { apply (Z.mul_le_mono_nonneg_r _ _ sx) in Hrow; [|lia].
          rewrite Z.mul_add_distr_r in Hrow. lia. }
        replace ((a0 * piece + a1) * sx + a2 <? p * piece * sx) with true
          by (symmetry; lia).
        cbn [andb]. now rewrite Z2Nat.id by lia.
      * apply Hnew; first [assumption | lia].
Qed.

(** A buffer filled through the three-axis collapse around axis [d] holds,
    at every multi-index of the resized shape, the input element [k]
    further along [d]. *)
Lemma collapsed_elements (m' m : @Memory T) (input : Tensor) (d : nat) (per : Z)
    (b : nat) (k : Z) :
  (d < length (shape input))%nat ->
  (forall a0 a1 a2,
     0 <= a0 < num_elements (take d (shape input)) ->
     0 <= a1 < per ->
     0 <= a2 < num_elements (drop (S d) (shape input)) ->
     m' b ((a0 * per + a1) * num_elements (drop (S d) (shape input)) + a2)
     = m (buf input)
         (off input
          + (a0 * nth d (shape input) 0 + (k + a1))
            * num_elements (drop (S d) (shape input))
          + a2)) ->
  forall idx, valid_index (<[d := per]> (shape input)) idx ->
    m' b (flat_index (<[d := per]> (shape input)) idx)
    = tensor_at m input (shift_index d k idx).
Proof.
  intros Hd Hcopy idx Hv.
  destruct (collapse_output_index (shape input) idx d per Hd Hv)
    as (Hflat & HA & Hb & HC & Hshift).
  rewrite Hflat, (Hcopy _ _ _ HA Hb HC).
  unfold tensor_at. rewrite Hshift. f_equal. ring.
Qed.

Section GeneralPathGPU.

Hypothesis allocate_succeeds : forall n s, allocate_status n s = OK.
Hypothesis allocate_temp_succeeds : forall n b, allocate_temp_status n b = OK.

Variable num_outputs : Z.
Variable c : Ctx.

Hypothesis fresh_status : status c = OK.
Hypothesis input_shape_wf : shape_wf (shape (input1 c)).
Hypothesis split_dim_in_range : 0 <= input0 c < dims (shape (input1 c)).
Hypothesis several_outputs : 1 < num_outputs.
Hypothesis num_outputs_int32 : fits_int32 num_outputs.
Hypothesis divides :
  Z.rem (dim_size (shape (input1 c)) (input0 c)) num_outputs = 0.
Hypothesis no_fast_path :
  (input0 c =? 0) && IsInnerDimsSizeAligned (shape (input1 c)) = false.
Hypothesis split_size_fits : fits_int32 (dim_size (shape (input1 c)) (input0 c)).

Let d : nat := Z.to_nat (input0 c).
Let P : Z := prefix_product (shape (input1 c)) (input0 c).
Let S' : Z := dim_size (shape (input1 c)) (input0 c).
Let X : Z := suffix_product (shape (input1 c)) (input0 c).
Let per : Z := S' / num_outputs.
Let oshape : list Z := set_dim (shape (input1 c)) (input0 c) per.
Let host : nat := next_temp (device c).
Let gpu : nat := S host.
Let n : nat := Z.to_nat num_outputs.

Let c2 : Ctx :=
  with_device c
    (mkDeviceState (<[host := ∅]> (temps (device c)))
       (<[host := 1%nat]> (refs (device c)))
       gpu (stream (device c)) (stream_ok (device c))).

Let c3 : Ctx :=
  with_device c2
    (mkDeviceState (<[gpu := ∅]> (temps (device c2))) (refs (device c2))
       (S gpu) (stream (device c2)) (stream_ok (device c2))).

Let c4 : Ctx := (SplitOpGPU_loop allocate_status n 0 oshape host c3).1.

Let c7 : Ctx :=
  enqueue
    (enqueue
       (enqueue (TensorReference c4 host)
          (ThenMemcpy gpu host (sizeof_ptr * num_outputs)))
       (ThenExecute_Unref host))
    (SplitOpGPULaunch (data (input1 c)) num_outputs (to_int32 P) S' (to_int32 X) gpu).

Lemma GPU_general_entry :
  GPU num_outputs c
  = Unref
      (if to_int32 (P * per * X) =? 0 then c4
       else if stream_ok (device c7) then c7 else CtxFailure c7 Internal)
      host.
Proof.
  unfold SplitOpGPU_Compute.
  rewrite EasyCases_general, fresh_status by assumption. cbn [ok negb orb].
  rewrite SetDims_wrapped by assumption.
  rewrite per_exact by assumption.
  rewrite (to_int32_id (dim_size _ _)) by exact split_size_fits.
  fold P S' X. fold per. fold oshape.
  assert (Hbytes : to_int64 (sizeof_ptr * num_outputs) = sizeof_ptr * num_outputs).
  { apply to_int64_id. unfold fits_int64, fits_int32, sizeof_ptr in *. lia. }
  rewrite Hbytes.
  unfold allocate_temp at 1. rewrite allocate_temp_succeeds. fold host. fold c2.
  unfold SplitOpGPU_body, allocate_temp. rewrite allocate_temp_succeeds.
  rewrite guard_product.
  change (next_temp (device c2)) with gpu. fold c3. fold n.
  pose proof (GPU_loop_spec allocate_succeeds oshape host n 0 c3 ltac:(lia)) as Hspec.
  cbn zeta in Hspec. destruct Hspec as (Hfl & _).
  unfold c7, c4.
  match goal with
  | |- context [let (_, _) := SplitOpGPU_loop ?a ?b ?i ?o ?h ?cx in _] =>
      destruct (SplitOpGPU_loop a b i o h cx) as [cy fl] eqn:Hloop
  end.
  assert (fl = true) as ->.
  { change fl with (cy, fl).2. rewrite <- Hloop. exact Hfl. }
  assert (Hcy : (SplitOpGPU_loop allocate_status n 0 oshape host c3).1 = cy).
  { change cy with (cy, true).1. rewrite <- Hloop. reflexivity. }
  rewrite Hcy. reflexivity.
Qed.

Lemma GPU_general_summary :
  let g := GPU num_outputs c in
  input0 g = input0 c /\ input1 g = input1 c
  /\ memory g = memory c /\ split_calls g = split_calls c
  /\ allocated g = (allocated c + n)%nat
  /\ (forall j, (j < n)%nat ->
        outputs g !! j = Some (mkTensor oshape (allocated c + j) 0))
  /\ (forall k, (n <= k)%nat -> outputs g !! k = outputs c !! k)
  /\ (to_int32 (P * per * X) = 0 ->
      status g = OK /\ stream (device g) = stream (device c))
  /\ (to_int32 (P * per * X) <> 0 ->
      status g = (if stream_ok (device c) then OK else Internal)
      /\ stream (device g)
         = stream (device c)
           ++ [ThenMemcpy gpu host (sizeof_ptr * num_outputs);
               ThenExecute_Unref host;
               SplitOpGPULaunch (data (input1 c)) num_outputs
                 (to_int32 P) S' (to_int32 X) gpu]
      /\ refs (device g) !! host = Some 1%nat
      /\ (forall j, (j < n)%nat ->
            default ∅ (temps (device g) !! host) !! j
            = Some ((allocated c + j)%nat, 0))).
Proof.
  intros g. subst g. rewrite GPU_general_entry.
  pose proof (GPU_loop_spec allocate_succeeds oshape host n 0 c3 ltac:(lia)) as Hspec.
  pose proof (GPU_loop_device n oshape host 0 c3) as Hdev.
  cbn zeta in Hspec, Hdev. fold c4 in Hspec, Hdev.
  destruct Hspec as (_ & H0 & H1 & H2 & H3 & H4 & H5 & Hin & Hout & Hsin & _ & _).
  destruct Hdev as (Hrefs & Hstream & Hok & _).
  cbn [c3 c2 input0 input1 status memory split_calls allocated outputs device
       with_device refs stream stream_ok] in H0, H1, H2, H3, H4, H5, Hin, Hout, Hsin,
       Hrefs, Hstream, Hok.
  assert (Hc7 : (if stream_ok (device c7) then c7 else CtxFailure c7 Internal)
                = with_status c7 (if stream_ok (device c) then OK else Internal)).
  { assert (Hok7 : stream_ok (device c7) = stream_ok (device c)) by exact Hok.
    rewrite Hok7. destruct (stream_ok (device c)).
    - symmetry. apply with_status_same. change (status c4 = OK). congruence.
    - apply CtxFailure_fresh. change (status c4 = OK). congruence. }
  destruct (to_int32 (P * per * X) =? 0) eqn:Hguard.
  - apply Z.eqb_eq in Hguard. cbn.
    split; [assumption|]. split; [assumption|]. split; [assumption|].
    split; [assumption|]. split; [assumption|].
    split; [exact Hin|]. split; [intros k Hk; apply Hout; lia|].
    split; [intros _; split; congruence|].
    intros Hne. contradiction.
  - apply Z.eqb_neq in Hguard. rewrite Hc7. cbn.
    split; [assumption|]. split; [assumption|]. split; [assumption|].
    split; [assumption|]. split; [assumption|].
    split; [exact Hin|]. split; [intros k Hk; apply Hout; lia|].
    split; [intros Heq; contradiction|].
    intros _. split; [reflexivity|].
    split; [now rewrite Hstream, <- !app_assoc|].
    split; [rewrite Hrefs, !lookup_alter_eq, lookup_insert_eq; reflexivity|].
    exact Hsin.
Qed.

Hypothesis input_live : (buf (input1 c) < allocated c)%nat.
Hypothesis stream_empty : stream (device c) = [].
Hypothesis prefix_fits : fits_int32 P.
Hypothesis suffix_fits : fits_int32 X.
Hypothesis piece_fits : fits_int32 (P * per * X).
Hypothesis input_fits : fits_int32 (P * S' * X).
Hypothesis stream_healthy : stream_ok (device c) = true.

(** Once the device has drained a healthy stream, the outputs of the GPU
    executor hold the slices of the input. *)
Lemma GPU_general_stream :
  let g := GPU num_outputs c in
  exists g',
    run_stream g = Some g'
    /\ status g' = status g
    /\ outputs g' = outputs g
    /\ (forall b k, (b < allocated c)%nat -> memory g' b k = memory c b k)
    /\ (forall (j : nat) idx,
          (j < n)%nat -> valid_index oshape idx ->
          memory g' (allocated c + j)%nat (flat_index oshape idx)
          = tensor_at (memory c) (input1 c) (shift_index d (Z.of_nat j * per) idx)).
Proof.
  intros g.
  destruct GPU_general_summary
    as (_ & _ & Hmem & _ & _ & _ & _ & Hzero & Hlaunch).
  fold g in Hmem, Hzero, Hlaunch.
  rewrite (to_int32_id _ piece_fits) in Hzero, Hlaunch.
  rewrite (to_int32_id _ prefix_fits), (to_int32_id _ suffix_fits) in Hlaunch.
  assert (Hd : (d < length (shape (input1 c)))%nat) by (unfold dims in *; lia).
  destruct (decide (P * per * X = 0)) as [Hguard|Hguard].
  - destruct (Hzero Hguard) as (_ & Hstream).
    exists g. unfold run_stream. rewrite Hstream, stream_empty.
    split; [reflexivity|]. split; [reflexivity|]. split; [reflexivity|].
    split; [intros b k _; now rewrite Hmem|].
    intros j idx _ Hv. exfalso.
    destruct (collapse_output_index (shape (input1 c)) idx d per Hd Hv)
      as (_ & HA & Hb & HC & _).
    change (num_elements (take d (shape (input1 c)))) with P in HA.
    change (num_elements (drop (S d) (shape (input1 c)))) with X in HC.
    assert (0 < P * per * X) by (apply Z.mul_pos_pos; [apply Z.mul_pos_pos|]; lia).
    lia.
  - destruct (Hlaunch Hguard) as (_ & Hstream & Hrefs & Hslots).
    rewrite stream_empty in Hstream. cbn [app] in Hstream.
    pose proof (GPU_stream_ok num_outputs c) as Hsok. fold g in Hsok.
    rewrite stream_healthy in Hsok.
    unfold run_stream. rewrite Hstream. cbn [exec_ops].
    unfold exec_op at 1. rewrite Hrefs.
    cbn [exec_ops exec_op Unref device with_device temps refs memory stream_ok].
    rewrite Hsok.
    rewrite lookup_insert_eq. cbn [default from_option id].
    eexists. split; [reflexivity|].
    cbn [status outputs memory].
    split; [reflexivity|]. split; [reflexivity|].
    set (ptrs := filter _ _).
    assert (Hptrs : forall j, (Z.to_nat 0 <= j < Z.to_nat 0 + n)%nat ->
              ptrs !! j = Some ((allocated c + j)%nat, 0)).
    { intros j Hj. unfold ptrs. apply map_lookup_filter_Some_2.
      - apply Hslots. lia.
      - cbn. unfold sizeof_ptr. rewrite (Z.mul_comm 8), Z.div_mul by lia. lia. }
    unfold SplitOpGPULaunch_Run.
    rewrite !in_int32_fits by assumption. cbn [andb negb].
    unfold for_range. rewrite Z.sub_0_r. fold n.
    destruct (kernel_loop (memory g) (data (input1 c)) num_outputs P S' X ptrs
                (allocated c) n 0 (memory g) ltac:(lia) Hptrs) as (Hold & Hnew).
    split.
    + intros b k Hb. rewrite Hold by lia. now rewrite Hmem.
    + intros j idx Hj Hv.
      apply (collapsed_elements _ (memory c) (input1 c) d per (allocated c + j)
               (Z.of_nat j * per) Hd); [|exact Hv].
      intros a0 a1 a2 H0 H1 H2.
      pose proof (Hnew j a0 a1 a2 ltac:(lia) H0 H1 H2) as Hcopy.
      etransitivity; [exact Hcopy|].
      rewrite Hmem. reflexivity.
Qed.

End GeneralPathGPU.

(** *** Empty outputs *)

(** C7, as amended: on a fresh invocation with valid arguments whose outputs
    have no element, on the identity path, on the dim-0 slice path, and on
    the general path provided there the allocators serve every request and
    the split-axis size fits in a signed 32-bit integer, both executors
    complete with status OK, set all num_split outputs with the input's
    shape except dimension split_dim set to split_dim_size / num_split,
    never invoke the strided-copy primitive and enqueue nothing on the
    stream (no copy, no callback, no kernel launch). *)
Theorem empty_outputs_no_copy num_outputs (c : Ctx) :
  status c = OK ->
  shape_wf (shape (input1 c)) ->
  0 <= input0 c < dims (shape (input1 c)) ->
  0 < num_outputs ->
  fits_int32 num_outputs ->
  Z.rem (dim_size (shape (input1 c)) (input0 c)) num_outputs = 0 ->
  let per_split := dim_size (shape (input1 c)) (input0 c) / num_outputs in
  let output_shape := set_dim (shape (input1 c)) (input0 c) per_split in
  num_elements output_shape = 0 ->
  (num_outputs <> 1 ->
   (input0 c =? 0) && IsInnerDimsSizeAligned (shape (input1 c)) = false ->
   (forall n s, allocate_status n s = OK)
   /\ (forall n b, allocate_temp_status n b = OK)
   /\ fits_int32 (dim_size (shape (input1 c)) (input0 c))) ->
  forall c', c' = CPU num_outputs c \/ c' = GPU num_outputs c ->
    status c' = OK
    /\ (forall i, 0 <= i < num_outputs ->
          exists t, outputs c' !! Z.to_nat i = Some t /\ shape t = output_shape)
    /\ split_calls c' = split_calls c
    /\ stream (device c') = stream (device c).
Proof.
  intros Hok Hwf Hd Hnum Hnum32 Hrem per oshape Hempty Hgeneral c' Hc'.
  assert (Hdlt : (Z.to_nat (input0 c) < length (shape (input1 c)))%nat)
    by (unfold dims in Hd; lia).
  destruct (decide (num_outputs = 1)) as [->|Hne].
  - (* identity *)
    destruct (Compute_identity c Hok Hd) as (_ & Hcpu & Hgpu).
    assert (c' = set_output c 0 (input1 c)) as ->
      by (destruct Hc' as [-> | ->]; assumption).
    cbn. split; [exact Hok|]. split; [|split; reflexivity].
    intros i Hi. exists (input1 c). replace i with 0 by lia.
    split; [apply lookup_insert_eq|].
    unfold oshape, per, set_dim. rewrite Z.div_1_r.
    symmetry. apply list_insert_id. now apply lookup_nth.
  - destruct ((input0 c =? 0) && IsInnerDimsSizeAligned (shape (input1 c))) eqn:Hfast.
    + (* dim-0 slices *)
      apply andb_true_iff in Hfast as [Hzero%Z.eqb_eq Haligned].
      pose proof Hrem as Hrem0. rewrite Hzero in Hrem0.
      destruct (dim0_slice_summary num_outputs c Hok Hwf Hzero ltac:(lia) ltac:(lia)
                  Hrem0 Haligned) as (Hgpu & Hst & _ & _ & Hcalls & Hdev & Hslices).
      assert (c' = CPU num_outputs c) as ->
        by (destruct Hc' as [-> | ->]; [reflexivity|exact Hgpu]).
      split; [exact Hst|]. split; [|split; [exact Hcalls|now rewrite Hdev]].
      intros i Hi. destruct (Hslices i Hi) as (t & Ht & _ & _ & _ & Hsh & _).
      exists t. split; [exact Ht|]. rewrite Hsh. unfold oshape, per. now rewrite Hzero.
    + (* general path *)
      destruct (Hgeneral Hne eq_refl) as (Halloc & Htemp & HS).
      pose proof (per_nonneg' num_outputs c Hwf ltac:(lia)) as Hper.
      pose proof (per_times_num num_outputs c Hwf ltac:(lia) Hrem) as Hmul.
      fold per in Hper, Hmul.
      assert (Hprod : prefix_product (shape (input1 c)) (input0 c) * per
                      * suffix_product (shape (input1 c)) (input0 c) = 0).
      { unfold oshape, set_dim in Hempty.
        now rewrite num_elements_resized in Hempty by assumption. }
      destruct Hc' as [-> | ->].
      * rewrite CPU_general_entry by first [assumption | lia]. fold per oshape.
        unfold fits_int32 in HS.
        match goal with
        | |- context [SplitOpCPU_loop _ _ 0 (0, 0, 0) ?view oshape ?p per ?s c] =>
            destruct (CPU_loop_frame Halloc view oshape p per s
                        Hper (Z.to_nat num_outputs) 0 0 c
                        ltac:(lia) ltac:(lia) ltac:(nia))
              as (_ & _ & Hst & Hdev & _ & Hin & _ & Hcalls)
        end.
        rewrite guard_product, Hprod in Hcalls. cbn in Hcalls.
        rewrite app_nil_r in Hcalls.
        split; [congruence|]. split; [|split; [exact Hcalls|now rewrite Hdev]].
        intros i Hi. eexists. split; [apply (Hin (Z.to_nat i)); lia|reflexivity].
      * destruct (GPU_general_summary Halloc Htemp num_outputs c Hok Hwf Hd
                    ltac:(lia) Hnum32 Hrem Hfast HS)
          as (_ & _ & _ & Hcalls & _ & Hin & _ & Hzero & _).
        fold per oshape in Hin, Hzero. rewrite Hprod in Hzero.
        destruct (Hzero eq_refl) as (Hst & Hstream).
        split; [exact Hst|]. split; [|split; [exact Hcalls|exact Hstream]].
        intros i Hi. eexists. split; [apply (Hin (Z.to_nat i)); lia|reflexivity].
Qed.

(** *** The two executors *)

(** The checks of both executors pass when [ComputeEasyCases] has settled
    the invocation. *)
Lemma checks_when_settled num_outputs (c : Ctx) :
  negb (ok (status (EasyCases num_outputs c).1)) || (EasyCases num_outputs c).2 = true ->
  SplitOpCPU_checks IsInnerDimsSizeAligned allocate_status num_outputs c = true
  /\ SplitOpGPU_checks IsInnerDimsSizeAligned num_outputs c = true.
Proof.
  intros H. unfold SplitOpCPU_checks, SplitOpGPU_checks.
  destruct (EasyCases num_outputs c) as [c1 done]. cbn [fst snd] in H.
  rewrite H. split; reflexivity.
Qed.

(** On the general path the output shape passes its check when the
    split-axis size fits in 32 bits. *)
Lemma GPU_checks_general num_outputs (c : Ctx) :
  status c = OK ->
  shape_wf (shape (input1 c)) ->
  0 <= input0 c < dims (shape (input1 c)) ->
  1 < num_outputs ->
  Z.rem (dim_size (shape (input1 c)) (input0 c)) num_outputs = 0 ->
  (input0 c =? 0) && IsInnerDimsSizeAligned (shape (input1 c)) = false ->
  fits_int32 (dim_size (shape (input1 c)) (input0 c)) ->
  SplitOpGPU_checks IsInnerDimsSizeAligned num_outputs c = true.
Proof.
  intros Hok Hwf Hd Hnum Hrem Hgen HS. unfold SplitOpGPU_checks.
  rewrite EasyCases_general, Hok by assumption. cbn [ok negb orb].
  rewrite SetDims_wrapped by assumption.
  rewrite (per_exact num_outputs c) by assumption.
  pose proof (per_nonneg' num_outputs c Hwf Hnum) as Hper.
  unfold set_dim_valid. rewrite !andb_true_iff. lia.
Qed.

(** On the general path the views of the CPU executor pass their checks
    when the collapsed sizes and the element count fit in 32 bits. *)
Lemma CPU_checks_general num_outputs (c : Ctx) :
  status c = OK ->
  shape_wf (shape (input1 c)) ->
  0 <= input0 c < dims (shape (input1 c)) ->
  1 < num_outputs ->
  Z.rem (dim_size (shape (input1 c)) (input0 c)) num_outputs = 0 ->
  (input0 c =? 0) && IsInnerDimsSizeAligned (shape (input1 c)) = false ->
  fits_int32 (prefix_product (shape (input1 c)) (input0 c)) ->
  fits_int32 (dim_size (shape (input1 c)) (input0 c)) ->
  fits_int32 (suffix_product (shape (input1 c)) (input0 c)) ->
  fits_int32 (num_elements (shape (input1 c))) ->
  SplitOpCPU_checks IsInnerDimsSizeAligned allocate_status num_outputs c = true.
Proof.
  intros Hok Hwf Hd Hnum Hrem Hgen HP HS HX HN. unfold SplitOpCPU_checks.
  rewrite EasyCases_general, Hok by assumption. cbn [ok negb orb].
  rewrite SetDims_wrapped by assumption.
  rewrite (per_exact num_outputs c) by assumption.
  rewrite !to_int32_id by assumption.
  pose proof (per_nonneg' num_outputs c Hwf Hnum) as Hper.
  pose proof (per_times_num num_outputs c Hwf Hnum Hrem) as Hmul.
  assert (Hdlt : (Z.to_nat (input0 c) < length (shape (input1 c)))%nat)
    by (unfold dims in Hd; lia).
  pose proof (num_elements_split (shape (input1 c)) (Z.to_nat (input0 c)) Hdlt) as Hsplit.
  pose proof (num_elements_nonneg _ (shape_wf_take _ (Z.to_nat (input0 c)) Hwf)) as HP0.
  pose proof (num_elements_nonneg _ (shape_wf_drop _ (S (Z.to_nat (input0 c))) Hwf))
    as HX0.
  unfold prefix_product, suffix_product, dim_size in *.
  set (P := num_elements (take (Z.to_nat (input0 c)) (shape (input1 c)))) in *.
  set (X := num_elements (drop (S (Z.to_nat (input0 c))) (shape (input1 c)))) in *.
  set (S' := nth (Z.to_nat (input0 c)) (shape (input1 c)) 0) in *.
  set (per := S' / num_outputs) in *.
  unfold fits_int32 in HP, HS, HX, HN.
  assert (HperS : per <= S') by nia.
  assert (HPS : 0 <= P * S' < 2 ^ 62) by nia.
  assert (HPper : 0 <= P * per <= P * S') by nia.
  assert (Hpiece : 0 <= P * per * X <= P * S' * X) by nia.
  rewrite !andb_true_iff. split; [split|].
  - unfold shaped_valid.
    rewrite (to_int64_id (P * S')) by (unfold fits_int64; lia).
    rewrite to_int64_id by (unfold fits_int64; lia).
    apply Z.eqb_eq. lia.
  - unfold set_dim_valid. rewrite !andb_true_iff. lia.
  - destruct (ok _ && (0 <? _)); [|reflexivity].
    unfold shaped_valid, set_dim. cbn [shape].
    rewrite num_elements_resized by exact Hdlt. fold P X.
    rewrite (to_int64_id (P * per)) by (unfold fits_int64; lia).
    rewrite to_int64_id by (unfold fits_int64; lia).
    apply Z.eqb_eq. reflexivity.
Qed.

(** C8, as amended: on a fresh invocation with valid arguments, an empty
    stream and the input in a live buffer, on the identity path, on the
    dim-0 slice path, and on the general path provided there the allocators
    serve every request, the stream is healthy and the prefix product, the
    split-axis size, the suffix product and the element count of the input
    each fit in a signed 32-bit integer, both executors return (no check
    terminates the process), both with status OK, and the outputs of the
    GPU executor once the device has drained the stream are those of the
    CPU executor: the same output handles at the same indices (hence the
    same number of outputs and the same shapes) and, at every multi-index
    of every output, the same element. *)
Theorem CPU_GPU_same_outputs num_outputs (c : Ctx) :
  status c = OK ->
  shape_wf (shape (input1 c)) ->
  (buf (input1 c) < allocated c)%nat ->
  stream (device c) = [] ->
  0 <= input0 c < dims (shape (input1 c)) ->
  0 < num_outputs ->
  fits_int32 num_outputs ->
  Z.rem (dim_size (shape (input1 c)) (input0 c)) num_outputs = 0 ->
  (num_outputs <> 1 ->
   (input0 c =? 0) && IsInnerDimsSizeAligned (shape (input1 c)) = false ->
   (forall n s, allocate_status n s = OK)
   /\ (forall n b, allocate_temp_status n b = OK)
   /\ stream_ok (device c) = true
   /\ fits_int32 (prefix_product (shape (input1 c)) (input0 c))
   /\ fits_int32 (dim_size (shape (input1 c)) (input0 c))
   /\ fits_int32 (suffix_product (shape (input1 c)) (input0 c))
   /\ fits_int32 (num_elements (shape (input1 c)))) ->
  let cpu := CPU num_outputs c in
  SplitOpCPU_run IsInnerDimsSizeAligned allocate_status num_outputs c = Returned cpu
  /\ SplitOpGPU_run IsInnerDimsSizeAligned allocate_status allocate_temp_status
       num_outputs c
     = Returned (GPU num_outputs c)
  /\ exists gpu,
       run_stream (GPU num_outputs c) = Some gpu
       /\ status cpu = OK
       /\ status gpu = OK
       /\ outputs gpu = outputs cpu
       /\ forall i t,
            (i < Z.to_nat num_outputs)%nat -> outputs cpu !! i = Some t ->
            forall idx, valid_index (shape t) idx ->
              tensor_at (memory gpu) t idx = tensor_at (memory cpu) t idx.
Proof.
  intros Hok Hwf Hlive Hstream Hd Hnum Hnum32 Hrem Hgeneral cpu.
  assert (Hruns : forall bc bg : bool,
            SplitOpCPU_checks IsInnerDimsSizeAligned allocate_status num_outputs c = bc ->
            SplitOpGPU_checks IsInnerDimsSizeAligned num_outputs c = bg ->
            bc = true -> bg = true ->
            SplitOpCPU_run IsInnerDimsSizeAligned allocate_status num_outputs c
            = Returned cpu
            /\ SplitOpGPU_run IsInnerDimsSizeAligned allocate_status allocate_temp_status
                 num_outputs c
               = Returned (GPU num_outputs c)).
  { intros bc bg Hc Hg -> ->. unfold SplitOpCPU_run, SplitOpGPU_run.
    rewrite Hc, Hg. split; reflexivity. }
  assert (Hsame : GPU num_outputs c = cpu -> stream (device cpu) = [] ->
                  status cpu = OK ->
                  exists gpu,
                    run_stream (GPU num_outputs c) = Some gpu
                    /\ status cpu = OK
                    /\ status gpu = OK
                    /\ outputs gpu = outputs cpu
                    /\ forall i t,
                         (i < Z.to_nat num_outputs)%nat -> outputs cpu !! i = Some t ->
                         forall idx, valid_index (shape t) idx ->
                           tensor_at (memory gpu) t idx = tensor_at (memory cpu) t idx).
  { intros Hgpu Hs Hst. exists cpu. rewrite Hgpu. unfold run_stream. rewrite Hs.
    split; [reflexivity|]. split; [exact Hst|]. split; [exact Hst|].
    split; reflexivity. }
  destruct (decide (num_outputs = 1)) as [->|Hne].
  - destruct (Compute_identity c Hok Hd) as (Heasy & Hcpu & Hgpu). fold cpu in Hcpu.
    destruct (checks_when_settled 1 c) as (Hcc & Hgc).
    { rewrite Heasy. cbn [fst snd]. apply orb_true_r. }
    destruct (Hruns _ _ Hcc Hgc eq_refl eq_refl) as (Hrc & Hrg).
    split; [exact Hrc|]. split; [exact Hrg|].
    apply Hsame; rewrite ?Hcpu; [exact Hgpu|exact Hstream|exact Hok].
  - destruct ((input0 c =? 0) && IsInnerDimsSizeAligned (shape (input1 c))) eqn:Hfast.
    + pose proof Hfast as Hfast'.
      apply andb_true_iff in Hfast as [Hzero%Z.eqb_eq Haligned].
      pose proof Hrem as Hrem0. rewrite Hzero in Hrem0.
      destruct (dim0_slice_summary num_outputs c Hok Hwf Hzero ltac:(lia) ltac:(lia)
                  Hrem0 Haligned) as (Hgpu & Hst & _ & _ & _ & Hdev & _).
      fold cpu in Hgpu, Hst, Hdev.
      destruct (checks_when_settled num_outputs c) as (Hcc & Hgc).
      { rewrite (EasyCases_valid num_outputs c Hd Hnum Hrem).
        replace (num_outputs =? 1) with false by (symmetry; lia).
        rewrite Hfast'. cbn [fst snd]. apply orb_true_r. }
      destruct (Hruns _ _ Hcc Hgc eq_refl eq_refl) as (Hrc & Hrg).
      split; [exact Hrc|]. split; [exact Hrg|].
      apply Hsame; [exact Hgpu|now rewrite Hdev|exact Hst].
    + clear Hsame.
      destruct (Hgeneral Hne eq_refl) as (Halloc & Htemp & Hhealthy & HP & HS & HX & HN).
      assert (Hnum1 : 1 < num_outputs) by lia.
      pose proof (CPU_checks_general num_outputs c Hok Hwf Hd Hnum1 Hrem Hfast
                    HP HS HX HN) as Hcc.
      pose proof (GPU_checks_general num_outputs c Hok Hwf Hd Hnum1 Hrem Hfast HS) as Hgc.
      destruct (Hruns _ _ Hcc Hgc eq_refl eq_refl) as (Hrc & Hrg).
      split; [exact Hrc|]. split; [exact Hrg|].
      assert (Htotal : prefix_product (shape (input1 c)) (input0 c)
                       * dim_size (shape (input1 c)) (input0 c)
                       * suffix_product (shape (input1 c)) (input0 c)
                       = num_elements (shape (input1 c))).
      { unfold prefix_product, suffix_product, dim_size. symmetry.
        apply num_elements_split. unfold dims in Hd. lia. }
      assert (Hinput : fits_int32
                         (prefix_product (shape (input1 c)) (input0 c)
                          * dim_size (shape (input1 c)) (input0 c)
                          * suffix_product (shape (input1 c)) (input0 c)))
        by (rewrite Htotal; exact HN).
      assert (Hpiece : fits_int32
                         (prefix_product (shape (input1 c)) (input0 c)
                          * (dim_size (shape (input1 c)) (input0 c) / num_outputs)
                          * suffix_product (shape (input1 c)) (input0 c))).
      { pose proof (per_nonneg' num_outputs c Hwf Hnum1) as Hper.
        pose proof (per_times_num num_outputs c Hwf Hnum1 Hrem) as Hmul.
        pose proof (num_elements_nonneg _
                      (shape_wf_take _ (Z.to_nat (input0 c)) Hwf)) as HP0.
        pose proof (num_elements_nonneg _
                      (shape_wf_drop _ (S (Z.to_nat (input0 c))) Hwf)) as HX0.
        unfold prefix_product, suffix_product in *.
        set (P := num_elements (take (Z.to_nat (input0 c)) (shape (input1 c)))) in *.
        set (X := num_elements (drop (S (Z.to_nat (input0 c))) (shape (input1 c)))) in *.
        set (S' := dim_size (shape (input1 c)) (input0 c)) in *.
        set (per := S' / num_outputs) in *.
        unfold fits_int32 in *.
        assert (0 <= P * per <= P * S') by nia.
        assert (0 <= P * per * X <= P * S' * X) by nia.
        lia. }
      destruct (CPU_general_summary Halloc num_outputs c Hok Hwf Hlive Hd
                  Hnum1 Hrem Hfast HP HS HX Hpiece)
        as (Hst & _ & _ & _ & _ & Hin & Hout & _ & _ & Helem).
      fold cpu in Hst, Hin, Hout, Helem.
      destruct (GPU_general_summary Halloc Htemp num_outputs c Hok Hwf Hd
                  Hnum1 Hnum32 Hrem Hfast HS)
        as (_ & _ & _ & _ & _ & Gin & Gout & Gzero & Glaunch).
      destruct (GPU_general_stream Halloc Htemp num_outputs c Hok Hwf Hd
                  Hnum1 Hnum32 Hrem Hfast HS Hlive Hstream HP HX Hpiece Hinput Hhealthy)
        as (gpu & Hrun & Gst & Gouts & _ & Gelem).
      exists gpu. split; [exact Hrun|]. split; [exact Hst|].
      split; [|split].
      * rewrite Gst.
        destruct (decide (to_int32
                            (prefix_product (shape (input1 c)) (input0 c)
                             * (dim_size (shape (input1 c)) (input0 c) / num_outputs)
                             * suffix_product (shape (input1 c)) (input0 c)) = 0))
          as [Hz|Hnz].
        -- now destruct (Gzero Hz).
        -- destruct (Glaunch Hnz) as (-> & _). now rewrite Hhealthy.
      * rewrite Gouts. apply map_eq. intros k.
        destruct (decide (k < Z.to_nat num_outputs)%nat) as [Hk|Hk].
        -- now rewrite Gin, Hin.
        -- now rewrite Gout, Hout by lia.
      * intros i t Hi Ht idx Hv. rewrite (Hin i Hi) in Ht.
        injection Ht as <-. unfold tensor_at. cbn [shape buf off] in *.
        rewrite !Z.add_0_l, (Gelem i idx Hi Hv), (Helem i idx Hi Hv). reflexivity.
Qed.

End Kernel.

(** ** The kernel on concrete invocations *)

(** Shape (2, 6) split in two along axis 1: output 0 is input[:, 0:3] and
    output 1 is input[:, 3:6]. *)
Example split_2_6_axis1 :
  let c' := SplitOpCPU_Compute never_aligned allocate_always 2 (fresh_context [2; 6] 1) in
  status c' = OK
  /\ flat_data (memory c') <$> outputs c' !! 0%nat = Some [100; 101; 102; 106; 107; 108]
  /\ flat_data (memory c') <$> outputs c' !! 1%nat = Some [103; 104; 105; 109; 110; 111]
  /\ shape <$> outputs c' !! 1%nat = Some [2; 3].
Proof. vm_compute. repeat split. Qed.

(** The same split on the GPU executor, once the stream has run. *)
Example split_2_6_axis1_gpu :
  (fun g => (status g,
             flat_data (memory g) <$> outputs g !! 0%nat,
             flat_data (memory g) <$> outputs g !! 1%nat,
             refs (device g) !! 0%nat))
    <$> run_stream (SplitOpGPU_Compute never_aligned allocate_always
                      allocate_temp_always 2 (fresh_context [2; 6] 1))
  = Some (OK, Some [100; 101; 102; 106; 107; 108],
          Some [103; 104; 105; 109; 110; 111], Some 0%nat).
Proof. vm_compute. reflexivity. Qed.

(** Shape (6, 2) split in three along axis 0 with aligned rows: three
    slices of the input's buffer, rows [0:2), [2:4) and [4:6). *)
Example split_6_2_axis0 :
  let c' := SplitOpCPU_Compute always_aligned allocate_always 3 (fresh_context [6; 2] 0) in
  status c' = OK
  /\ allocated c' = 1%nat
  /\ outputs c' !! 0%nat = Some (mkTensor [2; 2] 0 0)
  /\ outputs c' !! 1%nat = Some (mkTensor [2; 2] 0 4)
  /\ outputs c' !! 2%nat = Some (mkTensor [2; 2] 0 8)
  /\ flat_data (memory c') <$> outputs c' !! 2%nat = Some [108; 109; 110; 111].
Proof. vm_compute. repeat split. Qed.

(** Rejected invocations: split_dim = -1, num_split = 0, and (4, 3) split
    in three along axis 0. *)
Example rejected_invocations :
  status (SplitOpCPU_Compute always_aligned allocate_always 2 (fresh_context [4; 3] (-1)))
  = InvalidArgument
  /\ status (SplitOpCPU_Compute always_aligned allocate_always 0 (fresh_context [4; 3] 0))
     = InvalidArgument
  /\ status (SplitOpCPU_Compute always_aligned allocate_always 3 (fresh_context [4; 3] 0))
     = InvalidArgument.
Proof. vm_compute. repeat split. Qed.

Lemma invalid_arguments_rejected_witness :
  status (SplitOpCPU_Compute always_aligned allocate_always 3 (fresh_context [4; 3] 0))
  = InvalidArgument
  /\ outputs (SplitOpCPU_Compute always_aligned allocate_always 3 (fresh_context [4; 3] 0))
     = ∅.
Proof.
  destruct (invalid_arguments_rejected always_aligned allocate_always
              allocate_temp_always 3 (fresh_context [4; 3] 0))
    as (_ & _ & _ & H).
  - reflexivity.
  - right. right. vm_compute. discriminate.
  - destruct (H _ (or_introl eq_refl)) as (Hst & Hout & _).
    split; [exact Hst|exact Hout].
Defined.

Lemma identity_case_witness :
  outputs (SplitOpCPU_Compute always_aligned allocate_always 1 (fresh_context [2; 6] 1))
  = {[ 0%nat := mkTensor [2; 6] 0 0 ]}
  /\ allocated
       (SplitOpCPU_Compute always_aligned allocate_always 1 (fresh_context [2; 6] 1))
     = 1%nat.
Proof.
  destruct (identity_case always_aligned allocate_always allocate_temp_always
              (fresh_context [2; 6] 1))
    as (_ & _ & _ & H).
  - reflexivity.
  - vm_compute. intuition discriminate.
  - destruct (H _ (or_introl eq_refl)) as (_ & _ & Hout & Halloc & _).
    split; [exact (Hout eq_refl)|exact Halloc].
Defined.

Lemma dim0_slice_case_witness :
  outputs (SplitOpCPU_Compute always_aligned allocate_always 3 (fresh_context [6; 2] 0))
    !! 1%nat
  = Some (mkTensor [2; 2] 0 4)
  /\ allocated
       (SplitOpCPU_Compute always_aligned allocate_always 3 (fresh_context [6; 2] 0))
     = 1%nat.
Proof.
  destruct (dim0_slice_case always_aligned allocate_always allocate_temp_always 3
              (fresh_context [6; 2] 0))
    as (_ & _ & _ & Halloc & _ & _ & H).
  - reflexivity.
  - repeat constructor; lia.
  - reflexivity.
  - vm_compute. reflexivity.
  - lia.
  - reflexivity.
  - reflexivity.
  - destruct (H 1 ltac:(lia)) as (t & Ht & -> & _).
    split; [exact Ht|exact Halloc].
Defined.

Lemma general_path_outputs_witness :
  exists t,
    outputs (SplitOpCPU_Compute never_aligned allocate_always 2 (fresh_context [2; 6] 1))
      !! 1%nat = Some t
    /\ shape t = [2; 3]
    /\ tensor_at
         (memory (SplitOpCPU_Compute never_aligned allocate_always 2
                    (fresh_context [2; 6] 1)))
         t [1; 2]
       = 111.
Proof.
  destruct (general_path_outputs never_aligned allocate_always 2
              (fresh_context [2; 6] 1))
    as (_ & H & _).
  - intros; reflexivity.
  - reflexivity.
  - repeat constructor; lia.
  - cbn. lia.
  - vm_compute. intuition discriminate.
  - lia.
  - reflexivity.
  - discriminate.
  - reflexivity.
  - vm_compute. intuition discriminate.
  - vm_compute. intuition discriminate.
  - vm_compute. intuition discriminate.
  - vm_compute. intuition discriminate.
  - destruct (H 1 ltac:(lia)) as (t & Ht & Hsh & _ & Hel).
    exists t. split; [exact Ht|]. split; [exact Hsh|].
    rewrite Hel.
    + reflexivity.
    + rewrite Hsh. repeat constructor; lia.
Defined.

(** C1 as stated fails: the shape (65536, 2, 32768) split in two along
    axis 1 is a valid invocation on the general path, but the element count
    of one output, 2^31, wraps to a negative int32 in the guard of line 148:
    the copy primitive is never invoked and the outputs keep the contents
    of their fresh buffers. *)
Lemma general_path_overflow :
  let c := fresh_context [65536; 2; 32768] 1 in
  let c' := SplitOpCPU_Compute never_aligned allocate_always 2 c in
  shape_wf (shape (input1 c))
  /\ 0 <= input0 c < dims (shape (input1 c))
  /\ Z.rem (dim_size (shape (input1 c)) (input0 c)) 2 = 0
  /\ ComputeEasyCases never_aligned 2 c = (c, false)
  /\ status c' = OK
  /\ split_calls c' = []
  /\ outputs c' !! 0%nat = Some (mkTensor [65536; 1; 32768] 1 0)
  /\ valid_index [65536; 1; 32768] [0; 0; 0]
  /\ tensor_at (memory c') (mkTensor [65536; 1; 32768] 1 0) [0; 0; 0] = -1
  /\ tensor_at (memory c) (input1 c) (shift_index 1 (0 * 1) [0; 0; 0]) = 100
  /\ tensor_at (memory c') (mkTensor [65536; 1; 32768] 1 0) [0; 0; 0]
     <> tensor_at (memory c) (input1 c) (shift_index 1 (0 * 1) [0; 0; 0]).
Proof.
  cbv zeta. repeat split; try (repeat constructor; lia); try reflexivity.
  - vm_compute. discriminate.
  - vm_compute. discriminate.
Qed.

Lemma split_round_trip_witness :
  concat_shape 1
    (shape <$> output_list
                 (SplitOpCPU_Compute never_aligned allocate_always 2
                    (fresh_context [2; 6] 1)) 2)
  = [2; 6]
  /\ concat_at
       (memory (SplitOpCPU_Compute never_aligned allocate_always 2
                  (fresh_context [2; 6] 1)))
       1
       (output_list
          (SplitOpCPU_Compute never_aligned allocate_always 2
             (fresh_context [2; 6] 1)) 2)
       [1; 4]
     = Some 110.
Proof.
  destruct (split_round_trip never_aligned allocate_always allocate_temp_always 2
              (fresh_context [2; 6] 1))
    as (_ & _ & Hshape & Hat).
  - reflexivity.
  - repeat constructor; lia.
  - cbn. lia.
  - vm_compute. intuition discriminate.
  - lia.
  - reflexivity.
  - intros _ _. split; [intros; reflexivity|].
    repeat split; vm_compute; discriminate.
  - split; [exact Hshape|].
    etransitivity; [apply (Hat [1; 4]); repeat constructor; lia|reflexivity].
Defined.

(** C2 as stated fails on the same invocation: the outputs were never
    written, so the concatenation does not give back the input's element
    at (0, 0, 0). *)
Lemma round_trip_overflow :
  let c := fresh_context [65536; 2; 32768] 1 in
  let c' := SplitOpCPU_Compute never_aligned allocate_always 2 c in
  shape_wf (shape (input1 c))
  /\ 0 <= input0 c < dims (shape (input1 c))
  /\ Z.rem (dim_size (shape (input1 c)) (input0 c)) 2 = 0
  /\ status c' = OK
  /\ valid_index (shape (input1 c)) [0; 0; 0]
  /\ concat_at (memory c') 1 (output_list c' 2) [0; 0; 0] = Some (-1)
  /\ tensor_at (memory c) (input1 c) [0; 0; 0] = 100
  /\ concat_at (memory c') 1 (output_list c' 2) [0; 0; 0]
     <> Some (tensor_at (memory c) (input1 c) [0; 0; 0]).
Proof.
  cbv zeta. repeat split; try (repeat constructor; lia); try reflexivity.
  - vm_compute. discriminate.
  - vm_compute. discriminate.
Qed.

Lemma empty_outputs_no_copy_witness :
  split_calls (SplitOpCPU_Compute never_aligned allocate_always 2 (fresh_context [0; 4] 0))
  = []
  /\ stream
       (device (SplitOpGPU_Compute never_aligned allocate_always allocate_temp_always 2
                  (fresh_context [0; 4] 0)))
     = []
  /\ exists t,
       outputs (SplitOpGPU_Compute never_aligned allocate_always allocate_temp_always 2
                  (fresh_context [0; 4] 0)) !! 1%nat = Some t
       /\ shape t = [0; 4].
Proof.
  pose proof (empty_outputs_no_copy never_aligned allocate_always allocate_temp_always 2
                (fresh_context [0; 4] 0)) as H.
  cbv zeta in H.
  assert (Hall : forall c',
            c' = SplitOpCPU_Compute never_aligned allocate_always 2 (fresh_context [0; 4] 0)
            \/ c' = SplitOpGPU_Compute never_aligned allocate_always allocate_temp_always 2
                      (fresh_context [0; 4] 0) ->
            status c' = OK
            /\ (forall i, 0 <= i < 2 ->
                  exists t, outputs c' !! Z.to_nat i = Some t /\ shape t = [0; 4])
            /\ split_calls c' = []
            /\ stream (device c') = []).
  { apply H.
    - reflexivity.
    - repeat constructor; lia.
    - vm_compute. intuition discriminate.
    - lia.
    - vm_compute. intuition discriminate.
    - reflexivity.
    - reflexivity.
    - intros _ _. split; [intros; reflexivity|]. split; [intros; reflexivity|].
      vm_compute. intuition discriminate. }
  destruct (Hall _ (or_introl eq_refl)) as (_ & _ & Hcalls & _).
  destruct (Hall _ (or_intror eq_refl)) as (_ & Hout & _ & Hstream).
  split; [exact Hcalls|]. split; [exact Hstream|].
  exact (Hout 1 ltac:(lia)).
Defined.

(** C7 as stated fails: the shape (0, 2^32) split in two along axis 1 is a
    valid invocation whose outputs are empty; the split-axis size is
    narrowed to the int32 0, so both outputs get the shape (0, 0) and not
    (0, 2^31). *)
Lemma empty_outputs_narrowed_shape :
  let c := fresh_context [0; 4294967296] 1 in
  let c' := SplitOpCPU_Compute never_aligned allocate_always 2 c in
  shape_wf (shape (input1 c))
  /\ 0 <= input0 c < dims (shape (input1 c))
  /\ Z.rem (dim_size (shape (input1 c)) (input0 c)) 2 = 0
  /\ set_dim (shape (input1 c)) (input0 c) (dim_size (shape (input1 c)) (input0 c) / 2)
     = [0; 2147483648]
  /\ num_elements [0; 2147483648] = 0
  /\ status c' = OK
  /\ outputs c' !! 0%nat = Some (mkTensor [0; 0] 1 0)
  /\ outputs c' !! 1%nat = Some (mkTensor [0; 0] 2 0)
  /\ shape (mkTensor [0; 0] 1 0)
     <> set_dim (shape (input1 c)) (input0 c)
          (dim_size (shape (input1 c)) (input0 c) / 2).
Proof.
  cbv zeta. repeat split; try (repeat constructor; lia); try reflexivity.
  - vm_compute. discriminate.
  - vm_compute. discriminate.
Qed.

Lemma CPU_GPU_same_outputs_witness :
  SplitOpCPU_run never_aligned allocate_always 2 (fresh_context [2; 6] 1)
  = Returned (SplitOpCPU_Compute never_aligned allocate_always 2 (fresh_context [2; 6] 1))
  /\ exists gpu,
       run_stream (SplitOpGPU_Compute never_aligned allocate_always allocate_temp_always 2
                     (fresh_context [2; 6] 1)) = Some gpu
       /\ status gpu = OK
       /\ outputs gpu
          = outputs (SplitOpCPU_Compute never_aligned allocate_always 2
                       (fresh_context [2; 6] 1))
       /\ tensor_at (memory gpu) (mkTensor [2; 3] 2 0) [1; 2]
          = tensor_at
              (memory (SplitOpCPU_Compute never_aligned allocate_always 2
                         (fresh_context [2; 6] 1)))
              (mkTensor [2; 3] 2 0) [1; 2].
Proof.
  destruct (CPU_GPU_same_outputs never_aligned allocate_always allocate_temp_always 2
              (fresh_context [2; 6] 1))
    as (Hcpu & _ & gpu & Hrun & _ & Hst & Hout & Hel).
  - reflexivity.
  - repeat constructor; lia.
  - cbn. lia.
  - reflexivity.
  - vm_compute. intuition discriminate.
  - lia.
  - vm_compute. intuition discriminate.
  - reflexivity.
  - intros _ _. split; [intros; reflexivity|]. split; [intros; reflexivity|].
    split; [reflexivity|].
    repeat split; vm_compute; discriminate.
  - split; [exact Hcpu|].
    exists gpu. split; [exact Hrun|]. split; [exact Hst|]. split; [exact Hout|].
    apply (Hel 1%nat).
    + lia.
    + reflexivity.
    + repeat constructor; lia.
Defined.

(** C8 as stated fails on the shape (65536, 65536, 2) split in two along
    axis 2.  The prefix product 2^32 is 0 as an [int32], so the CPU
    executor asks for the view (0, 2, 1) of a tensor of 2^33 elements: the
    check of the view fails and the invocation does not return.  The GPU
    executor builds no view: it returns with status OK and two outputs
    (its guard is 0, nothing is launched).  The claim also fails when the
    stream reports a failure: the GPU executor then ends with status
    Internal where the CPU executor ends with status OK. *)
Lemma CPU_GPU_diverge :
  (let c := fresh_context [65536; 65536; 2] 2 in
   shape_wf (shape (input1 c))
   /\ 0 <= input0 c < dims (shape (input1 c))
   /\ Z.rem (dim_size (shape (input1 c)) (input0 c)) 2 = 0
   /\ SetDims (shape (input1 c)) (input0 c) = (0, 2, 1)
   /\ shaped_valid (input1 c) (0, 2, 1) = false
   /\ SplitOpCPU_run never_aligned allocate_always 2 c = Terminated
   /\ exists g,
        SplitOpGPU_run never_aligned allocate_always allocate_temp_always 2 c
        = Returned g
        /\ status g = OK
        /\ outputs g !! 0%nat = Some (mkTensor [65536; 65536; 1] 1 0)
        /\ outputs g !! 1%nat = Some (mkTensor [65536; 65536; 1] 2 0)
        /\ stream (device g) = [])
  /\ (let c := with_device (fresh_context [2; 6] 1) (mkDeviceState ∅ ∅ 0 [] false) in
      0 <= input0 c < dims (shape (input1 c))
      /\ Z.rem (dim_size (shape (input1 c)) (input0 c)) 2 = 0
      /\ status (SplitOpCPU_Compute never_aligned allocate_always 2 c) = OK
      /\ status (SplitOpGPU_Compute never_aligned allocate_always allocate_temp_always 2 c)
         = Internal).
Proof.
  cbv zeta. split.
  - split; [repeat constructor; lia|].
    split; [vm_compute; intuition discriminate|].
    split; [reflexivity|].
    split; [vm_compute; reflexivity|].
    split; [vm_compute; reflexivity|].
    split; [vm_compute; reflexivity|].
    exists (SplitOpGPU_Compute never_aligned allocate_always allocate_temp_always 2
              (fresh_context [65536; 65536; 2] 2)).
    split.
    + unfold SplitOpGPU_run.
      assert (Hchecks : SplitOpGPU_checks never_aligned 2
                          (fresh_context [65536; 65536; 2] 2) = true)
        by (vm_compute; reflexivity).
      rewrite Hchecks. reflexivity.
    + split; [vm_compute; reflexivity|].
      split; [vm_compute; reflexivity|].
      split; vm_compute; reflexivity.
  - split; [vm_compute; intuition discriminate|].
    split; [reflexivity|].
    split; vm_compute; reflexivity.
Qed.

Lemma staging_buffer_outlives_copy_witness :
  exists host gpu,
    stream (device (SplitOpGPU_Compute never_aligned allocate_always
                      allocate_temp_always 2 (fresh_context [2; 6] 1)))
    = [ThenMemcpy gpu host 16; ThenExecute_Unref host;
       SplitOpGPULaunch (0%nat, 0) 2 2 6 1 gpu]
    /\ refs (device (SplitOpGPU_Compute never_aligned allocate_always
                       allocate_temp_always 2 (fresh_context [2; 6] 1)))
         !! host = Some 1%nat.
Proof.
  assert (Hc : stream (device (SplitOpGPU_Compute never_aligned allocate_always
                                 allocate_temp_always 2 (fresh_context [2; 6] 1)))
               = [ThenMemcpy 1 0 16; ThenExecute_Unref 0;
                  SplitOpGPULaunch (0%nat, 0) 2 2 6 1 1])
    by (vm_compute; reflexivity).
  destruct (staging_buffer_outlives_copy never_aligned allocate_always
              allocate_temp_always 2 (fresh_context [2; 6] 1) eq_refl)
    as [Hnil | (host & gpu & size & launch & Hs & _ & Hr & _)].
  - rewrite Hc in Hnil. discriminate.
  - rewrite Hc in Hs. injection Hs as <- <- <- _ _.
    exists 0%nat, 1%nat. split; [exact Hc|exact Hr].
Defined.

(** * Further properties of the kernel *)

(** X1: when the prefix product, the split-axis size and the suffix product
    fit in a signed 32-bit integer, the three sizes returned by [SetDims]
    multiply to the number of elements of the shape: the three-axis view
    covers the input exactly. *)
Theorem SetDims_covers_input (s : list Z) d :
  0 <= d < dims s ->
  fits_int32 (prefix_product s d) ->
  fits_int32 (dim_size s d) ->
  fits_int32 (suffix_product s d) ->
  (SetDims s d).1.1 * (SetDims s d).1.2 * (SetDims s d).2 = num_elements s.
Proof.
  intros Hd HP HS HX. rewrite SetDims_wrapped by assumption. cbn [fst snd].
  rewrite !to_int32_id by assumption.
  unfold prefix_product, suffix_product, dim_size, dims in *.
  symmetry. apply num_elements_split. lia.
Qed.

Lemma SetDims_covers_input_witness :
  (SetDims [2; 3; 4; 5] 2).1.1 * (SetDims [2; 3; 4; 5] 2).1.2
  * (SetDims [2; 3; 4; 5] 2).2 = 120.
Proof.
  apply (SetDims_covers_input [2; 3; 4; 5] 2);
    vm_compute; intuition discriminate.
Defined.

Section KernelMore.

Context {T : Type}.
Variable IsInnerDimsSizeAligned : TensorShape -> bool.
Variable allocate_status : nat -> TensorShape -> Status.
Variable allocate_temp_status : nat -> Z -> Status.

Local Abbreviation Ctx := (@OpKernelContext T).
Local Abbreviation EasyCases := (@ComputeEasyCases T IsInnerDimsSizeAligned).
Local Abbreviation CPU := (@SplitOpCPU_Compute T IsInnerDimsSizeAligned allocate_status).
Local Abbreviation GPU :=
  (@SplitOpGPU_Compute T IsInnerDimsSizeAligned allocate_status allocate_temp_status).

(** *** What the executors leave alone *)

Lemma memory_CtxFailure (c : Ctx) st : memory (CtxFailure c st) = memory c.
Proof. unfold CtxFailure. now destruct (ok (status c)). Qed.

Lemma allocated_CtxFailure (c : Ctx) st : allocated (CtxFailure c st) = allocated c.
Proof. unfold CtxFailure. now destruct (ok (status c)). Qed.

Lemma outputs_CtxFailure (c : Ctx) st : outputs (CtxFailure c st) = outputs c.
Proof. unfold CtxFailure. now destruct (ok (status c)). Qed.

Lemma split_calls_CtxFailure (c : Ctx) st :
  split_calls (CtxFailure c st) = split_calls c.
Proof. unfold CtxFailure. now destruct (ok (status c)). Qed.

(** [ComputeEasyCases] only ever sets outputs and the status. *)
Lemma EasyCases_frame num_outputs (c : Ctx) :
  memory (EasyCases num_outputs c).1 = memory c
  /\ allocated (EasyCases num_outputs c).1 = allocated c
  /\ split_calls (EasyCases num_outputs c).1 = split_calls c.
Proof.
  unfold ComputeEasyCases.
  repeat match goal with
         | |- context [if ?b then _ else _] => destruct b
         end; cbn [fst];
    rewrite ?memory_CtxFailure, ?allocated_CtxFailure, ?split_calls_CtxFailure;
    try (repeat split; reflexivity).
  unfold for_range.
  match goal with
  | |- context [for_loop ?n 0 (fun i c0 => set_output c0 i (@?f i)) c] =>
      destruct (set_output_loop n 0 c f ltac:(lia))
        as (_ & _ & _ & Hm & Ha & Hc & _)
  end.
  repeat split; assumption.
Qed.

Lemma CPU_loop_old_buffers n : forall i indices view os p per s (c : Ctx),
  let c' := SplitOpCPU_loop allocate_status n i indices view os p per s c in
  (allocated c <= allocated c')%nat
  /\ forall b k, (b < allocated c)%nat -> memory c' b k = memory c b k.
Proof.
  induction n as [|n IH]; intros i indices view os p per s c; cbn [SplitOpCPU_loop].
  - split; [lia|reflexivity].
  - unfold SplitOpCPU_iteration, allocate_output.
    destruct (allocate_status (allocated c) os);
      try (rewrite memory_CtxFailure, allocated_CtxFailure; split; [lia|reflexivity]).
    destruct indices as [[ix0 ix1] ix2].
    match goal with
    | |- context [SplitOpCPU_loop _ n (i + 1) ?ix view os p per s ?c1] =>
        specialize (IH (i + 1) ix view os p per s c1); cbn zeta in IH;
        destruct IH as (Hle & Hmem);
        assert (Hc1 : allocated c1 = S (allocated c)
                      /\ forall b k, b <> allocated c -> memory c1 b k = memory c b k)
    end.
    { destruct (0 <? _); cbn [allocated memory call_Split]; split; try reflexivity.
      intros b k Hb. now apply functor_Split_other. }
    destruct Hc1 as (Ha1 & Hm1). rewrite Ha1 in Hle, Hmem.
    split; [lia|].
    intros b k Hb. rewrite Hmem by lia. apply Hm1. lia.
Qed.

(** X2: whatever the input, the arguments and the allocator's answers, the
    CPU executor never writes an element of a buffer that was live when it
    was invoked; in particular the input is read-only. *)
Theorem CPU_preserves_live_buffers num_outputs (c : Ctx) b k :
  (b < allocated c)%nat ->
  memory (SplitOpCPU_Compute IsInnerDimsSizeAligned allocate_status num_outputs c) b k
  = memory c b k.
Proof.
  intros Hb. unfold SplitOpCPU_Compute.
  destruct (EasyCases_frame num_outputs c) as (Hm & Ha & _).
  destruct (EasyCases num_outputs c) as [c1 done]. cbn [fst] in Hm, Ha.
  destruct (negb (ok (status c1)) || done); [now rewrite Hm|].
  destruct (SetDims (shape (input1 c1)) (input0 c1)) as [[p sd] sx].
  match goal with
  | |- memory (SplitOpCPU_loop _ ?n 0 ?ix ?view ?os p ?per sx c1) b k = _ =>
      destruct (CPU_loop_old_buffers n 0 ix view os p per sx c1) as (_ & Hold)
  end.
  rewrite Hold by lia. now rewrite Hm.
Qed.

(** *** Allocation failures on the CPU path *)

Lemma CPU_loop_prefix n : forall k i indices view os p per s (c : Ctx),
  (k <= n)%nat -> 0 <= i ->
  (forall j, (j < k)%nat -> allocate_status (allocated c + j) os = OK) ->
  (k < n)%nat \/ k = n ->
  forall err,
    ((k < n)%nat -> allocate_status (allocated c + k) os = err /\ err <> OK) ->
    let c' := SplitOpCPU_loop allocate_status n i indices view os p per s c in
    status c' = (if decide (k < n)%nat then (if ok (status c) then err else status c)
                 else status c)
    /\ allocated c' = (allocated c + k)%nat
    /\ (forall j, (j < k)%nat ->
          outputs c' !! (Z.to_nat i + j)%nat = Some (mkTensor os (allocated c + j) 0))
    /\ (forall j, (j < Z.to_nat i \/ Z.to_nat i + k <= j)%nat ->
          outputs c' !! j = outputs c !! j)
    /\ (length (split_calls c') <= length (split_calls c) + k)%nat.
Proof.
  induction n as [|n IH]; intros k i indices view os p per s c Hk Hi Hok Hcase err Herr.
  - assert (k = 0%nat) as -> by lia. cbn [SplitOpCPU_loop].
    destruct (decide (0 < 0)%nat); [lia|].
    split; [reflexivity|]. split; [lia|]. split; [intros j Hj; lia|].
    split; [reflexivity|lia].
  - cbn [SplitOpCPU_loop]. unfold SplitOpCPU_iteration, allocate_output.
    destruct k as [|k].
    + destruct (Herr ltac:(lia)) as (Hfail & Hne).
      rewrite Nat.add_0_r in Hfail. rewrite Hfail.
      destruct (decide (0 < S n)%nat); [|lia].
      destruct err; [congruence|..]; cbn beta iota zeta;
        rewrite allocated_CtxFailure, outputs_CtxFailure, split_calls_CtxFailure;
        (split; [unfold CtxFailure; destruct (ok (status c)); reflexivity|]);
        (split; [lia|]); (split; [intros j Hj; lia|]);
        (split; [reflexivity|lia]).
    + pose proof (Hok 0%nat ltac:(lia)) as Hfirst.
      rewrite Nat.add_0_r in Hfirst. rewrite Hfirst.
      destruct indices as [[ix0 ix1] ix2].
      match goal with
      | |- context [SplitOpCPU_loop _ n (i + 1) ?ix view os p per s ?cx] =>
          set (c1 := cx);
          specialize (IH k (i + 1) ix view os p per s c1)
      end.
      assert (Hc1 : status c1 = status c /\ allocated c1 = S (allocated c)
                    /\ outputs c1 = <[Z.to_nat i := mkTensor os (allocated c) 0]> (outputs c)
                    /\ (length (split_calls c1) <= length (split_calls c) + 1)%nat).
      { unfold c1. destruct (0 <? _);
          cbn [status allocated outputs split_calls call_Split];
          rewrite ?length_app; cbn [length]; repeat split; lia. }
      destruct Hc1 as (Hs1 & Ha1 & Ho1 & Hl1).
      destruct (IH ltac:(lia) ltac:(lia)) with (err := err)
        as (Hst & Hal & Hin & Hout & Hlen).
      * intros j Hj. rewrite Ha1.
        replace (S (allocated c) + j)%nat with (allocated c + S j)%nat by lia.
        apply Hok. lia.
      * lia.
      * intros Hlt. rewrite Ha1.
        replace (S (allocated c) + k)%nat with (allocated c + S k)%nat by lia.
        apply Herr. lia.
      * cbn zeta. split; [|split; [|split; [|split]]].
        -- rewrite Hst, Hs1.
           destruct (decide (k < n)%nat), (decide (S k < S n)%nat);
             first [reflexivity | lia].
        -- lia.
        -- intros j Hj. destruct j as [|j].
           ++ rewrite Nat.add_0_r, Hout, Ho1 by lia.
              rewrite lookup_insert_eq, Nat.add_0_r. reflexivity.
           ++ replace (Z.to_nat i + S j)%nat with (Z.to_nat (i + 1) + j)%nat by lia.
              rewrite Hin by lia. rewrite Ha1. do 2 f_equal. lia.
        -- intros j Hj. rewrite Hout, Ho1 by lia. apply lookup_insert_ne. lia.
        -- lia.
Qed.


(** *** The outputs of the general path, whatever the sizes *)

Lemma GPU_body_outputs (Hall : forall n s, allocate_status n s = OK)
    (Htemp : forall n b, allocate_temp_status n b = OK)
    num_split input p sd sx per os bytes host (c : Ctx) :
  0 <= num_split ->
  let b := SplitOpGPU_body allocate_status allocate_temp_status num_split input
             p sd sx per os bytes host c in
  allocated b = (allocated c + Z.to_nat num_split)%nat
  /\ memory b = memory c
  /\ split_calls b = split_calls c
  /\ (forall j, (j < Z.to_nat num_split)%nat ->
        outputs b !! j = Some (mkTensor os (allocated c + j) 0))
  /\ (forall j, (Z.to_nat num_split <= j)%nat -> outputs b !! j = outputs c !! j).
Proof.
  intros Hn. unfold SplitOpGPU_body, allocate_temp. rewrite Htemp.
  match goal with
  | |- context [SplitOpGPU_loop _ ?n 0 os host ?cx] =>
      pose proof (GPU_loop_spec allocate_status Hall os host n 0 cx ltac:(lia)) as Hspec;
      destruct (SplitOpGPU_loop allocate_status n 0 os host cx) as [c4 fl]
  end.
  cbn zeta in Hspec. cbn [fst snd] in Hspec.
  destruct Hspec as (-> & _ & _ & _ & Hm & Hc & Ha & Hin & Hout & _).
  cbn [allocated memory split_calls outputs with_device] in Hm, Hc, Ha, Hin, Hout.
  cbn zeta.
  assert (Hgoal : allocated c4 = (allocated c + Z.to_nat num_split)%nat
                  /\ memory c4 = memory c
                  /\ split_calls c4 = split_calls c
                  /\ (forall j, (j < Z.to_nat num_split)%nat ->
                        outputs c4 !! j = Some (mkTensor os (allocated c + j) 0))
                  /\ (forall j, (Z.to_nat num_split <= j)%nat ->
                        outputs c4 !! j = outputs c !! j)).
  { split; [exact Ha|]. split; [exact Hm|]. split; [exact Hc|].
    split; [exact Hin|]. intros j Hj. apply Hout. lia. }
  destruct (_ =? 0); [exact Hgoal|].
  match goal with
  | |- context [if ?b then _ else _] => destruct b
  end;
    rewrite ?allocated_CtxFailure, ?memory_CtxFailure, ?split_calls_CtxFailure,
      ?outputs_CtxFailure;
    exact Hgoal.
Qed.

Lemma general_path_allocations num_outputs (c : Ctx) :
  (forall n s, allocate_status n s = OK) ->
  (forall n b, allocate_temp_status n b = OK) ->
  status c = OK ->
  0 <= input0 c < dims (shape (input1 c)) ->
  1 < num_outputs ->
  Z.rem (dim_size (shape (input1 c)) (input0 c)) num_outputs = 0 ->
  (input0 c =? 0) && IsInnerDimsSizeAligned (shape (input1 c)) = false ->
  let output_shape :=
    set_dim (shape (input1 c)) (input0 c)
      (to_int32 (Z.quot (SetDims (shape (input1 c)) (input0 c)).1.2 num_outputs)) in
  forall c', c' = CPU num_outputs c \/ c' = GPU num_outputs c ->
    allocated c' = (allocated c + Z.to_nat num_outputs)%nat
    /\ (forall j, (j < Z.to_nat num_outputs)%nat ->
          outputs c' !! j = Some (mkTensor output_shape (allocated c + j) 0))
    /\ (forall j, (Z.to_nat num_outputs <= j)%nat ->
          outputs c' !! j = outputs c !! j).
Proof.
  intros Hall Htemp Hok Hd Hnum Hrem Hgen output_shape. subst output_shape.
  pose proof (EasyCases_general IsInnerDimsSizeAligned num_outputs c Hd Hnum Hrem Hgen)
    as Heasy.
  intros c' [-> | ->].
  - unfold SplitOpCPU_Compute. rewrite Heasy, Hok. cbn [ok negb orb].
    destruct (SetDims (shape (input1 c)) (input0 c)) as [[p sd] sx]. cbn [fst snd].
    match goal with
    | |- context [SplitOpCPU_loop _ ?n 0 ?ix ?view ?os p ?per sx c] =>
        destruct (CPU_loop_prefix n n 0 ix view os p per sx c ltac:(lia) ltac:(lia)
                    (fun j _ => Hall _ _) ltac:(lia) OK ltac:(lia))
          as (_ & Hal & Hin & Hout & _)
    end.
    cbn zeta in Hal, Hin, Hout.
    split; [exact Hal|]. split; [exact Hin|].
    intros j Hj. apply Hout. lia.
  - remember (GPU num_outputs c) as g eqn:Hg.
    unfold SplitOpGPU_Compute in Hg. rewrite Heasy, Hok in Hg.
    cbn [ok negb orb] in Hg.
    destruct (SetDims (shape (input1 c)) (input0 c)) as [[p sd] sx]. cbn [fst snd].
    unfold allocate_temp at 1 in Hg. rewrite Htemp in Hg. subst g.
    match goal with
    | |- context [SplitOpGPU_body _ _ _ ?inp p sd sx ?per ?os ?by' ?host ?cx] =>
        destruct (GPU_body_outputs Hall Htemp num_outputs inp p sd sx per os by' host cx
                    ltac:(lia)) as (Ha & _ & _ & Hin & Hout)
    end.
    split; [exact Ha|]. split; [exact Hin|exact Hout].
Qed.

Lemma returned_CPU num_outputs (c c' : Ctx) :
  SplitOpCPU_run IsInnerDimsSizeAligned allocate_status num_outputs c = Returned c' ->
  c' = CPU num_outputs c
  /\ SplitOpCPU_checks IsInnerDimsSizeAligned allocate_status num_outputs c = true.
Proof.
  unfold SplitOpCPU_run.
  destruct (SplitOpCPU_checks IsInnerDimsSizeAligned allocate_status num_outputs c);
    [intros [= <-]; split; reflexivity|discriminate].
Qed.

Lemma returned_GPU num_outputs (c c' : Ctx) :
  SplitOpGPU_run IsInnerDimsSizeAligned allocate_status allocate_temp_status
    num_outputs c = Returned c' ->
  c' = GPU num_outputs c
  /\ SplitOpGPU_checks IsInnerDimsSizeAligned num_outputs c = true.
Proof.
  unfold SplitOpGPU_run.
  destruct (SplitOpGPU_checks IsInnerDimsSizeAligned num_outputs c);
    [intros [= <-]; split; reflexivity|discriminate].
Qed.

(** An executor that returns from the general path has passed the check of
    the output shape. *)
Lemma general_path_set_dim_valid num_outputs (c : Ctx) :
  status c = OK ->
  0 <= input0 c < dims (shape (input1 c)) ->
  1 < num_outputs ->
  Z.rem (dim_size (shape (input1 c)) (input0 c)) num_outputs = 0 ->
  (input0 c =? 0) && IsInnerDimsSizeAligned (shape (input1 c)) = false ->
  SplitOpCPU_checks IsInnerDimsSizeAligned allocate_status num_outputs c = true
  \/ SplitOpGPU_checks IsInnerDimsSizeAligned num_outputs c = true ->
  set_dim_valid (shape (input1 c)) (input0 c)
    (to_int32 (Z.quot (SetDims (shape (input1 c)) (input0 c)).1.2 num_outputs)) = true.
Proof.
  intros Hok Hd Hnum Hrem Hgen H.
  pose proof (EasyCases_general IsInnerDimsSizeAligned num_outputs c Hd Hnum Hrem Hgen)
    as Heasy.
  unfold SplitOpCPU_checks, SplitOpGPU_checks in H. rewrite Heasy, Hok in H.
  cbn [ok negb orb] in H.
  destruct (SetDims (shape (input1 c)) (input0 c)) as [[p sd] sx]. cbn [fst snd].
  destruct H as [H | H]; [|exact H].
  apply andb_true_iff in H as [H _]. apply andb_true_iff in H as [_ H]. exact H.
Qed.

(** X4: on the general path, when the allocators serve every request, an
    executor that returns has set exactly the outputs 0 .. num_split-1,
    output [j] being a tensor at offset 0 of the fresh buffer
    [allocated + j], all with one common shape whose sizes are
    non-negative: the outputs never share storage with each other, with
    the input or with any buffer live at entry.  Nothing is assumed on the
    sizes of the input beyond the checks that let the executor return. *)
Theorem general_path_fresh_outputs num_outputs (c : Ctx) :
  (forall n s, allocate_status n s = OK) ->
  (forall n b, allocate_temp_status n b = OK) ->
  status c = OK ->
  shape_wf (shape (input1 c)) ->
  0 <= input0 c < dims (shape (input1 c)) ->
  1 < num_outputs ->
  Z.rem (dim_size (shape (input1 c)) (input0 c)) num_outputs = 0 ->
  (input0 c =? 0) && IsInnerDimsSizeAligned (shape (input1 c)) = false ->
  exists output_shape,
    forall c',
      SplitOpCPU_run IsInnerDimsSizeAligned allocate_status num_outputs c = Returned c'
      \/ SplitOpGPU_run IsInnerDimsSizeAligned allocate_status allocate_temp_status
           num_outputs c = Returned c' ->
      shape_wf output_shape
      /\ allocated c' = (allocated c + Z.to_nat num_outputs)%nat
      /\ (forall j, (j < Z.to_nat num_outputs)%nat ->
            outputs c' !! j = Some (mkTensor output_shape (allocated c + j) 0))
      /\ (forall j, (Z.to_nat num_outputs <= j)%nat ->
            outputs c' !! j = outputs c !! j).
Proof.
  intros Hall Htemp Hok Hwf Hd Hnum Hrem Hgen.
  exists (set_dim (shape (input1 c)) (input0 c)
            (to_int32 (Z.quot (SetDims (shape (input1 c)) (input0 c)).1.2 num_outputs))).
  intros c' Hret.
  assert (Hc' : (c' = CPU num_outputs c \/ c' = GPU num_outputs c)
                /\ (SplitOpCPU_checks IsInnerDimsSizeAligned allocate_status
                      num_outputs c = true
                    \/ SplitOpGPU_checks IsInnerDimsSizeAligned num_outputs c = true)).
  { destruct Hret as [H | H];
      [apply returned_CPU in H as (-> & H)|apply returned_GPU in H as (-> & H)];
      split; auto. }
  destruct Hc' as (Hc' & Hchecks).
  split; [|exact (general_path_allocations num_outputs c Hall Htemp Hok Hd Hnum Hrem
                    Hgen c' Hc')].
  pose proof (general_path_set_dim_valid num_outputs c Hok Hd Hnum Hrem Hgen Hchecks)
    as Hvalid.
  unfold set_dim_valid in Hvalid. rewrite !andb_true_iff in Hvalid.
  destruct Hvalid as (_ & Hsize%Z.leb_le).
  unfold set_dim. apply Forall_insert; [exact Hwf|].
  match goal with
  | |- 0 <= to_int32 ?z < _ => pose proof (to_int32_fits z) as Hfit
  end.
  unfold fits_int32 in Hfit. lia.
Qed.

(** X11: on the general path, when the allocators serve every request and
    the split-axis size fits in a signed 32-bit integer, every output of an
    executor that returns has the input's shape with the split axis divided
    by num_split, and the outputs together have exactly as many elements as
    the input.  The GPU executor, which builds no view of the input,
    returns there whether or not the prefix and suffix products fit. *)
Theorem output_shapes_conserve_elements num_outputs (c : Ctx) :
  (forall n s, allocate_status n s = OK) ->
  (forall n b, allocate_temp_status n b = OK) ->
  status c = OK ->
  shape_wf (shape (input1 c)) ->
  0 <= input0 c < dims (shape (input1 c)) ->
  1 < num_outputs ->
  Z.rem (dim_size (shape (input1 c)) (input0 c)) num_outputs = 0 ->
  (input0 c =? 0) && IsInnerDimsSizeAligned (shape (input1 c)) = false ->
  fits_int32 (dim_size (shape (input1 c)) (input0 c)) ->
  SplitOpGPU_run IsInnerDimsSizeAligned allocate_status allocate_temp_status
    num_outputs c
  = Returned (GPU num_outputs c)
  /\ forall c',
       SplitOpCPU_run IsInnerDimsSizeAligned allocate_status num_outputs c = Returned c'
       \/ SplitOpGPU_run IsInnerDimsSizeAligned allocate_status allocate_temp_status
            num_outputs c = Returned c' ->
       forall j, (j < Z.to_nat num_outputs)%nat ->
         exists t,
           outputs c' !! j = Some t
           /\ shape t
              = set_dim (shape (input1 c)) (input0 c)
                  (dim_size (shape (input1 c)) (input0 c) / num_outputs)
           /\ num_outputs * num_elements (shape t) = num_elements (shape (input1 c)).
Proof.
  intros Hall Htemp Hok Hwf Hd Hnum Hrem Hgen Hfits. split.
  { unfold SplitOpGPU_run.
    now rewrite (GPU_checks_general IsInnerDimsSizeAligned num_outputs c Hok Hwf Hd Hnum
                   Hrem Hgen Hfits). }
  intros c' Hret j Hj.
  assert (Hc' : c' = CPU num_outputs c \/ c' = GPU num_outputs c).
  { destruct Hret as [H | H];
      [apply returned_CPU in H as (-> & _)|apply returned_GPU in H as (-> & _)]; auto. }
  destruct (general_path_allocations num_outputs c Hall Htemp Hok Hd Hnum Hrem Hgen
              c' Hc') as (_ & Hin & _).
  rewrite SetDims_wrapped in Hin by assumption. cbn [fst snd] in Hin.
  rewrite (per_exact num_outputs c Hwf Hnum Hfits) in Hin.
  eexists. split; [exact (Hin j Hj)|]. cbn [shape]. split; [reflexivity|].
  pose proof (per_times_num num_outputs c Hwf Hnum Hrem) as Hmul.
  unfold set_dim. unfold dims in Hd.
  rewrite num_elements_resized by lia.
  rewrite (num_elements_split (shape (input1 c)) (Z.to_nat (input0 c))) by lia.
  unfold dim_size in Hmul |- *. rewrite Hmul at 2. ring.
Qed.

(** *** The dim-0 fast path as a partition of the input *)

(** X5: on the dim-0 fast path the slices partition the input's storage:
    with L the number of elements of one slice, output i is the range
    [off + i*L, off + (i+1)*L) of the input's buffer, every slice has L
    elements, and num_split * L is the number of elements of the input. *)
Theorem dim0_slices_tile_input num_outputs (c : Ctx) :
  status c = OK ->
  shape_wf (shape (input1 c)) ->
  input0 c = 0 ->
  0 < dims (shape (input1 c)) ->
  1 < num_outputs ->
  Z.rem (dim_size (shape (input1 c)) 0) num_outputs = 0 ->
  IsInnerDimsSizeAligned (shape (input1 c)) = true ->
  let c' := CPU num_outputs c in
  exists L,
    num_outputs * L = num_elements (shape (input1 c))
    /\ forall i, 0 <= i < num_outputs ->
         exists t,
           outputs c' !! Z.to_nat i = Some t
           /\ buf t = buf (input1 c)
           /\ off t = off (input1 c) + i * L
           /\ num_elements (shape t) = L.
Proof.
  intros Hok Hwf Hzero Hrank Hnum Hrem Haligned c'.
  destruct (dim0_slice_summary IsInnerDimsSizeAligned allocate_status
              allocate_temp_status num_outputs c Hok Hwf Hzero Hrank Hnum Hrem Haligned)
    as (_ & _ & _ & _ & _ & _ & Hslices).
  fold c' in Hslices.
  set (delta := dim_size (shape (input1 c)) 0 / num_outputs) in *.
  pose proof (dim_size_bounds _ 0 Hwf) as Hdim0.
  assert (Hmul : dim_size (shape (input1 c)) 0 = num_outputs * delta).
  { rewrite Z.rem_mod_nonneg in Hrem by lia. apply Z.div_exact; lia. }
  destruct (shape (input1 c)) as [|d0 tl] eqn:Hshape.
  { unfold dims in Hrank. cbn in Hrank. lia. }
  exists (delta * num_elements tl). split.
  - unfold dim_size in Hmul. change (Z.to_nat 0) with 0%nat in Hmul.
    cbn [nth] in Hmul. unfold num_elements. cbn [foldr].
    rewrite Hmul. ring.
  - intros i Hi. destruct (Hslices i Hi) as (t & Ht & _ & Hbuf & Hoff & Hsh & _).
    exists t. split; [exact Ht|]. split; [exact Hbuf|].
    split; [rewrite Hoff; cbn [tail]; ring|].
    rewrite Hsh. reflexivity.
Qed.

(** *** The GPU executor, whatever the allocators answer *)

Lemma branch_device (b : bool) (c : Ctx) st :
  device (if b then c else CtxFailure c st) = device c.
Proof. destruct b; [reflexivity|apply device_CtxFailure]. Qed.

Lemma branch_memory (b : bool) (c : Ctx) st :
  memory (if b then c else CtxFailure c st) = memory c.
Proof. destruct b; [reflexivity|apply memory_CtxFailure]. Qed.

Lemma branch_allocated (b : bool) (c : Ctx) st :
  allocated (if b then c else CtxFailure c st) = allocated c.
Proof. destruct b; [reflexivity|apply allocated_CtxFailure]. Qed.

Lemma branch_outputs (b : bool) (c : Ctx) st :
  outputs (if b then c else CtxFailure c st) = outputs c.
Proof. destruct b; [reflexivity|apply outputs_CtxFailure]. Qed.

Lemma branch_status (b : bool) (c : Ctx) st :
  status c = OK ->
  status (if b then c else CtxFailure c st) = if b then OK else st.
Proof.
  intros Hok. destruct b; [exact Hok|].
  unfold CtxFailure. now rewrite Hok.
Qed.

(** The output loop of the GPU executor, for an arbitrary allocator: the
    store is not written, every pointer the loop stores in the staging
    array designates a buffer allocated by the loop, and when the loop
    runs to its end each output and its slot are set. *)
Lemma GPU_loop_any n os host : forall i (c : Ctx),
  0 <= i ->
  let slots := fun x : Ctx => default ∅ (temps (device x) !! host) in
  let r := SplitOpGPU_loop allocate_status n i os host c in
  memory r.1 = memory c
  /\ (forall k ptr, slots r.1 !! k = Some ptr ->
        slots c !! k = Some ptr \/ (allocated c <= ptr.1)%nat)
  /\ (forall k, (k < Z.to_nat i)%nat ->
        outputs r.1 !! k = outputs c !! k /\ slots r.1 !! k = slots c !! k)
  /\ (r.2 = false -> status c = OK -> status r.1 <> OK)
  /\ (r.2 = true ->
        status r.1 = status c
        /\ allocated r.1 = (allocated c + n)%nat
        /\ forall j, (j < n)%nat ->
             outputs r.1 !! (Z.to_nat i + j)%nat
             = Some (mkTensor os (allocated c + j) 0)
             /\ slots r.1 !! (Z.to_nat i + j)%nat = Some ((allocated c + j)%nat, 0)).
Proof.
  induction n as [|n IH]; intros i c Hi slots; cbn [SplitOpGPU_loop].
  - cbn [fst snd]. split; [reflexivity|]. split; [intros k ptr H; now left|].
    split; [intros k Hk; split; reflexivity|]. split; [discriminate|].
    intros _. split; [reflexivity|]. split; [lia|]. intros j Hj. lia.
  - unfold allocate_output.
    destruct (allocate_status (allocated c) os) eqn:Halloc;
      try (cbn [fst snd]; rewrite memory_CtxFailure, outputs_CtxFailure;
           unfold slots; rewrite device_CtxFailure;
           split; [reflexivity|]; split; [intros k ptr H; now left|];
           split; [intros k Hk; split; reflexivity|];
           split; [intros _ Hok; unfold CtxFailure; rewrite Hok; cbn; discriminate|];
           discriminate).
    match goal with
    | |- context [SplitOpGPU_loop _ n (i + 1) os host ?cx] =>
        set (c1 := cx); specialize (IH (i + 1) c1 ltac:(lia))
    end.
    cbn zeta in IH. fold slots in IH.
    destruct IH as (Hm & Hptr & Hlow & Hfail & Hdone).
    assert (Hslots1 : slots c1 = <[Z.to_nat i := (allocated c, 0)]> (slots c)).
    { unfold slots, c1, store_ptr. cbn [device with_device temps].
      now rewrite lookup_insert_eq. }
    assert (Hout1 : outputs c1 = <[Z.to_nat i := mkTensor os (allocated c) 0]> (outputs c))
      by reflexivity.
    assert (Ha1 : allocated c1 = S (allocated c)) by reflexivity.
    split; [exact Hm|]. split; [|split; [|split; [exact Hfail|]]].
    + intros k ptr Hk. destruct (Hptr k ptr Hk) as [Hold | Hnew].
      * rewrite Hslots1 in Hold. destruct (decide (k = Z.to_nat i)) as [->|Hne].
        -- rewrite lookup_insert_eq in Hold. injection Hold as <-. right. cbn. lia.
        -- rewrite lookup_insert_ne in Hold by congruence. now left.
      * right. rewrite Ha1 in Hnew. lia.
    + intros k Hk. destruct (Hlow k ltac:(lia)) as (Ho & Hs).
      rewrite Ho, Hs, Hout1, Hslots1. split; apply lookup_insert_ne; lia.
    + intros Hfl. destruct (Hdone Hfl) as (Hst & Hal & Hin).
      split; [exact Hst|]. split; [rewrite Hal, Ha1; lia|].
      intros j Hj. destruct j as [|j].
      * rewrite !Nat.add_0_r. destruct (Hlow (Z.to_nat i) ltac:(lia)) as (Ho & Hs).
        split.
        -- etransitivity; [exact Ho|]. rewrite Hout1. apply lookup_insert_eq.
        -- etransitivity; [exact Hs|]. rewrite Hslots1. apply lookup_insert_eq.
      * replace (Z.to_nat i + S j)%nat with (Z.to_nat (i + 1) + j)%nat by lia.
        destruct (Hin j ltac:(lia)) as (Ho & Hs). rewrite Ha1 in Ho, Hs.
        replace (S (allocated c) + j)%nat with (allocated c + S j)%nat in Ho, Hs by lia.
        split; [exact Ho|exact Hs].
Qed.

(** Lines 215-243 for arbitrary allocators: either nothing is enqueued, or
    every output has been allocated and recorded in the staging array
    before the copy, the callback and the launch are enqueued. *)
Lemma GPU_body_any num_split input p sd sx per os bytes host (c : Ctx) :
  host <> next_temp (device c) ->
  status c = OK ->
  let slots := fun x : Ctx => default ∅ (temps (device x) !! host) in
  let b := SplitOpGPU_body allocate_status allocate_temp_status num_split input
             p sd sx per os bytes host c in
  memory b = memory c
  /\ (forall k ptr, slots b !! k = Some ptr ->
        slots c !! k = Some ptr \/ (allocated c <= ptr.1)%nat)
  /\ ((stream (device b) = stream (device c) /\ refs (device b) = refs (device c))
      \/ (stream (device b)
          = stream (device c)
            ++ [ThenMemcpy (next_temp (device c)) host bytes;
                ThenExecute_Unref host;
                SplitOpGPULaunch (data input) num_split p sd sx (next_temp (device c))]
          /\ refs (device b) = alter S host (refs (device c))
          /\ status b = (if stream_ok (device c) then OK else Internal)
          /\ allocated b = (allocated c + Z.to_nat num_split)%nat
          /\ forall j, (j < Z.to_nat num_split)%nat ->
               outputs b !! j = Some (mkTensor os (allocated c + j) 0)
               /\ slots b !! j = Some ((allocated c + j)%nat, 0))).
Proof.
  intros Hne Hok slots b. subst b. unfold SplitOpGPU_body.
  destruct (allocate_temp_cases allocate_temp_status c bytes false)
    as [(err & Herr & ->) | ->].
  { destruct err; try congruence;
      rewrite ?memory_CtxFailure; unfold slots; rewrite ?device_CtxFailure;
      (split; [reflexivity|]); (split; [intros k ptr H; now left|]);
      left; split; reflexivity. }
  set (gpu := next_temp (device c)).
  match goal with
  | |- context [SplitOpGPU_loop _ ?n 0 os host ?cx] => set (c3 := cx)
  end.
  pose proof (GPU_loop_any (Z.to_nat num_split) os host 0 c3 ltac:(lia)) as Hloop.
  pose proof (GPU_loop_device allocate_status (Z.to_nat num_split) os host 0 c3) as Hdev.
  cbn zeta in Hloop, Hdev. fold slots in Hloop.
  destruct (SplitOpGPU_loop allocate_status (Z.to_nat num_split) 0 os host c3)
    as [c4 fl].
  cbn [fst snd] in Hloop, Hdev.
  destruct Hloop as (Hm & Hptr & _ & _ & Hdone).
  destruct Hdev as (Hrefs & Hstream & Hsok & _).
  assert (Hslots3 : slots c3 = slots c).
  { unfold slots, c3. cbn [device with_device temps].
    rewrite lookup_insert_ne; [reflexivity|].
    intros E. apply Hne. symmetry. exact E. }
  rewrite Hslots3 in Hptr.
  change (memory c3) with (memory c) in Hm.
  change (allocated c3) with (allocated c) in Hptr, Hdone.
  change (status c3) with (status c) in Hdone.
  change (refs (device c3)) with (refs (device c)) in Hrefs.
  change (stream (device c3)) with (stream (device c)) in Hstream.
  change (stream_ok (device c3)) with (stream_ok (device c)) in Hsok.
  cbn zeta.
  destruct fl; [|split; [exact Hm|]; split; [exact Hptr|]; left; split; assumption].
  destruct (_ =? 0); [split; [exact Hm|]; split; [exact Hptr|]; left; split; assumption|].
  destruct (Hdone eq_refl) as (Hst & Hal & Hin).
  rewrite branch_memory. unfold slots at 1 3. rewrite !branch_device.
  rewrite branch_status by (cbn; congruence).
  rewrite branch_allocated, branch_outputs.
  cbn [enqueue TensorReference device with_device stream refs temps stream_ok
       memory allocated outputs].
  fold (slots c4).
  split; [exact Hm|]. split; [exact Hptr|]. right.
  split; [rewrite Hstream, <- !app_assoc; reflexivity|].
  split; [now rewrite Hrefs|].
  split; [now rewrite Hsok|].
  split; [exact Hal|].
  intros j Hj. exact (Hin j Hj).
Qed.

Lemma app_three_neq {A} (l : list A) x y z : l ++ [x; y; z] <> l.
Proof.
  intros E. apply (f_equal length) in E. rewrite length_app in E. cbn in E. lia.
Qed.

(** What [SplitOpGPU::Compute] leaves behind, for arbitrary arguments and
    allocators. *)
Lemma GPU_outcome num_outputs (c : Ctx) :
  let g := GPU num_outputs c in
  let host := next_temp (device c) in
  let slots := default ∅ (temps (device g) !! host) in
  memory g = memory c
  /\ ((stream (device g) = stream (device c)
       /\ (device g = device c \/ refs (device g) !! host = Some 0%nat))
      \/ exists input p sd sx os,
           stream (device g)
           = stream (device c)
             ++ [ThenMemcpy (S host) host (to_int64 (sizeof_ptr * num_outputs));
                 ThenExecute_Unref host;
                 SplitOpGPULaunch input num_outputs p sd sx (S host)]
           /\ refs (device g) !! host = Some 1%nat
           /\ status g = (if stream_ok (device c) then OK else Internal)
           /\ allocated g = (allocated c + Z.to_nat num_outputs)%nat
           /\ (forall k ptr, slots !! k = Some ptr -> (allocated c <= ptr.1)%nat)
           /\ forall j, (j < Z.to_nat num_outputs)%nat ->
                outputs g !! j = Some (mkTensor os (allocated c + j) 0)
                /\ slots !! j = Some ((allocated c + j)%nat, 0)).
Proof.
  intros g host slots. subst g slots. unfold SplitOpGPU_Compute.
  pose proof (EasyCases_device IsInnerDimsSizeAligned num_outputs c) as Hdev.
  destruct (EasyCases_frame num_outputs c) as (Hm & Ha & _).
  destruct (EasyCases num_outputs c) as [c1 done]. cbn [fst] in Hdev, Hm, Ha.
  destruct (negb (ok (status c1)) || done) eqn:Hgo.
  { split; [exact Hm|]. left. split; [congruence|left; exact Hdev]. }
  apply orb_false_iff in Hgo as (Hok1 & _). apply negb_false_iff in Hok1.
  assert (Hst1 : status c1 = OK) by (destruct (status c1); first [reflexivity|discriminate]).
  destruct (SetDims (shape (input1 c1)) (input0 c1)) as [[p sd] sx].
  destruct (allocate_temp_cases allocate_temp_status c1
              (to_int64 (sizeof_ptr * num_outputs)) true)
    as [(err & Herr & ->) | ->].
  { destruct err; try congruence; rewrite memory_CtxFailure, device_CtxFailure;
      (split; [exact Hm|]); left; (split; [congruence|left; exact Hdev]). }
  assert (Hhost : next_temp (device c1) = host) by (unfold host; congruence).
  rewrite Hhost.
  match goal with
  | |- context [SplitOpGPU_body _ _ ?n ?inp p sd sx ?per ?os ?by' host ?cx] =>
      set (c2 := cx);
      assert (Hne : host <> next_temp (device c2)) by (cbn; lia);
      pose proof (GPU_body_any n inp p sd sx per os by' host c2 Hne Hst1) as Hbody;
      set (b := SplitOpGPU_body allocate_status allocate_temp_status n inp p sd sx
                  per os by' host c2) in *
  end.
  cbn zeta in Hbody.
  destruct Hbody as (Hmb & Hptr & Hcases).
  assert (Hslots2 : default ∅ (temps (device c2) !! host) = (∅ : gmap nat Ptr)).
  { unfold c2. cbn [device with_device temps]. now rewrite lookup_insert_eq. }
  rewrite Hslots2 in Hptr.
  change (memory c2) with (memory c1) in Hmb.
  change (allocated c2) with (allocated c1) in Hptr, Hcases.
  change (stream (device c2)) with (stream (device c1)) in Hcases.
  change (stream_ok (device c2)) with (stream_ok (device c1)) in Hcases.
  change (refs (device c2)) with (<[host := 1%nat]> (refs (device c1))) in Hcases.
  change (next_temp (device c2)) with (S host) in Hcases.
  rewrite Hdev in Hcases. rewrite Ha in Hptr, Hcases.
  cbn [Unref memory device with_device stream refs temps status allocated outputs].
  split; [congruence|].
  destruct Hcases as [(Hs & Hr) | (Hs & Hr & Hstat & Hal & Hin)].
  - left. split; [exact Hs|]. right.
    rewrite Hr, lookup_alter_eq, lookup_insert_eq. reflexivity.
  - right. eexists _, p, sd, sx, _.
    split; [exact Hs|].
    split; [rewrite Hr, !lookup_alter_eq, lookup_insert_eq; reflexivity|].
    split; [exact Hstat|]. split; [exact Hal|].
    split; [|exact Hin].
    intros k ptr Hk. destruct (Hptr k ptr Hk) as [Hempty | Hnew]; [|exact Hnew].
    rewrite lookup_empty in Hempty. discriminate.
Qed.

(** X6: [SplitOpGPU::Compute] writes no element itself, and the array of
    pointers it hands to the device kernel names fresh buffers only: when
    the launch has been enqueued, every pointer held by the staging array,
    in whatever slot, designates a buffer allocated by this invocation, so
    that neither the input nor any buffer live at entry is among the
    addresses the kernel is given to write through.  This holds for every
    input, argument and answer of the allocators. *)
Theorem GPU_stages_fresh_buffers_only num_outputs (c : Ctx) :
  let g := SplitOpGPU_Compute IsInnerDimsSizeAligned allocate_status
             allocate_temp_status num_outputs c in
  memory g = memory c
  /\ (stream (device g) <> stream (device c) ->
      forall k ptr,
        default ∅ (temps (device g) !! next_temp (device c)) !! k = Some ptr ->
        (allocated c <= ptr.1)%nat).
Proof.
  intros g.
  destruct (GPU_outcome num_outputs c) as (Hm & Hcases). fold g in Hm, Hcases.
  cbn zeta in Hcases. split; [exact Hm|].
  intros Hgrown k ptr Hk.
  destruct Hcases as [(Hs & _)
                     | (inp & p & sd & sx & os & _ & _ & _ & _ & Hptr & _)];
    [contradiction|].
  exact (Hptr k ptr Hk).
Qed.

(** X7: the host staging array never outlives the invocation: whichever
    path the GPU executor takes (invalid arguments, fast paths, a refused
    allocation, empty outputs, or the launch), once the stream has drained
    either the device state is the one at entry (nothing was allocated) or
    the reference count of the staging array is back to 0. *)
Theorem staging_array_released num_outputs (c : Ctx) :
  stream (device c) = [] ->
  exists g',
    run_stream (GPU num_outputs c) = Some g'
    /\ (device g' = device c
        \/ refs (device g') !! next_temp (device c) = Some 0%nat).
Proof.
  intros Hstream. set (g := GPU num_outputs c).
  destruct (GPU_outcome num_outputs c) as (_ & Hcases). fold g in Hcases.
  cbn zeta in Hcases. rewrite Hstream in Hcases. cbn [app] in Hcases.
  destruct Hcases as [(Hs & Hd)
                     | (inp & p & sd & sx & os & Hs & Hr & _)].
  - exists g. unfold run_stream. rewrite Hs. split; [reflexivity|exact Hd].
  - unfold run_stream. rewrite Hs. cbn [exec_ops].
    unfold exec_op at 1. rewrite Hr.
    cbn [exec_ops exec_op].
    match goal with
    | |- context [if ?b then _ else _] => destruct b
    end;
      (eexists; split; [reflexivity|]); right;
      cbn [Unref device with_device refs]; now rewrite lookup_alter_eq, Hr.
Qed.

(** X8: the GPU executor enqueues work only once every output exists: if
    the stream has grown when [Compute] returns, then all [num_split]
    outputs were allocated, output [j] in the fresh buffer [allocated + j],
    slot [j] of the staging array holds the data pointer of output [j], and
    the status is OK, or Internal when the stream reports a failure. *)
Theorem launch_after_all_outputs num_outputs (c : Ctx) :
  let g := GPU num_outputs c in
  stream (device g) <> stream (device c) ->
  status g = (if stream_ok (device c) then OK else Internal)
  /\ allocated g = (allocated c + Z.to_nat num_outputs)%nat
  /\ forall j, (j < Z.to_nat num_outputs)%nat ->
       exists t,
         outputs g !! j = Some t
         /\ buf t = (allocated c + j)%nat
         /\ default ∅ (temps (device g) !! next_temp (device c)) !! j = Some (data t).
Proof.
  intros g Hgrown.
  destruct (GPU_outcome num_outputs c) as (_ & Hcases). fold g in Hcases.
  cbn zeta in Hcases.
  destruct Hcases as [(Hs & _)
                     | (inp & p & sd & sx & os & _ & _ & Hst & Hal & _ & Hin)];
    [contradiction|].
  split; [exact Hst|]. split; [exact Hal|].
  intros j Hj. destruct (Hin j Hj) as (Ho & Hs).
  eexists. split; [exact Ho|]. split; [reflexivity|exact Hs].
Qed.

(** *** The status of an invocation *)

Lemma EasyCases_status num_outputs (c : Ctx) :
  status c = OK ->
  0 <= input0 c < dims (shape (input1 c)) ->
  0 < num_outputs ->
  Z.rem (dim_size (shape (input1 c)) (input0 c)) num_outputs = 0 ->
  status (EasyCases num_outputs c).1 = OK
  /\ device (EasyCases num_outputs c).1 = device c
  /\ ((EasyCases num_outputs c).2 = false -> (EasyCases num_outputs c).1 = c).
Proof.
  intros Hok Hd Hnum Hrem.
  rewrite (EasyCases_valid IsInnerDimsSizeAligned num_outputs c Hd Hnum Hrem).
  destruct (num_outputs =? 1); [cbn; repeat split; [assumption|discriminate]|].
  destruct ((input0 c =? 0) && IsInnerDimsSizeAligned (shape (input1 c)));
    cbn [fst snd]; [|repeat split; assumption].
  unfold for_range.
  match goal with
  | |- context [for_loop ?n 0 (fun i c0 => set_output c0 i (@?f i)) c] =>
      destruct (set_output_loop n 0 c f ltac:(lia))
        as (_ & _ & Hs & _ & _ & _ & Hdev & _)
  end.
  split; [congruence|]. split; [exact Hdev|discriminate].
Qed.

Lemma CPU_status_served num_outputs (c : Ctx) :
  (forall n s, allocate_status n s = OK) ->
  status c = OK ->
  0 <= input0 c < dims (shape (input1 c)) ->
  0 < num_outputs ->
  Z.rem (dim_size (shape (input1 c)) (input0 c)) num_outputs = 0 ->
  status (CPU num_outputs c) = OK.
Proof.
  intros Hall Hok Hd Hnum Hrem. unfold SplitOpCPU_Compute.
  destruct (EasyCases_status num_outputs c Hok Hd Hnum Hrem) as (Hs & _ & Hnd).
  destruct (EasyCases num_outputs c) as [c1 done]. cbn [fst snd] in Hs, Hnd.
  rewrite Hs. cbn [ok negb orb]. destruct done; [exact Hs|].
  rewrite (Hnd eq_refl).
  destruct (SetDims (shape (input1 c)) (input0 c)) as [[p sd] sx].
  match goal with
  | |- context [SplitOpCPU_loop _ ?n 0 ?ix ?view ?os p ?per sx c] =>
      destruct (CPU_loop_prefix n n 0 ix view os p per sx c ltac:(lia) ltac:(lia)
                  (fun j _ => Hall _ _) ltac:(lia) OK ltac:(lia))
        as (Hst & _)
  end.
  cbn zeta in Hst. rewrite Hst.
  destruct (decide (_ < _)%nat); [lia|exact Hok].
Qed.

Lemma GPU_body_served num_split input p sd sx per os bytes host (c : Ctx) :
  (forall n s, allocate_status n s = OK) ->
  (forall n b, allocate_temp_status n b = OK) ->
  0 <= num_split ->
  status c = OK ->
  let b := SplitOpGPU_body allocate_status allocate_temp_status num_split input
             p sd sx per os bytes host c in
  (stream (device b) = stream (device c) /\ status b = OK)
  \/ (stream (device b) <> stream (device c)
      /\ status b = (if stream_ok (device c) then OK else Internal)).
Proof.
  intros Hall Htemp Hn Hok. unfold SplitOpGPU_body, allocate_temp. rewrite Htemp.
  match goal with
  | |- context [SplitOpGPU_loop _ ?n 0 os host ?cx] =>
      pose proof (GPU_loop_spec allocate_status Hall os host n 0 cx ltac:(lia)) as Hspec;
      pose proof (GPU_loop_device allocate_status n os host 0 cx) as Hdev;
      destruct (SplitOpGPU_loop allocate_status n 0 os host cx) as [c4 fl]
  end.
  cbn zeta in Hspec, Hdev. cbn [fst snd] in Hspec, Hdev.
  destruct Hspec as (-> & _ & _ & Hst & _).
  destruct Hdev as (_ & Hstream & Hsok & _).
  cbn [status device with_device stream stream_ok] in Hst, Hstream, Hsok.
  cbn zeta.
  destruct (_ =? 0); [left; split; congruence|].
  right. rewrite branch_device, branch_status by (cbn; congruence).
  cbn [enqueue TensorReference device with_device stream stream_ok].
  rewrite Hstream, Hsok, <- !app_assoc. split; [apply app_three_neq|reflexivity].
Qed.

Lemma GPU_status_served num_outputs (c : Ctx) :
  (forall n s, allocate_status n s = OK) ->
  (forall n b, allocate_temp_status n b = OK) ->
  status c = OK ->
  0 <= input0 c < dims (shape (input1 c)) ->
  0 < num_outputs ->
  Z.rem (dim_size (shape (input1 c)) (input0 c)) num_outputs = 0 ->
  let g := GPU num_outputs c in
  (stream (device g) = stream (device c) /\ status g = OK)
  \/ (stream (device g) <> stream (device c)
      /\ status g = (if stream_ok (device c) then OK else Internal)).
Proof.
  intros Hall Htemp Hok Hd Hnum Hrem g.
  assert (Hg : g = GPU num_outputs c) by reflexivity. clearbody g.
  unfold SplitOpGPU_Compute in Hg.
  destruct (EasyCases_status num_outputs c Hok Hd Hnum Hrem) as (Hs & Hdev & Hnd).
  destruct (EasyCases num_outputs c) as [c1 done]. cbn [fst snd] in Hs, Hdev, Hnd.
  rewrite Hs in Hg. cbn [ok negb orb] in Hg.
  destruct done; [subst g; left; split; congruence|].
  rewrite (Hnd eq_refl) in Hg.
  destruct (SetDims (shape (input1 c)) (input0 c)) as [[p sd] sx].
  unfold allocate_temp at 1 in Hg. rewrite Htemp in Hg.
  match type of Hg with
  | context [SplitOpGPU_body _ _ ?n ?inp p sd sx ?per ?os ?by' ?host ?cx] =>
      pose proof (GPU_body_served n inp p sd sx per os by' host cx Hall Htemp
                    ltac:(lia) Hok) as Hbody
  end.
  cbn zeta in Hbody. cbn [device with_device stream stream_ok] in Hbody.
  subst g. cbn [Unref status device with_device stream].
  exact Hbody.
Qed.

(** X9: when the allocators serve every request, a fresh invocation of the
    CPU executor that returns ends with status OK exactly when the
    arguments are valid (split_dim within the rank, num_split positive,
    split-axis size a multiple of num_split); the same holds for the GPU
    executor on a healthy stream.  Invocations that a check of the shape
    or view classes terminates are not concerned. *)
Theorem status_OK_iff_valid num_outputs (c : Ctx) :
  (forall n s, allocate_status n s = OK) ->
  (forall n b, allocate_temp_status n b = OK) ->
  status c = OK ->
  let valid :=
    0 <= input0 c < dims (shape (input1 c))
    /\ 0 < num_outputs
    /\ Z.rem (dim_size (shape (input1 c)) (input0 c)) num_outputs = 0 in
  (forall c',
     SplitOpCPU_run IsInnerDimsSizeAligned allocate_status num_outputs c = Returned c' ->
     (status c' = OK <-> valid))
  /\ (stream_ok (device c) = true ->
      forall c',
        SplitOpGPU_run IsInnerDimsSizeAligned allocate_status allocate_temp_status
          num_outputs c = Returned c' ->
        (status c' = OK <-> valid)).
Proof.
  intros Hall Htemp Hok valid.
  enough (Hboth : (status (CPU num_outputs c) = OK <-> valid)
                  /\ (stream_ok (device c) = true ->
                      (status (GPU num_outputs c) = OK <-> valid))).
  { destruct Hboth as (Hcpu & Hgpu). split.
    - intros c' (-> & _)%returned_CPU. exact Hcpu.
    - intros Hsok c' (-> & _)%returned_GPU. exact (Hgpu Hsok). }
  destruct (decide valid) as [Hv | Hv].
  - pose proof Hv as (Hd & Hnum & Hrem). split.
    + split; [intros _; exact Hv|].
      intros _. now apply CPU_status_served.
    + intros Hsok. split; [intros _; exact Hv|].
      intros _.
      destruct (GPU_status_served num_outputs c Hall Htemp Hok Hd Hnum Hrem)
        as [(_ & Hst) | (_ & Hst)]; [exact Hst|].
      now rewrite Hst, Hsok.
  - assert (Hbad : ~ (0 <= input0 c < dims (shape (input1 c)))
                   \/ num_outputs <= 0
                   \/ Z.rem (dim_size (shape (input1 c)) (input0 c)) num_outputs <> 0).
    { unfold valid in Hv.
      destruct (decide (0 <= input0 c < dims (shape (input1 c)))); [|now left].
      destruct (decide (0 < num_outputs)); [|right; left; lia].
      right; right. intros Hrem. apply Hv. repeat split; first [assumption|lia]. }
    pose proof (EasyCases_invalid IsInnerDimsSizeAligned num_outputs c Hok Hbad) as Heasy.
    assert (Hcpu : CPU num_outputs c = with_status c InvalidArgument).
    { unfold SplitOpCPU_Compute. rewrite Heasy. reflexivity. }
    assert (Hgpu : GPU num_outputs c = with_status c InvalidArgument).
    { unfold SplitOpGPU_Compute. rewrite Heasy. reflexivity. }
    rewrite Hcpu, Hgpu. cbn [with_status status].
    split; [|intros _]; (split; [discriminate|contradiction]).
Qed.

(** X10: when the allocators serve every request, a fresh invocation of the
    GPU executor ends with status Internal exactly when it has enqueued the
    launch on a stream that reports a failure; an unhealthy stream is not
    an error as long as nothing has to be launched (invalid arguments, fast
    paths, empty outputs). *)
Theorem GPU_Internal_iff_failed_launch num_outputs (c : Ctx) :
  (forall n s, allocate_status n s = OK) ->
  (forall n b, allocate_temp_status n b = OK) ->
  status c = OK ->
  let g := GPU num_outputs c in
  status g = Internal
  <-> stream_ok (device c) = false /\ stream (device g) <> stream (device c).
Proof.
  intros Hall Htemp Hok g.
  destruct (decide (0 <= input0 c < dims (shape (input1 c))
                    /\ 0 < num_outputs
                    /\ Z.rem (dim_size (shape (input1 c)) (input0 c)) num_outputs = 0))
    as [(Hd & Hnum & Hrem) | Hv].
  - destruct (GPU_status_served num_outputs c Hall Htemp Hok Hd Hnum Hrem)
      as [(Hs & Hst) | (Hs & Hst)]; fold g in Hs, Hst.
    + rewrite Hst. split; [discriminate|]. intros (_ & Hne). contradiction.
    + rewrite Hst. destruct (stream_ok (device c)).
      * split; [discriminate|]. intros (Hf & _). discriminate.
      * split; [intros _; split; [reflexivity|exact Hs]|reflexivity].
  - assert (Hbad : ~ (0 <= input0 c < dims (shape (input1 c)))
                   \/ num_outputs <= 0
                   \/ Z.rem (dim_size (shape (input1 c)) (input0 c)) num_outputs <> 0).
    { destruct (decide (0 <= input0 c < dims (shape (input1 c)))); [|now left].
      destruct (decide (0 < num_outputs)); [|right; left; lia].
      right; right. intros Hrem. apply Hv. repeat split; first [assumption|lia]. }
    pose proof (EasyCases_invalid IsInnerDimsSizeAligned num_outputs c Hok Hbad) as Heasy.
    assert (Hgpu : g = with_status c InvalidArgument).
    { unfold g, SplitOpGPU_Compute. rewrite Heasy. reflexivity. }
    rewrite Hgpu. cbn [with_status status device].
    split; [discriminate|]. intros (_ & Hne). now contradiction Hne.
Qed.

(** *** Refused allocations on the GPU path *)




(** *** The pointer array on the device *)

(** X14: when the GPU executor has enqueued the launch of at most 2^60
    outputs on an empty stream, the copy that the stream executes first
    transfers the whole pointer array: once the stream has drained, slot
    [j] of the device array holds the data pointer of output [j], for every
    [j] below [num_split]. *)
Theorem device_array_holds_output_pointers num_outputs (c : Ctx) :
  stream (device c) = [] ->
  num_outputs < 2 ^ 60 ->
  let g := GPU num_outputs c in
  stream (device g) <> [] ->
  exists g',
    run_stream g = Some g'
    /\ forall j, (j < Z.to_nat num_outputs)%nat ->
         exists t,
           outputs g' !! j = Some t
           /\ default ∅ (temps (device g') !! S (next_temp (device c))) !! j
              = Some (data t).
Proof.
  intros Hstream Hnum g Hgrown.
  destruct (GPU_outcome num_outputs c) as (_ & Hcases). fold g in Hcases.
  cbn zeta in Hcases. rewrite Hstream in Hcases. cbn [app] in Hcases.
  destruct Hcases as [(Hs & _)
                     | (inp & p & sd & sx & os & Hs & Hr & _ & _ & _ & Hin)];
    [contradiction|].
  unfold run_stream. rewrite Hs. cbn [exec_ops].
  unfold exec_op at 1. rewrite Hr.
  cbn [exec_ops exec_op Unref device with_device temps refs memory stream_ok].
  destruct (stream_ok (device g));
    (eexists; split; [reflexivity|]);
    cbn [Unref outputs device with_device temps];
    intros j Hj; destruct (Hin j Hj) as (Ho & Hslot);
    (eexists; split; [exact Ho|]);
    rewrite lookup_insert_eq; cbn [default from_option id];
    (apply map_lookup_filter_Some_2; [exact Hslot|]);
    cbn [fst]; rewrite to_int64_id by (unfold fits_int64, sizeof_ptr; lia);
    unfold sizeof_ptr; rewrite (Z.mul_comm 8), Z.div_mul by lia; lia.
Qed.

End KernelMore.

Lemma CPU_preserves_live_buffers_witness :
  memory (SplitOpCPU_Compute never_aligned allocate_always 2
            (fresh_context [65536; 2; 32768] 1)) 0%nat 7
  = 107.
Proof.
  rewrite (CPU_preserves_live_buffers never_aligned allocate_always 2
             (fresh_context [65536; 2; 32768] 1) 0%nat 7).
  - reflexivity.
  - cbn. lia.
Defined.


Lemma general_path_fresh_outputs_witness :
  exists output_shape,
    shape_wf output_shape
    /\ outputs (SplitOpGPU_Compute never_aligned allocate_always allocate_temp_always 2
                  (fresh_context [65536; 65536; 2] 2)) !! 1%nat
       = Some (mkTensor output_shape 2 0).
Proof.
  destruct (general_path_fresh_outputs never_aligned allocate_always allocate_temp_always
              2 (fresh_context [65536; 65536; 2] 2))
    as (os & H).
  - intros; reflexivity.
  - intros; reflexivity.
  - reflexivity.
  - repeat constructor; lia.
  - vm_compute. intuition discriminate.
  - lia.
  - reflexivity.
  - reflexivity.
  - exists os.
    assert (Hrun : SplitOpGPU_run never_aligned allocate_always allocate_temp_always 2
                     (fresh_context [65536; 65536; 2] 2)
                   = Returned (SplitOpGPU_Compute never_aligned allocate_always
                                 allocate_temp_always 2
                                 (fresh_context [65536; 65536; 2] 2))).
    { unfold SplitOpGPU_run.
      assert (Hc : SplitOpGPU_checks never_aligned 2 (fresh_context [65536; 65536; 2] 2)
                   = true) by (vm_compute; reflexivity).
      rewrite Hc. reflexivity. }
    destruct (H _ (or_intror Hrun)) as (Hwf & _ & Hin & _).
    split; [exact Hwf|]. apply (Hin 1%nat). cbn. lia.
Defined.

Lemma dim0_slices_tile_input_witness :
  exists L,
    3 * L = 12
    /\ exists t,
         outputs (SplitOpCPU_Compute always_aligned allocate_always 3
                    (fresh_context [6; 2] 0)) !! 2%nat = Some t
         /\ off t = 0 + 2 * L.
Proof.
  destruct (dim0_slices_tile_input always_aligned allocate_always allocate_temp_always 3
              (fresh_context [6; 2] 0))
    as (L & HL & H).
  - reflexivity.
  - repeat constructor; lia.
  - reflexivity.
  - vm_compute. reflexivity.
  - lia.
  - reflexivity.
  - reflexivity.
  - exists L. split; [exact HL|].
    destruct (H 2 ltac:(lia)) as (t & Ht & _ & Hoff & _).
    exists t. split; [exact Ht|exact Hoff].
Defined.

Lemma GPU_stages_fresh_buffers_only_witness :
  default ∅ (temps (device (SplitOpGPU_Compute never_aligned allocate_always
                              allocate_temp_always 3 (fresh_context [2; 6] 1)))
             !! 0%nat) !! 2%nat = Some (3%nat, 0)
  /\ (1 <= 3)%nat.
Proof.
  assert (Hslot : default ∅ (temps (device (SplitOpGPU_Compute never_aligned
                                              allocate_always allocate_temp_always 3
                                              (fresh_context [2; 6] 1)))
                             !! 0%nat) !! 2%nat = Some (3%nat, 0))
    by (vm_compute; reflexivity).
  split; [exact Hslot|].
  destruct (GPU_stages_fresh_buffers_only never_aligned allocate_always
              allocate_temp_always 3 (fresh_context [2; 6] 1)) as (_ & Hfresh).
  apply (Hfresh ltac:(vm_compute; discriminate) 2%nat (3%nat, 0) Hslot).
Defined.

Lemma staging_array_released_witness :
  exists g',
    run_stream (SplitOpGPU_Compute never_aligned allocate_always allocate_temp_always 3
                  (fresh_context [2; 6] 1)) = Some g'
    /\ (device g' = idle_device \/ refs (device g') !! 0%nat = Some 0%nat).
Proof.
  apply (staging_array_released never_aligned allocate_always allocate_temp_always 3
           (fresh_context [2; 6] 1)).
  reflexivity.
Defined.

Lemma launch_after_all_outputs_witness :
  allocated (SplitOpGPU_Compute never_aligned allocate_always allocate_temp_always 3
               (fresh_context [2; 6] 1)) = 4%nat.
Proof.
  destruct (launch_after_all_outputs never_aligned allocate_always allocate_temp_always 3
              (fresh_context [2; 6] 1))
    as (_ & Hal & _).
  - vm_compute. discriminate.
  - exact Hal.
Defined.

Lemma status_OK_iff_valid_witness :
  0 <= 1 < dims [2; 6] /\ 0 < 3 /\ Z.rem (dim_size [2; 6] 1) 3 = 0
  /\ status (SplitOpCPU_Compute never_aligned allocate_always 3 (fresh_context [2; 6] 1))
     = OK.
Proof.
  assert (Hvalid : 0 <= 1 < dims [2; 6] /\ 0 < 3 /\ Z.rem (dim_size [2; 6] 1) 3 = 0)
    by (split; [split; [lia|reflexivity]|split; [lia|reflexivity]]).
  destruct Hvalid as (Hd & Hnum & Hrem).
  split; [exact Hd|]. split; [exact Hnum|]. split; [exact Hrem|].
  destruct (status_OK_iff_valid never_aligned allocate_always allocate_temp_always 3
              (fresh_context [2; 6] 1))
    as (Hcpu & _).
  - intros; reflexivity.
  - intros; reflexivity.
  - reflexivity.
  - apply (Hcpu (SplitOpCPU_Compute never_aligned allocate_always 3
                   (fresh_context [2; 6] 1))).
    + unfold SplitOpCPU_run.
      assert (Hc : SplitOpCPU_checks never_aligned allocate_always 3
                     (fresh_context [2; 6] 1) = true) by (vm_compute; reflexivity).
      rewrite Hc. reflexivity.
    + split; [exact Hd|]. split; [exact Hnum|exact Hrem].
Defined.

Lemma GPU_Internal_iff_failed_launch_witness :
  let c := with_device (fresh_context [2; 6] 1) (mkDeviceState ∅ ∅ 0 [] false) in
  let g := SplitOpGPU_Compute never_aligned allocate_always allocate_temp_always 3 c in
  status g = Internal
  <-> stream_ok (device c) = false /\ stream (device g) <> stream (device c).
Proof.
  apply (GPU_Internal_iff_failed_launch never_aligned allocate_always allocate_temp_always
           3 (with_device (fresh_context [2; 6] 1) (mkDeviceState ∅ ∅ 0 [] false))).
  - intros; reflexivity.
  - intros; reflexivity.
  - reflexivity.
Defined.

Lemma output_shapes_conserve_elements_witness :
  exists t,
    outputs (SplitOpGPU_Compute never_aligned allocate_always allocate_temp_always 2
               (fresh_context [65536; 65536; 2] 2)) !! 0%nat = Some t
    /\ shape t = [65536; 65536; 1]
    /\ 2 * num_elements (shape t) = num_elements [65536; 65536; 2].
Proof.
  destruct (output_shapes_conserve_elements never_aligned allocate_always
              allocate_temp_always 2 (fresh_context [65536; 65536; 2] 2))
    as (Hrun & H).
  - intros; reflexivity.
  - intros; reflexivity.
  - reflexivity.
  - repeat constructor; lia.
  - vm_compute. intuition discriminate.
  - lia.
  - reflexivity.
  - reflexivity.
  - vm_compute. intuition discriminate.
  - apply (H _ (or_intror Hrun) 0%nat). cbn. lia.
Defined.



Lemma device_array_holds_output_pointers_witness :
  exists g',
    run_stream (SplitOpGPU_Compute never_aligned allocate_always allocate_temp_always 3
                  (fresh_context [2; 6] 1)) = Some g'
    /\ exists t,
         outputs g' !! 2%nat = Some t
         /\ default ∅ (temps (device g') !! 1%nat) !! 2%nat = Some (data t).
Proof.
  destruct (device_array_holds_output_pointers never_aligned allocate_always
              allocate_temp_always 3 (fresh_context [2; 6] 1))
    as (g' & Hrun & Hslots).
  - reflexivity.
  - lia.
  - vm_compute. discriminate.
  - exists g'. split; [exact Hrun|]. apply (Hslots 2%nat). cbn. lia.
Defined.
